(** * Epidemic-Graph-Simulation: a shallow embedding of [Agent.py] and
    [Network.py], and the properties of the simulation engine.

    Modelling conventions.
    - Python integers are [Z]; list indices and node labels, which the code
      only ever produces as non-negative numbers, are [nat].
    - Python floats are idealised as real numbers ([R]): [math.e ** x] is
      [Rpower (exp 1) x], comparisons are [Rle_dec] and [Rlt_dec].
    - The module-level generator of [random] is an explicit stream of raw
      values with a read position; [random.randint a b] consumes one value
      and maps it into [a..b].  Every statement quantifies over the stream.
    - The class attribute [Agent.agent_id], the generator and exceptions
      live in a small state-and-error monad [M]; [while] loops take fuel.
    - A method of a mutable object takes [self] and returns the new [self].
      An agent object is referenced from exactly one occupant list, so
      occupant lists hold agent values.
    - The graph is a networkx object: its nodes are the labels 0, 1, ... in
      the order [relabel_nodes] inserted them, and the order in which it
      lists the neighbours of a node is left to the adjacency function the
      lattice carries.  Plotting is left out. *)

From Stdlib Require Import ZArith List Reals Lra Lia.
From stdpp Require Import base option list gmap.

Local Open Scope Z_scope.

(** ** Interpreter state: generator, class counter, exceptions, fuel *)

Record Globals := mkGlobals {
  stream : nat -> Z;      (* raw values the generator will produce *)
  pos : nat;              (* number of values consumed so far *)
  agent_id : Z            (* class attribute Agent.agent_id *)
}.

Inductive Exn := ValueError | KeyError | IndexError | TypeError.

Inductive Outcome (A : Type) :=
| Ret (a : A) (g : Globals)
| Raise (e : Exn)
| Timeout.
Arguments Ret {A} a g.
Arguments Raise {A} e.
Arguments Timeout {A}.

Definition M (A : Type) : Type := Globals -> Outcome A.

Definition ret {A} (a : A) : M A := fun g => Ret a g.
Definition raise {A} (e : Exn) : M A := fun _ => Raise e.
Definition timeout {A} : M A := fun _ => Timeout.
Definition bind {A B} (m : M A) (k : A -> M B) : M B :=
  fun g => match m g with
           | Ret a g' => k a g'
           | Raise e => Raise e
           | Timeout => Timeout
           end.

Notation "x <- m ;; k" := (bind m (fun x => k))
  (at level 100, m at next level, right associativity).

(** [random.randint(a, b)]: an integer in [a..b], [ValueError] on an empty
    range. *)
Definition randint (a b : Z) : M Z :=
  fun g =>
    if b <? a then Raise ValueError
    else Ret (a + stream g (pos g) mod (b - a + 1))
             (mkGlobals (stream g) (S (pos g)) (agent_id g)).

(** [x = Agent.agent_id; Agent.agent_id += 1] *)
Definition fresh_agent_id : M Z :=
  fun g => Ret (agent_id g) (mkGlobals (stream g) (pos g) (agent_id g + 1)).

(** [d[k]] on a dictionary and [l[i]] on a list. *)
Definition dict_get {V} (d : gmap Z V) (k : Z) : M V :=
  match d !! k with Some v => ret v | None => raise KeyError end.
Definition list_get {V} (l : list V) (i : nat) : M V :=
  match l !! i with Some v => ret v | None => raise IndexError end.

(** [for x in xs: s = body(x, s)] *)
Fixpoint for_each {X S} (xs : list X) (body : X -> S -> M S) (s : S) : M S :=
  match xs with
  | [] => ret s
  | x :: xs' => s' <- body x s ;; for_each xs' body s'
  end.

(** [math.e ** x] *)
Definition e_pow (x : R) : R := Rpower (exp 1) x.

(** ** Agent.py *)

Inductive Label := Healthy | Asymptomatic | Symptomatic | Dead.

#[global] Instance Label_eq_dec : EqDecision Label.
Proof. solve_decision. Defined.

(** The dictionary [__health_status]. *)
Record HealthStatus := mkHealth { label : Label; days_infected : Z }.

(** What the attribute [__location] holds: the constructor stores the integer
    label of a node, [move_agent] stores whatever it is given as
    [target_node], and [Network.__check_for_movement] passes the attribute
    dictionary [lattice.nodes[s_2_index]] of the node there. *)
Inductive Location :=
| SiteId (i : nat)      (* the integer label of a node *)
| NodeData (i : nat).   (* a reference to the attribute dictionary of node i *)

Module Agent.

Record t := mk {
  id : Z;
  health_status : HealthStatus;
  age : Z;
  location : Location;
  susceptibility_factor : R
}.

(** [__age_categorize]: the value it stores in [__age]. *)
Definition age_categorize (age : Z) : Z :=
  if age <=? 4 then 4
  else if (5 <=? age) && (age <=? 14) then 3
  else if (15 <=? age) && (age <=? 64) then 1
  else 2.

(** The body of [__init__] once the identifier and the raw age are drawn. *)
Definition create (ident raw_age : Z) (node : Location) : t :=
  let age := age_categorize raw_age in
  mk ident (mkHealth Healthy (-1)) age node (e_pow (IZR (- age) / 10)).

(** [Agent(node)] *)
Definition init (node : Location) : M t :=
  ident <- fresh_agent_id ;;
  raw_age <- randint 0 82 ;;
  ret (create ident raw_age node).

Definition get_id (self : t) : Z := id self.
Definition get_status (self : t) : Label * Z :=
  (label (health_status self), days_infected (health_status self)).
Definition get_infectious (self : t) : bool :=
  if decide (label (health_status self) ∈ [Asymptomatic; Symptomatic])
  then true else false.
Definition get_symptomatic (self : t) : bool :=
  bool_decide (label (health_status self) = Symptomatic).
Definition get_age (self : t) : Z := age self.
Definition get_location (self : t) : Location := location self.

Definition set_health (self : t) (h : HealthStatus) : t :=
  mk (id self) h (age self) (location self) (susceptibility_factor self).
Definition set_location (self : t) (node : Location) : t :=
  mk (id self) (health_status self) (age self) node (susceptibility_factor self).
Definition set_infected (self : t) : t :=
  set_health self (mkHealth Asymptomatic 0).

(** [update_agent]: the death flag and the agent after the call. *)
Definition update_agent (self : t) (asympt_phase_length sympt_phase_length : Z)
  : bool * t :=
  let h := health_status self in
  if decide (label h ∉ [Healthy; Dead]) then
    let d := days_infected h + 1 in
    if decide (label h = Asymptomatic) then
      if asympt_phase_length <? d
      then (false, set_health self (mkHealth Symptomatic d))
      else (false, set_health self (mkHealth (label h) d))
    else
      if asympt_phase_length + sympt_phase_length <? d
      then (true, set_health self (mkHealth Dead (-1)))
      else (false, set_health self (mkHealth (label h) d))
  else (false, self).

(** [expose_to_infection] *)
Definition expose_to_infection (self : t) (lam : R) : M (bool * t) :=
  if decide (label (health_status self) ∉ [Asymptomatic; Symptomatic; Dead])
  then
    d <- randint 1 100 ;;
    let probability := (IZR d / 100)%R in
    if Rle_dec probability (lam * susceptibility_factor self)
    then ret (true, set_health self (mkHealth Asymptomatic 0))
    else ret (false, self)
  else ret (false, self).

(** The acceptance threshold [prob_1_to_2] of [move_agent], for the
    coefficient [b] found in the mobility table. *)
Definition prob_1_to_2 (b n_age_1 n_age_2 : Z) : R :=
  if n_age_1 <=? n_age_2
  then Rmin 1 (e_pow (IZR (b * (n_age_2 - n_age_1))))
  else e_pow (IZR (- b * (n_age_2 - n_age_1))).

(** [move_agent] *)
Definition move_agent (self : t) (n_age_1 n_age_2 : Z) (target_node : Location)
    (beta : gmap Z Z) : M (bool * t) :=
  if decide (label (health_status self) = Symptomatic) then ret (false, self)
  else
    d <- randint 1 100 ;;
    let probability := (IZR d / 100)%R in
    b <- dict_get beta (age self) ;;
    if Rle_dec probability (prob_1_to_2 b n_age_1 n_age_2)
    then ret (true, set_location self target_node)
    else ret (false, self).

End Agent.

(** [int(x)] for a float [x]: the integer part, rounded towards zero. *)
Definition py_int (x : R) : Z :=
  if Rle_dec 0 x then Int_part x else - Int_part (- x).

(** [range(n)] *)
Definition py_range (n : Z) : list Z := Z.of_nat <$> seq 0 (Z.to_nat n).

(** ** Network.py *)

(** One entry of [__stats]. *)
Record Stat := mkStat { total : Z; alive : Z; dead : Z; infected : Z }.

(** The graph [__lattice]: the adjacency lists networkx keeps (the order in
    which [neighbors] lists them is the library's) and, for the node with
    label [i], the list stored under ["occupants"] at position [i]. *)
Record Lattice := mkLattice {
  neighbors : nat -> list nat;
  occupants : list (list Agent.t)
}.

Record NetworkParams := mkNetworkParams {
  N : R; L : Z; num_nodes : Z; t : Z; influx : R; n_0 : Z
}.

Record AgentParams := mkAgentParams {
  asympt_length : Z; sympt_length : Z; lambda : R; beta : gmap Z Z
}.

(** The command-line arguments of [main.py]. *)
Record Args := mkArgs {
  arg_L : Z; arg_N : R; arg_t : Z; arg_n_0 : Z; arg_lam : R;
  arg_asym_l : Z; arg_symp_l : Z; arg_influx : R
}.

(** [params["t"]], under a name that the network type does not hide. *)
Definition time_steps (params : NetworkParams) : Z := t params.

Module Network.

Record t := mk {
  network_params : NetworkParams;
  agent_params : AgentParams;
  time_elapsed : Z;
  num_agents : Z;
  stats : gmap Z Stat;
  lattice : Lattice
}.

Definition set_lattice (self : t) (occ : list (list Agent.t)) : t :=
  mk (network_params self) (agent_params self) (time_elapsed self)
     (num_agents self) (stats self)
     (mkLattice (neighbors (lattice self)) occ).
Definition set_stats (self : t) (st : gmap Z Stat) : t :=
  mk (network_params self) (agent_params self) (time_elapsed self)
     (num_agents self) st (lattice self).
Definition set_num_agents (self : t) (n : Z) : t :=
  mk (network_params self) (agent_params self) (time_elapsed self)
     n (stats self) (lattice self).
Definition set_time_elapsed (self : t) (n : Z) : t :=
  mk (network_params self) (agent_params self) n
     (num_agents self) (stats self) (lattice self).

(** [self.__lattice.nodes[i]["occupants"]] *)
Definition node_occupants (self : t) (i : nat) : M (list Agent.t) :=
  match occupants (lattice self) !! i with
  | Some l => ret l
  | None => raise KeyError
  end.

(** [self.__lattice.nodes[i]["occupants"][k]] *)
Definition occupant (self : t) (i k : nat) : M Agent.t :=
  l <- node_occupants self i ;; list_get l k.

(** The network once the method called on the occupant [k] of node [i]
    has left that agent as [a]. *)
Definition store_occupant (self : t) (i k : nat) (a : Agent.t) : t :=
  set_lattice self (alter (fun l => <[k := a]> l) i (occupants (lattice self))).

(** [self.__stats[key][field] += / -= 1] *)
Definition bump_stat (f : Stat -> Stat) (key : Z) (self : t) : M t :=
  s <- dict_get (stats self) key ;;
  ret (set_stats self (<[key := f s]> (stats self))).

Definition incr_total (s : Stat) : Stat :=
  mkStat (total s + 1) (alive s) (dead s) (infected s).
Definition incr_alive (s : Stat) : Stat :=
  mkStat (total s) (alive s + 1) (dead s) (infected s).
Definition decr_alive (s : Stat) : Stat :=
  mkStat (total s) (alive s - 1) (dead s) (infected s).
Definition incr_dead (s : Stat) : Stat :=
  mkStat (total s) (alive s) (dead s + 1) (infected s).
Definition incr_infected (s : Stat) : Stat :=
  mkStat (total s) (alive s) (dead s) (infected s + 1).

(** The 8-neighbourhood of node [i] on the [L] x [L] grid with row-major
    labels, as [__generate_lattice] builds it. *)
Definition grid_neighbors (L : nat) (i : nat) : list nat :=
  let x := Z.of_nat (i / L)%nat in
  let y := Z.of_nat (i mod L)%nat in
  let l := Z.of_nat L in
  omap (fun d : Z * Z =>
          let x' := x + d.1 in
          let y' := y + d.2 in
          if (0 <=? x') && (x' <? l) && (0 <=? y') && (y' <? l)
          then Some (Z.to_nat (x' * l + y')) else None)
       [(-1, 0); (1, 0); (0, -1); (0, 1); (1, 1); (-1, -1); (-1, 1); (1, -1)].

(** [__generate_lattice]: the graph, with an empty occupant list on each of
    the [num_nodes] nodes. *)
Definition generate_lattice (params : NetworkParams) : Lattice :=
  mkLattice (grid_neighbors (Z.to_nat (L params)))
            (replicate (Z.to_nat (num_nodes params)) []).

(** [__init__] up to and including [__generate_lattice()]; the population
    is placed afterwards by [__populate_lattice()]. *)
Definition init_lattice (args : Args) : t :=
  let network_params :=
    mkNetworkParams (arg_N args) (arg_L args) (arg_L args * arg_L args)
                    (arg_t args) (arg_influx args) (arg_n_0 args) in
  let agent_params :=
    mkAgentParams (arg_asym_l args) (arg_symp_l args) (arg_lam args)
                  (<[1 := 1]> (<[2 := 2]> (<[3 := 3]> (<[4 := 4]> ∅)))) in
  mk network_params agent_params 0 0
     (list_to_map ((fun i => (i, mkStat 0 0 0 0)) <$> [1; 2; 3; 4]))
     (generate_lattice network_params).

(** *** [__check_for_infection] *)

(** Body of the innermost loop. *)
Definition expose_occupant (neighbor o_index : nat) (self : t) : M t :=
  a <- occupant self neighbor o_index ;;
  r <- Agent.expose_to_infection a (lambda (agent_params self)) ;;
  let self' := store_occupant self neighbor o_index r.2 in
  if r.1 then bump_stat incr_infected (Agent.get_age r.2) self'
  else ret self'.

(** [for o_index in range(0, len(occupants of neighbor) - 1)] *)
Definition expose_node (neighbor : nat) (self : t) : M t :=
  l <- node_occupants self neighbor ;;
  for_each (seq 0 (length l - 1)) (expose_occupant neighbor) self.

(** Body of the loop over the occupants of [node]. *)
Definition spread_from (node : nat) (nbrs : list nat) (occupant_index : nat)
    (self : t) : M t :=
  a <- occupant self node occupant_index ;;
  if Agent.get_infectious a then for_each nbrs expose_node self
  else ret self.

(** Body of the loop over the nodes. *)
Definition infect_from_node (node : nat) (self : t) : M t :=
  let nbrs := neighbors (lattice self) node ++ [node] in
  l <- node_occupants self node ;;
  for_each (seq 0 (length l)) (spread_from node nbrs) self.

Definition all_nodes (self : t) : list nat :=
  seq 0 (length (occupants (lattice self))).

Definition check_for_infection (self : t) : M t :=
  for_each (all_nodes self) infect_from_node self.

(** *** [__check_for_death] *)

Definition update_occupant (node occupant_index : nat) (self : t) : M t :=
  a <- occupant self node occupant_index ;;
  let r := Agent.update_agent a (asympt_length (agent_params self))
                              (sympt_length (agent_params self)) in
  let self1 := store_occupant self node occupant_index r.2 in
  if r.1 then
    let self2 := set_num_agents self1 (num_agents self1 - 1) in
    self3 <- bump_stat decr_alive (Agent.get_age r.2) self2 ;;
    bump_stat incr_dead (Agent.get_age r.2) self3
  else ret self1.

Definition update_node (node : nat) (self : t) : M t :=
  l <- node_occupants self node ;;
  for_each (seq 0 (length l)) (update_occupant node) self.

Definition check_for_death (self : t) : M t :=
  for_each (all_nodes self) update_node self.

(** *** [__check_for_movement] *)

(** [while len(occupants of s_1_index) == 0: s_1_index = randint(...)] *)
Fixpoint find_occupied (fuel : nat) (self : t) (s_1_index : nat) : M nat :=
  match fuel with
  | O => timeout
  | S fuel' =>
      l <- node_occupants self s_1_index ;;
      if (length l =? 0)%nat then
        s <- randint 0 (num_nodes (network_params self) - 1) ;;
        find_occupied fuel' self (Z.to_nat s)
      else ret s_1_index
  end.

(** The [for] loop that looks for a symptomatic occupant at [s_2_index]:
    it visits the indices of [range(0, len(l) - 1)] and stops at the first
    hit, so it finds one exactly when one of the first [len(l) - 1]
    occupants is symptomatic. *)
Definition scan_symptomatic (l : list Agent.t) : bool :=
  existsb Agent.get_symptomatic (take (length l - 1) l).

(** [neighbors[random.randint(0, len(neighbors) - 1)]] *)
Definition random_neighbor (nbrs : list nat) : M nat :=
  k <- randint 0 (Z.of_nat (length nbrs) - 1) ;;
  list_get nbrs (Z.to_nat k).

(** The [while True] loop; [None] is its [return], [Some s_2_index] its
    final [break]. *)
Fixpoint find_destination (fuel : nat) (self : t) (nbrs : list nat)
    (s_2_index : nat) (repeat_counter : Z) : M (option nat) :=
  match fuel with
  | O => timeout
  | S fuel' =>
      if 30 <? repeat_counter then ret None
      else
        l <- node_occupants self s_2_index ;;
        if scan_symptomatic l then
          s <- random_neighbor nbrs ;;
          find_destination fuel' self nbrs s (repeat_counter + 1)
        else ret (Some s_2_index)
  end.

(** The counters [n_age_1] and [n_age_2]. *)
Definition count_age (age_category : Z) (l : list Agent.t) : Z :=
  Z.of_nat (length (filter (fun a => Agent.get_age a = age_category) l)).

(** [occupants of s_2.append(occupants of s_1.pop(agent_index))] *)
Definition pop_append (self : t) (s_1_index agent_index s_2_index : nat) : M t :=
  a <- occupant self s_1_index agent_index ;;
  let occ1 := alter (delete agent_index) s_1_index (occupants (lattice self)) in
  ret (set_lattice self (alter (fun l => l ++ [a]) s_2_index occ1)).

(** The part of the method after the two loops. *)
Definition attempt_move (self : t) (s_1_index s_2_index : nat) : M t :=
  l1 <- node_occupants self s_1_index ;;
  k <- randint 0 (Z.of_nat (length l1) - 1) ;;
  let agent_index := Z.to_nat k in
  mover <- list_get l1 agent_index ;;
  let age_category := Agent.get_age mover in
  let n_age_1 := count_age age_category l1 in
  l2 <- node_occupants self s_2_index ;;
  let n_age_2 := count_age age_category l2 in
  r <- Agent.move_agent mover n_age_1 n_age_2 (NodeData s_2_index)
                        (beta (agent_params self)) ;;
  let self' := store_occupant self s_1_index agent_index r.2 in
  if r.1 then pop_append self' s_1_index agent_index s_2_index
  else ret self'.

Definition check_for_movement (fuel : nat) (self : t) : M t :=
  s <- randint 0 (num_nodes (network_params self) - 1) ;;
  s_1_index <- find_occupied fuel self (Z.to_nat s) ;;
  let nbrs := neighbors (lattice self) s_1_index in
  s2 <- random_neighbor nbrs ;;
  dest <- find_destination fuel self nbrs s2 0 ;;
  match dest with
  | None => ret self
  | Some s_2_index => attempt_move self s_1_index s_2_index
  end.

(** *** [__check_for_influx] *)

(** [self.__lattice.nodes[loc]]: a node label is looked up, an attribute
    dictionary is not hashable. *)
Definition node_index (loc : Location) : M nat :=
  match loc with
  | SiteId i => ret i
  | NodeData _ => raise TypeError
  end.

(** [self.__lattice.nodes[agent.get_location()]["occupants"].append(agent)] *)
Definition append_occupant (self : t) (agent : Agent.t) : M t :=
  i <- node_index (Agent.get_location agent) ;;
  _ <- node_occupants self i ;;
  ret (set_lattice self (alter (fun l => l ++ [agent]) i (occupants (lattice self)))).

Definition add_agent (self : t) : M t :=
  s <- randint 0 (num_nodes (network_params self) - 1) ;;
  agent <- Agent.init (SiteId (Z.to_nat s)) ;;
  self1 <- append_occupant self agent ;;
  let self2 := set_num_agents self1 (num_agents self1 + 1) in
  self3 <- bump_stat incr_total (Agent.get_age agent) self2 ;;
  bump_stat incr_alive (Agent.get_age agent) self3.

Definition check_for_influx (self : t) : M t :=
  d <- randint 1 100 ;;
  let probability := (IZR d / 100)%R in
  if Rlt_dec probability (influx (network_params self))
  then add_agent self
  else ret self.

(** *** [__timestep] *)

Definition timestep (fuel : nat) (self : t) : M t :=
  self1 <- check_for_infection self ;;
  self2 <- check_for_death self1 ;;
  self3 <- check_for_movement fuel self2 ;;
  self4 <- check_for_influx self3 ;;
  ret (set_time_elapsed self4 (time_elapsed self4 + 1)).

(** *** [__populate_lattice] *)

(** [int(num_nodes * N)]: the size of the initial population. *)
Definition population (self : t) : Z :=
  py_int (IZR (num_nodes (network_params self)) * N (network_params self)).

(** [while ind in infected_indices: ind = random.randint(0, int(...))] *)
Fixpoint redraw (fuel : nat) (self : t) (infected_indices : list Z) (ind : Z)
  : M Z :=
  match fuel with
  | O => timeout
  | S fuel' =>
      if bool_decide (ind ∈ infected_indices) then
        ind' <- randint 0 (population self) ;;
        redraw fuel' self infected_indices ind'
      else ret ind
  end.

(** Body of the loop that chooses the indices of the initial cases. *)
Definition choose_index (fuel : nat) (self : t) (infected_indices : list Z)
  : M (list Z) :=
  ind <- randint 0 (population self) ;;
  ind' <- redraw fuel self infected_indices ind ;;
  ret (infected_indices ++ [ind']).

(** Body of the loop that creates the agents. *)
Definition place_agent (infected_indices : list Z) (i : Z) (self : t) : M t :=
  s <- randint 0 (num_nodes (network_params self) - 1) ;;
  agent <- Agent.init (SiteId (Z.to_nat s)) ;;
  r <- (if bool_decide (i ∈ infected_indices) then
          let agent' := Agent.set_infected agent in
          self' <- bump_stat incr_infected (Agent.get_age agent') self ;;
          ret (agent', self')
        else ret (agent, self)) ;;
  self1 <- append_occupant r.2 r.1 ;;
  let self2 := set_num_agents self1 (num_agents self1 + 1) in
  self3 <- bump_stat incr_total (Agent.get_age r.1) self2 ;;
  bump_stat incr_alive (Agent.get_age r.1) self3.

Definition choose_indices (fuel : nat) (self : t) : M (list Z) :=
  for_each (py_range (n_0 (network_params self)))
           (fun _ => choose_index fuel self) [].

Definition populate_lattice (fuel : nat) (self : t) : M t :=
  infected_indices <- choose_indices fuel self ;;
  for_each (py_range (population self)) (place_agent infected_indices) self.

(** [Network(args)], the display left out. *)
Definition init (fuel : nat) (args : Args) : M t :=
  populate_lattice fuel (init_lattice args).

(** *** [__generate_colorations] *)

(** The three flags after the loop over the occupants of a node:
    [contains_asymp], [contains_sympt] and [contains_healthy]. *)
Definition node_flags (l : list Agent.t) : bool * bool * bool :=
  fold_left
    (fun (flags : bool * bool * bool) agent =>
       let lbl := (Agent.get_status agent).1 in
       (if decide (lbl = Asymptomatic) then true else flags.1.1,
        if decide (lbl = Symptomatic) then true else flags.1.2,
        if decide (lbl = Healthy) then true else flags.2))
    l (false, false, false).

(** The colour of a node; [color_map] gives the colour of each of the four
    labels. *)
Definition node_color {C} (color_map : Label -> C) (l : list Agent.t) : C :=
  if (length l =? 0)%nat then color_map Dead
  else
    let flags := node_flags l in
    if flags.1.2 then color_map Symptomatic
    else if flags.1.1 then color_map Asymptomatic
    else if flags.2 then color_map Healthy
    else color_map Dead.

Definition generate_colorations {C} (color_map : Label -> C) (self : t)
  : list C :=
  node_color color_map <$> occupants (lattice self).

(** *** [__generate_labels] *)

(** [num_infected] and [num_dead] after the loop over the occupants. *)
Definition node_counts (l : list Agent.t) : Z * Z :=
  fold_left
    (fun (counts : Z * Z) agent =>
       let lbl := (Agent.get_status agent).1 in
       if decide (lbl ∈ [Asymptomatic; Symptomatic])
       then (counts.1 + 1, counts.2)
       else if decide (lbl ∈ [Dead]) then (counts.1, counts.2 + 1)
       else counts)
    l (0, 0).

(** The label of a node: [Some (a, b)] stands for the text ["a|b"] and
    [None] for the empty text. *)
Definition node_label (l : list Agent.t) : option (Z * Z) :=
  let counts := node_counts l in
  if (0 <? length l)%nat
  then Some (counts.1, Z.of_nat (length l) - counts.1 - counts.2)
  else None.

Definition generate_labels (self : t) : list (option (Z * Z)) :=
  node_label <$> occupants (lattice self).

(** *** [run_simulation] *)

(** The network together with [__plot_points], the series that
    [run_simulation] records for the final graph. *)
Record Simulation := mkSimulation {
  network : t;
  plot_points : gmap Z (list Z)
}.

(** [self.__plot_points[key].append(value)] *)
Definition record_point (key value : Z) (points : gmap Z (list Z))
  : M (gmap Z (list Z)) :=
  l <- dict_get points key ;;
  ret (<[key := l ++ [value]]> points).

(** The value recorded for one entry of [__stats]. *)
Definition plotted (s : Stat) : Z := infected s - dead s.

(** The statements of the loop body after [__timestep()]; the order in
    which the keys of [__stats] are visited is the dictionary's, and each key
    has a series of its own. *)
Definition record_points (self : t) (points : gmap Z (list Z))
  : M (gmap Z (list Z)) :=
  points' <- for_each (map_to_list (stats self))
                      (fun kv => record_point kv.1 (plotted kv.2)) points ;;
  record_point 0 (foldr Z.add 0 (plotted <$> (map_to_list (stats self)).*2))
               points'.

(** [run_simulation] up to the end of its loop, the drawing left out;
    [rounds] bounds the rounds of its loop and [fuel] those of the loops of
    each time step. *)
Fixpoint run_simulation (fuel rounds : nat) (sim : Simulation) : M Simulation :=
  match rounds with
  | O => timeout
  | S rounds' =>
      if time_elapsed (network sim) <? time_steps (network_params (network sim))
      then
        self' <- timestep fuel (network sim) ;;
        points <- record_points self' (plot_points sim) ;;
        run_simulation fuel rounds' (mkSimulation self' points)
      else ret sim
  end.

End Network.

(** ** main.py *)

(** [main]: the network is built, with [__plot_points] empty for the keys 0
    to 4, and the simulation is run. *)
Definition main (fuel rounds : nat) (args : Args) : M Network.Simulation :=
  self <- Network.init fuel args ;;
  Network.run_simulation fuel rounds
    (Network.mkSimulation self
       (list_to_map ((fun i => (i, [])) <$> [0; 1; 2; 3; 4]))).

(** ** Scenarios *)

(** The generator after one value has been consumed. *)
Definition next (g : Globals) : Globals :=
  mkGlobals (stream g) (S (pos g)) (agent_id g).

(** A generator that produces the raw values [l], then zeros. *)
Definition playing (l : list Z) (next_id : Z) : Globals :=
  mkGlobals (fun n => nth n l 0) 0 next_id.

(** [--L 2 --N n --t 10 --n_0 cases --lam 1.0 --asym_l 0 --symp_l 0
     --influx rate] *)
Definition args_2x2 (n rate : R) (cases : Z) : Args :=
  mkArgs 2 n 10 cases 1%R 0 0 rate.

(** An agent of raw age 30 (category 1) created at [node]. *)
Definition adult (ident : Z) (node : nat) : Agent.t :=
  Agent.create ident 30 (SiteId node).

Definition in_state (lbl : Label) (days : Z) (a : Agent.t) : Agent.t :=
  Agent.set_health a (mkHealth lbl days).

(** The 2 x 2 network built for [cases] initial cases, whose nodes hold
    [occ], with [n] live agents, the counters [st] for category 1 and [time]
    steps done. *)
Definition network_2x2 (density rate : R) (cases : Z)
    (occ : list (list Agent.t)) (n : Z) (st : Stat) (time : Z) : Network.t :=
  let self := Network.init_lattice (args_2x2 density rate cases) in
  Network.set_time_elapsed
    (Network.set_num_agents
       (Network.set_stats (Network.set_lattice self occ)
                          (<[1 := st]> (Network.stats self))) n) time.


(** The same with influx rate 1. *)
Definition one_healthy_open : Network.t :=
  network_2x2 (1 / 4) 1 1 [[adult 0 0]; []; []; []] 1 (mkStat 1 1 0 0) 0.

(** One adult on node 0, seeded as the initial case. *)
Definition one_seeded : Network.t :=
  network_2x2 (1 / 4) 0 1 [[in_state Asymptomatic 0 (adult 0 0)]; []; []; []] 1
              (mkStat 1 1 0 1) 0.

(** The same one step later: the agent has turned symptomatic. *)
Definition one_symptomatic : Network.t :=
  network_2x2 (1 / 4) 0 1 [[in_state Symptomatic 1 (adult 0 0)]; []; []; []] 1
              (mkStat 1 1 0 1) 1.

(** The generator of the run that starts at [one_seeded], and the generator
    after [n] more values have been consumed. *)
Definition run_stream : Globals := playing [0; 1; 0; 0; 0; 1] 1.
Definition after (n : nat) (g : Globals) : Globals :=
  mkGlobals (stream g) (n + pos g) (agent_id g).


(** An asymptomatic adult followed by a healthy one, both on node 0. *)
Definition carrier_and_healthy : Network.t :=
  network_2x2 (1 / 2) 0 1
    [[in_state Asymptomatic 0 (adult 0 0); adult 1 0]; []; []; []] 2
    (mkStat 2 2 0 1) 0.

(** No agent at all: the population size [int(4 * 0.1)] is 0. *)
Definition unpopulated : Network.t :=
  Network.init_lattice (args_2x2 (1 / 10) 0 1).



(** The invariant on locations: every occupant of node [i] has the node
    label [i] as its location, and [i] is a node. *)
Definition locations_consistent (self : Network.t) : Prop :=
  forall (i : nat) (l : list Agent.t) (a : Agent.t),
    occupants (Network.lattice self) !! i = Some l -> a ∈ l ->
    Agent.location a = SiteId i /\
    (Z.of_nat i < num_nodes (Network.network_params self)).

(** ** Relations between two states of the network *)

(** What no phase changes: the parameters and the graph. *)
Definition same_settings (a b : Network.t) : Prop :=
  Network.network_params a = Network.network_params b /\
  Network.agent_params a = Network.agent_params b /\
  neighbors (Network.lattice a) = neighbors (Network.lattice b).

(** The network after the occupant [k] of node [s1] has moved to [s2]. *)
Definition moved_to (self : Network.t) (s1 k s2 : nat) (mover : Agent.t)
  : Network.t :=
  let a := Agent.set_location mover (NodeData s2) in
  Network.set_lattice self
    (alter (fun l => l ++ [a]) s2
       (alter (delete k) s1
          (alter (fun l => <[k := a]> l) s1 (occupants (Network.lattice self))))).

(** Two occupancies with the same nodes, where every node has as many
    occupants on both sides and the same last occupant. *)
Definition same_last (occ occ' : list (list Agent.t)) : Prop :=
  length occ = length occ' /\
  forall i l, occ !! i = Some l ->
    exists l', occ' !! i = Some l' /\ length l' = length l /\ last l' = last l.

(** ** Notions used by the further properties *)

(** The agent after [n] successive calls of [update_agent], one for each
    death phase it goes through. *)
Fixpoint updates (n : nat) (self : Agent.t) (asym_len sympt_len : Z) : Agent.t :=
  match n with
  | O => self
  | S n' => updates n' (Agent.update_agent self asym_len sympt_len).2
                    asym_len sympt_len
  end.

(** The stages of the disease, in the order the code goes through them. *)
Definition stage (l : Label) : Z :=
  match l with Healthy => 0 | Asymptomatic => 1 | Symptomatic => 2 | Dead => 3 end.

(** What the death phase makes of an occupant, and whether it reports a
    death. *)
Definition advanced (self : Network.t) (a : Agent.t) : Agent.t :=
  (Agent.update_agent a (asympt_length (Network.agent_params self))
                        (sympt_length (Network.agent_params self))).2.
Definition dies (self : Network.t) (a : Agent.t) : bool :=
  (Agent.update_agent a (asympt_length (Network.agent_params self))
                        (sympt_length (Network.agent_params self))).1.

(** The network with the counters [st] for the category [c]. *)
Definition with_counters (self : Network.t) (c : Z) (st : Stat) : Network.t :=
  Network.set_stats self (<[c := st]> (Network.stats self)).

(** The changes of state the engine is made of.  An infection: a healthy
    occupant becomes asymptomatic on day 0 and the infected counter of its
    category grows by one. *)
Inductive infection_event : Network.t -> Network.t -> Prop :=
| ev_infect self i k l a st :
    occupants (Network.lattice self) !! i = Some l -> l !! k = Some a ->
    label (Agent.health_status a) = Healthy ->
    Network.stats self !! Agent.age a = Some st ->
    infection_event self
      (with_counters
         (Network.store_occupant self i k
            (Agent.set_health a (mkHealth Asymptomatic 0)))
         (Agent.age a) (Network.incr_infected st)).

(** A progression: an occupant is replaced by what [update_agent] makes of
    it; when that is a death, the agent count and the alive counter of its
    category lose one and the dead counter gains one. *)
Inductive progress_event : Network.t -> Network.t -> Prop :=
| ev_advance self i k l a :
    occupants (Network.lattice self) !! i = Some l -> l !! k = Some a ->
    dies self a = false ->
    progress_event self (Network.store_occupant self i k (advanced self a))
| ev_die self i k l a st :
    occupants (Network.lattice self) !! i = Some l -> l !! k = Some a ->
    dies self a = true ->
    Network.stats self !! Agent.age a = Some st ->
    progress_event self
      (with_counters
         (Network.set_num_agents
            (Network.store_occupant self i k (advanced self a))
            (Network.num_agents self - 1))
         (Agent.age a) (Network.incr_dead (Network.decr_alive st))).

(** A move of an occupant that is not symptomatic to another node. *)
Inductive move_event : Network.t -> Network.t -> Prop :=
| ev_move self s1 k s2 l1 l2 mover :
    occupants (Network.lattice self) !! s1 = Some l1 -> l1 !! k = Some mover ->
    occupants (Network.lattice self) !! s2 = Some l2 ->
    label (Agent.health_status mover) <> Symptomatic ->
    move_event self (moved_to self s1 k s2 mover).

(** An arrival: a new agent is appended to a node; the agent count and the
    total and alive counters of its category gain one. *)
Inductive arrival_event : Network.t -> Network.t -> Prop :=
| ev_arrive self s l ident raw st :
    occupants (Network.lattice self) !! s = Some l ->
    Network.stats self !! Agent.age_categorize raw = Some st ->
    arrival_event self
      (with_counters
         (Network.set_num_agents
            (Network.set_lattice self
               (alter (fun l => l ++ [Agent.create ident raw (SiteId s)]) s
                      (occupants (Network.lattice self))))
            (Network.num_agents self + 1))
         (Agent.age_categorize raw)
         (Network.incr_alive (Network.incr_total st))).

(** The shape of one time step: infections, then progressions, then at most
    one move, then at most one arrival, then the clock. *)
Definition step_shape (self self' : Network.t) : Prop :=
  exists s1 s2 s3 s4,
    rtc infection_event self s1 /\ rtc progress_event s1 s2 /\
    (s3 = s2 \/ move_event s2 s3) /\ (s4 = s3 \/ arrival_event s3 s4) /\
    self' = Network.set_time_elapsed s4 (Network.time_elapsed s4 + 1).

(** Every occupant's category has its counters. *)
Definition counted (self : Network.t) : Prop :=
  forall i l a, occupants (Network.lattice self) !! i = Some l -> a ∈ l ->
    is_Some (Network.stats self !! Agent.age a).

(** All the agents of the lattice, as one list. *)
Definition bag (self : Network.t) : list Agent.t :=
  concat (occupants (Network.lattice self)).

(** The number of agents of [l] with the property [P]. *)
Definition tally (P : Agent.t -> Prop) `{!forall a, Decision (P a)}
    (l : list Agent.t) : Z :=
  Z.of_nat (length (filter P l)).

Definition in_category (c : Z) (a : Agent.t) : Prop := Agent.age a = c.
Definition is_dead (a : Agent.t) : Prop :=
  label (Agent.health_status a) = Dead.
Definition is_healthy (a : Agent.t) : Prop :=
  label (Agent.health_status a) = Healthy.

#[global] Instance in_category_dec c a : Decision (in_category c a).
Proof. unfold in_category. apply _. Defined.
#[global] Instance is_dead_dec a : Decision (is_dead a).
Proof. unfold is_dead. apply _. Defined.
#[global] Instance is_healthy_dec a : Decision (is_healthy a).
Proof. unfold is_healthy. apply _. Defined.

(** The counters say what is on the lattice: for each category, [total]
    counts its agents, [dead] the dead ones, [alive] the others, and
    [infected] those that are not healthy; [num_agents] counts the agents
    that are not dead. *)
Definition census (self : Network.t) : Prop :=
  Network.num_agents self = tally (fun a => ~ is_dead a) (bag self) /\
  forall c st, Network.stats self !! c = Some st ->
    total st = tally (in_category c) (bag self) /\
    alive st = tally (fun a => in_category c a /\ ~ is_dead a) (bag self) /\
    dead st = tally (fun a => in_category c a /\ is_dead a) (bag self) /\
    infected st = tally (fun a => in_category c a /\ ~ is_healthy a) (bag self).

(** Every category keeps its counters, and none of [total], [dead] and
    [infected] goes down. *)
Definition counters_grow (st st' : gmap Z Stat) : Prop :=
  forall c s, st !! c = Some s ->
    exists s', st' !! c = Some s' /\
      total s <= total s' /\ dead s <= dead s' /\ infected s <= infected s'.

(** The identifier and the category of every agent. *)
Definition roll (self : Network.t) : list (Z * Z) :=
  (fun a => (Agent.id a, Agent.age a)) <$> bag self.

(** A change that keeps the settings, the nodes, the clock and the roll,
    and lets the counters grow. *)
Definition quiet (self self' : Network.t) : Prop :=
  same_settings self self' /\
  length (occupants (Network.lattice self'))
  = length (occupants (Network.lattice self)) /\
  counters_grow (Network.stats self) (Network.stats self') /\
  roll self' ≡ₚ roll self /\
  Network.time_elapsed self' = Network.time_elapsed self.


(** A network on which no lookup of the engine can fail: there is a node,
    the occupant lists are those of the nodes, neighbours are nodes, the
    four categories have their counters and their mobility coefficient, and
    every agent has one of the four categories. *)
Record well_formed (self : Network.t) : Prop := {
  wf_nodes : 1 <= num_nodes (Network.network_params self);
  wf_length : length (occupants (Network.lattice self))
              = Z.to_nat (num_nodes (Network.network_params self));
  wf_neighbors : forall i j,
    (i < length (occupants (Network.lattice self)))%nat ->
    j ∈ neighbors (Network.lattice self) i ->
    (j < length (occupants (Network.lattice self)))%nat;
  wf_counters : forall c, c ∈ [1; 2; 3; 4] ->
    is_Some (Network.stats self !! c);
  wf_table : forall c, c ∈ [1; 2; 3; 4] ->
    is_Some (beta (Network.agent_params self) !! c);
  wf_ages : forall a, a ∈ bag self -> Agent.age a ∈ [1; 2; 3; 4]
}.

(** Every node has as many occupants in both networks. *)
Definition same_shape (a b : Network.t) : Prop :=
  length <$> occupants (Network.lattice a)
  = length <$> occupants (Network.lattice b).

(** Every node has a neighbour. *)
Definition linked (self : Network.t) : Prop :=
  forall i, (i < length (occupants (Network.lattice self)))%nat ->
    neighbors (Network.lattice self) i <> [].

(** The network after a new agent [a] has been put on node [s] by
    [__populate_lattice], the counters of its category becoming [st]. *)
Definition placed (self : Network.t) (s : nat) (a : Agent.t) (st : Stat)
  : Network.t :=
  with_counters
    (Network.set_num_agents
       (Network.set_lattice self
          (alter (fun l => l ++ [a]) s (occupants (Network.lattice self))))
       (Network.num_agents self + 1))
    (Agent.age a) st.

(** The health status [__populate_lattice] gives the agent it creates in
    round [i], for the chosen [infected_indices]. *)
Definition initial_status (infected_indices : list Z) (i : Z) : HealthStatus :=
  if bool_decide (i ∈ infected_indices) then mkHealth Asymptomatic 0
  else mkHealth Healthy (-1).

(** The label that decides the colour of a node with the occupants [l]:
    the worst of the states of the living, [Dead] when nobody lives there. *)
Definition dominant_label (l : list Agent.t) : Label :=
  if decide (Exists (fun a => label (Agent.health_status a) = Symptomatic) l)
  then Symptomatic
  else if decide (Exists (fun a => label (Agent.health_status a) = Asymptomatic) l)
  then Asymptomatic
  else if decide (Exists is_healthy l) then Healthy
  else Dead.

Definition is_infectious (a : Agent.t) : Prop :=
  label (Agent.health_status a) = Asymptomatic \/
  label (Agent.health_status a) = Symptomatic.

#[global] Instance is_infectious_dec a : Decision (is_infectious a).
Proof. unfold is_infectious. apply _. Defined.

(** ** The scenarios of the further properties *)

(** [--L 1 --N 1.0 --n_0 0]: a single node. *)
Definition args_1x1 : Args := mkArgs 1 1 10 0 1%R 0 0 0.

(** The network built for these arguments: one healthy adult on the node. *)
Definition alone : Network.t :=
  let self := Network.init_lattice args_1x1 in
  Network.set_num_agents
    (Network.set_stats (Network.set_lattice self [[adult 0 0]])
                       (<[1 := mkStat 1 1 0 0]> (Network.stats self))) 1.

(** [--L 2 --N 0.25 --t 1 --n_0 1 --lam 1.0 --asym_l 0 --symp_l 0
     --influx 0]: a run of one step. *)
Definition args_one_step : Args := mkArgs 2 (1 / 4) 1 1 1%R 0 0 0.

(** The network of that run, its agent on node 0 in the state [lbl], [days],
    after [time] steps. *)
Definition short_run (lbl : Label) (days time : Z) : Network.t :=
  let self := Network.init_lattice args_one_step in
  Network.set_time_elapsed
    (Network.set_num_agents
       (Network.set_stats
          (Network.set_lattice self
             [[in_state lbl days (adult 0 0)]; []; []; []])
          (<[1 := mkStat 1 1 0 1]> (Network.stats self))) 1) time.

(** The draws of that run: the index of the initial case, the node and the
    raw age of the agent; then, in the step, the origin, the index of the
    neighbour, the index of the mover and the draw of the influx phase. *)
Definition short_stream : Globals := playing [0; 0; 30; 0; 1; 0; 0] 0.

(** The series at the end of that run. *)
Definition short_points : gmap Z (list Z) :=
  list_to_map [(0, [1]); (1, [1]); (2, [0]); (3, [0]); (4, [0])].

(** The identifiers on the lattice are pairwise distinct and below the
    class counter [Agent.agent_id]. *)
Definition ids_fresh (g : Globals) (self : Network.t) : Prop :=
  NoDup (Agent.id <$> bag self) /\
  forall a, a ∈ bag self -> Agent.id a < agent_id g.

(** A computation that creates no agent: it leaves the class counter as it
    is. *)
Definition keeps_counter {A} (m : M A) : Prop :=
  forall g a g', m g = Ret a g' -> agent_id g' = agent_id g.

(** [--L 2 --N 0.5 --n_0 1 --lam 0]: two agents and no transmission. *)
Definition args_rate_0 : Args := mkArgs 2 (1 / 2) 10 1 0 0 0 0.

(** The network built for these arguments when both agents are put on
    node 0 and the second one is the initial case. *)
Definition rate_0_network : Network.t :=
  let self := Network.init_lattice args_rate_0 in
  Network.set_num_agents
    (Network.set_stats
       (Network.set_lattice self
          [[adult 0 0; in_state Asymptomatic 0 (adult 1 0)]; []; []; []])
       (<[1 := mkStat 2 2 0 1]> (Network.stats self))) 2.
(** ** Properties *)

(** *** Real-number facts about [math.e ** x] *)

Lemma e_pow_exp (x : R) : e_pow x = exp x.
Proof. unfold e_pow, Rpower. rewrite ln_exp. f_equal. lra. Qed.





(** *** The generator *)

(** On a non-empty range [randint] returns a value of the range and
    consumes one raw value. *)
Lemma randint_spec (a b : Z) (g : Globals) :
  a <= b ->
  randint a b g = Ret (a + stream g (pos g) mod (b - a + 1)) (next g) /\
  a <= a + stream g (pos g) mod (b - a + 1) <= b.
Proof.
  intros H. unfold randint.
  destruct (Z.ltb_spec b a); [lia|].
  split; [reflexivity|].
  pose proof (Z.mod_pos_bound (stream g (pos g)) (b - a + 1)). lia.
Qed.

(** Every value of the range is produced by some raw value. *)
Lemma randint_hits (a b d : Z) (g : Globals) :
  a <= d <= b -> stream g (pos g) = d - a -> randint a b g = Ret d (next g).
Proof.
  intros H E. destruct (randint_spec a b g) as [-> _]; [lia|].
  rewrite E, Z.mod_small by lia. f_equal. lia.
Qed.

(** *** Age categories and susceptibility *)


Lemma age_categorize_range (raw : Z) :
  Agent.age_categorize raw ∈ [1; 2; 3; 4].
Proof. unfold Agent.age_categorize. repeat case_match; set_solver. Qed.




(** *** The health state machine *)

(** Membership of a label in one of the literal lists of the code. *)
Ltac label_mem :=
  repeat match goal with
  | H : _ ∈ [] |- _ => apply elem_of_nil in H; destruct H
  | H : _ ∈ _ :: _ |- _ =>
      apply elem_of_cons in H; destruct H as [H | H]; try discriminate H
  | H : _ ∉ _ |- _ => exfalso; apply H; clear H
  | |- _ ∈ _ => by repeat constructor
  | |- _ ∉ _ => intros ?
  end.

(** [update_agent] touches the health status only. *)
Lemma update_agent_keeps_traits (self : Agent.t) (asym_len sympt_len : Z) :
  let a := (Agent.update_agent self asym_len sympt_len).2 in
  Agent.id a = Agent.id self /\ Agent.age a = Agent.age self /\
  Agent.location a = Agent.location self /\
  Agent.susceptibility_factor a = Agent.susceptibility_factor self.
Proof.
  unfold Agent.update_agent.
  repeat (case_decide || case_match); cbn; auto.
Qed.

(** C7.  [update_agent] returns false and changes nothing on a healthy or
    dead agent.  Otherwise it adds one to the day counter; an asymptomatic
    agent becomes symptomatic exactly when the new counter exceeds the
    asymptomatic length, keeping the counter; a symptomatic agent dies
    exactly when the new counter exceeds the sum of both lengths, the
    counter going back to -1; and the result is true exactly when the agent
    has just died. *)
Theorem update_agent_spec (self : Agent.t) (asym_len sympt_len : Z) :
  let h := Agent.health_status self in
  let r := Agent.update_agent self asym_len sympt_len in
  let h' := Agent.health_status r.2 in
  let d := days_infected h + 1 in
  (label h ∈ [Healthy; Dead] -> r = (false, self)) /\
  (label h = Asymptomatic ->
     r.1 = false /\ days_infected h' = d /\
     (label h' = Symptomatic <-> asym_len < d) /\
     (label h' = Asymptomatic <-> d <= asym_len)) /\
  (label h = Symptomatic ->
     (r.1 = true <-> asym_len + sympt_len < d) /\
     (asym_len + sympt_len < d -> h' = mkHealth Dead (-1)) /\
     (d <= asym_len + sympt_len -> h' = mkHealth Symptomatic d)) /\
  (r.1 = true <-> label h <> Dead /\ label h' = Dead).
Proof.
  destruct self as [i [lbl days] c loc s].
  unfold Agent.update_agent. cbn [Agent.health_status label days_infected].
  destruct lbl; repeat case_decide; try done; try (by label_mem);
    try (destruct (Z.ltb_spec asym_len (days + 1)));
    try (destruct (Z.ltb_spec (asym_len + sympt_len) (days + 1)));
    cbn -[Z.add]; repeat split; intros; try done; try lia;
    try (by label_mem); try (f_equal; lia).
  all: destruct_and?; congruence || lia.
Qed.

Lemma update_agent_spec_witness :
  label (Agent.health_status (in_state Symptomatic 1 (adult 0 0))) = Symptomatic /\
  0 + 0 < 1 + 1 /\
  Agent.health_status
    (Agent.update_agent (in_state Symptomatic 1 (adult 0 0)) 0 0).2
  = mkHealth Dead (-1).
Proof.
  split; [reflexivity|]. split; [lia|].
  destruct (update_agent_spec (in_state Symptomatic 1 (adult 0 0)) 0 0)
    as (_ & _ & Hsym & _).
  destruct Hsym as (_ & Hdies & _); [reflexivity|].
  apply Hdies. reflexivity.
Defined.

(** C8.  [expose_to_infection] returns false, changes nothing and draws
    nothing on an asymptomatic, symptomatic or dead agent.  On a healthy
    agent it draws d in 1..100, each of the 100 values being the outcome of
    some raw value, and compares p = d/100 with lambda times the
    susceptibility factor: when p is at most that product the agent becomes
    asymptomatic with day counter 0 and the result is true, otherwise the
    agent is unchanged and the result is false. *)
Theorem expose_to_infection_spec (self : Agent.t) (lam : R) (g : Globals) :
  let h := Agent.health_status self in
  let d := 1 + stream g (pos g) mod 100 in
  let p := (IZR d / 100)%R in
  (label h ∈ [Asymptomatic; Symptomatic; Dead] ->
     Agent.expose_to_infection self lam g = Ret (false, self) g) /\
  (label h = Healthy ->
     1 <= d <= 100 /\
     (forall k, 1 <= k <= 100 -> stream g (pos g) = k - 1 -> d = k) /\
     ((p <= lam * Agent.susceptibility_factor self)%R ->
        Agent.expose_to_infection self lam g =
        Ret (true, Agent.set_health self (mkHealth Asymptomatic 0)) (next g)) /\
     (~ (p <= lam * Agent.susceptibility_factor self)%R ->
        Agent.expose_to_infection self lam g = Ret (false, self) (next g))).
Proof.
  intros h d p. subst h d p. unfold Agent.expose_to_infection.
  split.
  - intros Hin. case_decide as Hn; [by destruct Hn|reflexivity].
  - intros Hh. destruct (randint_spec 1 100 g) as [Hr Hd]; [lia|].
    change (100 - 1 + 1) with 100 in *.
    split; [exact Hd|].
    split; [intros k Hk ->; rewrite Z.mod_small by lia; lia|].
    case_decide as Hn; [|rewrite Hh in Hn; by label_mem].
    unfold bind. rewrite Hr.
    split; intros Hp; destruct (Rle_dec _ _); done.
Qed.

Lemma expose_to_infection_spec_witness :
  label (Agent.health_status (adult 0 0)) = Healthy /\
  Agent.expose_to_infection (adult 0 0) 0 (playing [99] 1)
  = Ret (false, adult 0 0) (next (playing [99] 1)).
Proof.
  split; [reflexivity|].
  destruct (expose_to_infection_spec (adult 0 0) 0 (playing [99] 1))
    as (_ & Hh).
  destruct Hh as (_ & _ & _ & Hno); [reflexivity|].
  apply Hno.
  change (1 + stream (playing [99] 1) (pos (playing [99] 1)) mod 100) with 100.
  lra.
Defined.

(** *** Reasoning about the monad *)

(** A sequence returns only if its first part does. *)
Lemma bind_ret_inv {A B} (m : M A) (k : A -> M B) (g g' : Globals) (b : B) :
  bind m k g = Ret b g' ->
  exists a g1, m g = Ret a g1 /\ k a g1 = Ret b g'.
Proof. unfold bind. destruct (m g); [eauto | done | done]. Qed.

(** Running a sequence whose first part is known to return. *)
Lemma bind_ret_eq {A B} (m : M A) (k : A -> M B) (g g1 : Globals) (a : A) :
  m g = Ret a g1 -> bind m k g = k a g1.
Proof. unfold bind. by intros ->. Qed.

(** Splits a hypothesis that says a computation returns into one
    hypothesis for each of its steps. *)
Ltac monad_inv :=
  repeat match goal with
  | H : bind _ _ _ = Ret _ _ |- _ =>
      apply bind_ret_inv in H; destruct H as (? & ? & ? & H)
  | H : ret _ _ = Ret _ _ |- _ => unfold ret in H
  | H : raise _ _ = Ret _ _ |- _ => discriminate H
  | H : timeout _ = Ret _ _ |- _ => discriminate H
  | H : Ret _ _ = Ret _ _ |- _ => inversion H; subst; clear H
  | H : dict_get _ _ _ = Ret _ _ |- _ => unfold dict_get in H
  | H : list_get _ _ _ = Ret _ _ |- _ => unfold list_get in H
  | H : Network.node_occupants _ _ _ = Ret _ _ |- _ =>
      unfold Network.node_occupants in H
  | H : Network.occupant _ _ _ _ = Ret _ _ |- _ => unfold Network.occupant in H
  | H : (match ?c with _ => _ end) _ = Ret _ _ |- _ => destruct c eqn:?
  end.

(** A property kept by every round of a [for] loop is kept by the loop. *)
Lemma for_each_inv {X S} (P : S -> Prop) (xs : list X) (body : X -> S -> M S) :
  (forall x s g s' g', x ∈ xs -> P s -> body x s g = Ret s' g' -> P s') ->
  forall s g s' g', P s -> for_each xs body s g = Ret s' g' -> P s'.
Proof.
  induction xs as [|x xs IH]; intros Hbody s g s' g' Hs Hrun; cbn in Hrun.
  - monad_inv. done.
  - monad_inv. eapply IH; [| |done].
    + intros; eapply Hbody; [by right|done..].
    + eapply Hbody; [by left|done..].
Qed.

(** No phase changes the parameters or the graph. *)
#[local] Instance same_settings_refl : Reflexive same_settings.
Proof. by intros a. Qed.
#[local] Instance same_settings_trans : Transitive same_settings.
Proof. intros a b c (?&?&?) (?&?&?). repeat split; congruence. Qed.

Lemma bump_stat_settings f key self g self' g' :
  Network.bump_stat f key self g = Ret self' g' ->
  same_settings self self' /\ Network.lattice self' = Network.lattice self /\ g' = g.
Proof. unfold Network.bump_stat. intros H. monad_inv. done. Qed.















(** *** The mobility table and the acceptance of a move *)




(** *** Influx *)

(** What [Agent(node)] returns and consumes. *)
Lemma agent_init_spec (node : Location) (g : Globals) :
  Agent.init node g =
  Ret (Agent.create (agent_id g) (stream g (pos g) mod 83) node)
      (mkGlobals (stream g) (S (pos g)) (agent_id g + 1)).
Proof. reflexivity. Qed.

(** Reading the occupants of a node that exists, and a counter that
    exists. *)
Lemma node_occupants_lookup self i l g :
  occupants (Network.lattice self) !! i = Some l ->
  Network.node_occupants self i g = Ret l g.
Proof. unfold Network.node_occupants. by intros ->. Qed.

Lemma bump_stat_lookup f key self st g :
  Network.stats self !! key = Some st ->
  Network.bump_stat f key self g
  = Ret (Network.set_stats self (<[key := f st]> (Network.stats self))) g.
Proof. unfold Network.bump_stat, dict_get. by intros ->. Qed.

(** Appending an agent whose location is a node label. *)
Lemma append_occupant_spec self agent s l g :
  Agent.location agent = SiteId s ->
  occupants (Network.lattice self) !! s = Some l ->
  Network.append_occupant self agent g
  = Ret (Network.set_lattice self
           (alter (fun l => l ++ [agent]) s (occupants (Network.lattice self)))) g.
Proof.
  intros Hloc Hl. unfold Network.append_occupant, Agent.get_location.
  rewrite Hloc. cbn [Network.node_index].
  unfold bind at 1. unfold ret at 1.
  by rewrite (bind_ret_eq _ _ _ _ _ (node_occupants_lookup _ _ _ _ Hl)).
Qed.

(** The phase does nothing when the draw is not below the rate; with rate 0
    that is every draw. *)
Lemma check_for_influx_skips (self : Network.t) (g : Globals) :
  ~ (IZR (1 + stream g (pos g) mod 100) / 100
     < influx (Network.network_params self))%R ->
  Network.check_for_influx self g = Ret self (next g).
Proof.
  intros Hp. unfold Network.check_for_influx.
  destruct (randint_spec 1 100 g) as [Hr _]; [lia|].
  rewrite (bind_ret_eq _ _ _ _ _ Hr).
  change (100 - 1 + 1) with 100. destruct (Rlt_dec _ _); done.
Qed.

Lemma check_for_influx_rate_0 (self : Network.t) (g : Globals) :
  influx (Network.network_params self) = 0%R ->
  Network.check_for_influx self g = Ret self (next g).
Proof.
  intros H0. apply check_for_influx_skips. rewrite H0.
  destruct (randint_spec 1 100 g) as [_ Hd]; [lia|].
  change (100 - 1 + 1) with 100 in Hd.
  assert (1 <= IZR (1 + stream g (pos g) mod 100))%R by (apply IZR_le; lia).
  lra.
Qed.

(** C9.  [__check_for_influx] draws d in 1..100.  When p = d/100 is strictly
    below the influx rate it adds exactly one healthy agent, created at a
    drawn node, to the end of that node's occupant list, and adds one to the
    agent count and to the total and alive counters of the agent's category;
    otherwise it leaves the network as it is.  With rate 1 the draw 100
    adds nobody. *)
Theorem check_for_influx_spec (self : Network.t) (g : Globals) :
  let np := Network.network_params self in
  let occ := occupants (Network.lattice self) in
  let d := 1 + stream g (pos g) mod 100 in
  let p := (IZR d / 100)%R in
  let s := Z.to_nat (stream g (S (pos g)) mod num_nodes np) in
  let a := Agent.create (agent_id g) (stream g (S (S (pos g))) mod 83) (SiteId s) in
  1 <= num_nodes np ->
  length occ = Z.to_nat (num_nodes np) ->
  (forall c, c ∈ [1; 2; 3; 4] -> is_Some (Network.stats self !! c)) ->
  1 <= d <= 100 /\
  ((p < influx np)%R ->
     exists st self',
       Network.check_for_influx self g
       = Ret self' (mkGlobals (stream g) (3 + pos g) (agent_id g + 1)) /\
       label (Agent.health_status a) = Healthy /\
       (s < length occ)%nat /\
       Network.stats self !! Agent.age a = Some st /\
       occupants (Network.lattice self') = alter (fun l => l ++ [a]) s occ /\
       Network.stats self'
       = <[Agent.age a := mkStat (total st + 1) (alive st + 1) (dead st)
                                 (infected st)]> (Network.stats self) /\
       Network.num_agents self' = Network.num_agents self + 1 /\
       Network.time_elapsed self' = Network.time_elapsed self /\
       same_settings self self') /\
  (~ (p < influx np)%R -> Network.check_for_influx self g = Ret self (next g)) /\
  (influx np = 1%R -> d = 100 ->
     Network.check_for_influx self g = Ret self (next g)).
Proof.
  intros np occ d p s a Hn Hlen Hst.
  destruct (randint_spec 1 100 g) as [Hr Hd]; [lia|].
  change (100 - 1 + 1) with 100 in *. fold d in Hr, Hd.
  assert (Hskip : ~ (p < influx np)%R ->
                  Network.check_for_influx self g = Ret self (next g))
    by apply check_for_influx_skips.
  split; [exact Hd|]. split; [|split; [exact Hskip|]].
  - intros Hp.
    destruct (randint_spec 0 (num_nodes np - 1) (next g)) as [Hr2 Hs]; [lia|].
    replace (num_nodes np - 1 - 0 + 1) with (num_nodes np) in * by lia.
    cbn [next stream pos] in Hr2, Hs. rewrite Z.add_0_l in Hr2, Hs.
    assert (Hlt : (s < length occ)%nat) by (unfold s; lia).
    destruct (lookup_lt_is_Some_2 occ s Hlt) as [l Hl].
    destruct (Hst (Agent.age a)) as [st Hstat]; [apply age_categorize_range|].
    eexists st, _. split.
    { unfold Network.check_for_influx.
      rewrite (bind_ret_eq _ _ _ _ _ Hr). fold p np.
      destruct (Rlt_dec _ _); [|done].
      unfold Network.add_agent. fold np.
      rewrite (bind_ret_eq _ _ _ _ _ Hr2). fold s.
      rewrite (bind_ret_eq _ _ _ _ _ (agent_init_spec _ _)).
      cbn [next stream pos agent_id]. fold a.
      rewrite (bind_ret_eq _ _ _ _ _ (append_occupant_spec _ a s l _ eq_refl Hl)).
      erewrite bind_ret_eq; [|apply bump_stat_lookup; exact Hstat].
      erewrite bump_stat_lookup; [reflexivity|].
      cbn. apply lookup_insert_eq. }
    cbn. split; [done|]. split; [done|]. split; [done|]. split; [done|].
    split; [apply insert_insert_eq|]. done.
  - intros H1 H100. apply Hskip. rewrite H1. unfold p. rewrite H100. lra.
Qed.

Lemma check_for_influx_spec_witness :
  Network.check_for_influx one_healthy_open (playing [99] 1)
  = Ret one_healthy_open (next (playing [99] 1)) /\
  exists self',
    Network.check_for_influx one_healthy_open (playing [0; 2; 30] 1)
    = Ret self' (mkGlobals (stream (playing [0; 2; 30] 1)) 3 2) /\
    occupants (Network.lattice self') = [[adult 0 0]; []; [adult 1 2]; []].
Proof.
  assert (Hn : 1 <= num_nodes (Network.network_params one_healthy_open))
    by (by vm_compute).
  assert (Hst : forall c, c ∈ [1; 2; 3; 4] ->
                  is_Some (Network.stats one_healthy_open !! c)).
  { intros c Hc.
    repeat (apply elem_of_cons in Hc as [-> | Hc];
            [eexists; vm_compute; reflexivity|]).
    by apply elem_of_nil in Hc. }
  split.
  - destruct (check_for_influx_spec one_healthy_open (playing [99] 1)
                Hn eq_refl Hst) as (_ & _ & _ & Hfull).
    apply Hfull; reflexivity.
  - destruct (check_for_influx_spec one_healthy_open (playing [0; 2; 30] 1)
                Hn eq_refl Hst) as (_ & Hadd & _).
    destruct Hadd as (st & self' & Hrun & _ & _ & _ & Hocc & _).
    + change (1 + stream (playing [0; 2; 30] 1) (pos (playing [0; 2; 30] 1))
                mod 100) with 1.
      change (influx (Network.network_params one_healthy_open)) with 1%R.
      lra.
    + exists self'. split; [exact Hrun|]. rewrite Hocc. reflexivity.
Defined.

(** *** Movement on a lattice without agents *)

(** When every node is empty, each round of the first loop of
    [__check_for_movement] finds an empty node and draws again. *)
Lemma find_occupied_unpopulated (fuel : nat) (self : Network.t) (s : nat)
    (g : Globals) :
  1 <= num_nodes (Network.network_params self) ->
  length (occupants (Network.lattice self))
  = Z.to_nat (num_nodes (Network.network_params self)) ->
  Forall (fun l => l = []) (occupants (Network.lattice self)) ->
  (s < length (occupants (Network.lattice self)))%nat ->
  Network.find_occupied fuel self s g = Timeout.
Proof.
  intros Hn Hlen Hempty. revert s g.
  induction fuel as [|fuel IH]; intros s g Hs; [reflexivity|].
  cbn [Network.find_occupied].
  destruct (lookup_lt_is_Some_2 _ _ Hs) as [l Hl].
  rewrite (bind_ret_eq _ _ _ _ _ (node_occupants_lookup _ _ _ _ Hl)).
  rewrite (Forall_lookup_1 _ _ _ _ Hempty Hl). cbn [length Nat.eqb].
  destruct (randint_spec 0 (num_nodes (Network.network_params self) - 1) g)
    as [Hr Hd]; [lia|].
  rewrite (bind_ret_eq _ _ _ _ _ Hr). apply IH. lia.
Qed.

Lemma check_for_movement_unpopulated (fuel : nat) (self : Network.t)
    (g : Globals) :
  1 <= num_nodes (Network.network_params self) ->
  length (occupants (Network.lattice self))
  = Z.to_nat (num_nodes (Network.network_params self)) ->
  Forall (fun l => l = []) (occupants (Network.lattice self)) ->
  Network.check_for_movement fuel self g = Timeout.
Proof.
  intros Hn Hlen Hempty. unfold Network.check_for_movement.
  destruct (randint_spec 0 (num_nodes (Network.network_params self) - 1) g)
    as [Hr Hd]; [lia|].
  rewrite (bind_ret_eq _ _ _ _ _ Hr).
  unfold bind at 1. rewrite find_occupied_unpopulated; try done. lia.
Qed.

(** C5, evaluated on the code.  On the 2 x 2 lattice without any agent the
    infection and death phases return at once, but the movement phase never
    does: whatever the fuel and whatever the generator produces, the loop
    that looks for an occupied node runs out of fuel, and so does the step
    that contains it. *)
Theorem movement_loops_when_unpopulated (fuel : nat) (g : Globals) :
  Forall (fun l => l = []) (occupants (Network.lattice unpopulated)) /\
  Network.check_for_infection unpopulated g = Ret unpopulated g /\
  Network.check_for_death unpopulated g = Ret unpopulated g /\
  Network.check_for_movement fuel unpopulated g = Timeout /\
  Network.timestep fuel unpopulated g = Timeout.
Proof.
  assert (He : Forall (fun l => l = []) (occupants (Network.lattice unpopulated)))
    by (repeat constructor).
  assert (Hm : Network.check_for_movement fuel unpopulated g = Timeout).
  { apply check_for_movement_unpopulated; [by vm_compute|reflexivity|exact He]. }
  split; [exact He|]. split; [reflexivity|]. split; [reflexivity|].
  split; [exact Hm|].
  unfold Network.timestep.
  rewrite (bind_ret_eq _ _ g g unpopulated) by reflexivity.
  rewrite (bind_ret_eq _ _ g g unpopulated) by reflexivity.
  unfold bind at 1. by rewrite Hm.
Qed.

(** *** A movement that is carried out *)

(** Reading an occupant that is there. *)
Lemma occupant_lookup self i k l a g :
  occupants (Network.lattice self) !! i = Some l -> l !! k = Some a ->
  Network.occupant self i k g = Ret a g.
Proof.
  intros Hl Ha. unfold Network.occupant.
  rewrite (bind_ret_eq _ _ _ _ _ (node_occupants_lookup _ _ _ _ Hl)).
  unfold list_get. by rewrite Ha.
Qed.






(** [__timestep] from the results of its four phases. *)
Lemma timestep_steps fuel self g self1 g1 self2 g2 self3 g3 self4 g4 :
  Network.check_for_infection self g = Ret self1 g1 ->
  Network.check_for_death self1 g1 = Ret self2 g2 ->
  Network.check_for_movement fuel self2 g2 = Ret self3 g3 ->
  Network.check_for_influx self3 g3 = Ret self4 g4 ->
  Network.timestep fuel self g
  = Ret (Network.set_time_elapsed self4 (Network.time_elapsed self4 + 1)) g4.
Proof.
  intros H1 H2 H3 H4. unfold Network.timestep.
  rewrite (bind_ret_eq _ _ _ _ _ H1), (bind_ret_eq _ _ _ _ _ H2).
  rewrite (bind_ret_eq _ _ _ _ _ H3), (bind_ret_eq _ _ _ _ _ H4).
  reflexivity.
Qed.

(** The run that starts with one seeded agent: the two first steps. *)
Lemma seeded_first_step (fuel : nat) :
  Network.timestep (S fuel) one_seeded run_stream
  = Ret one_symptomatic (after 4 run_stream).
Proof.
  rewrite (timestep_steps (S fuel) one_seeded run_stream
             one_seeded run_stream
             (Network.set_time_elapsed one_symptomatic 0) run_stream
             (Network.set_time_elapsed one_symptomatic 0) (after 3 run_stream)
             (Network.set_time_elapsed one_symptomatic 0) (after 4 run_stream));
    try reflexivity.
  by apply check_for_influx_rate_0.
Qed.


(** The two methods that do filter on the dead state. *)
Lemma dead_agent_is_inert (self : Agent.t) (lam : R) (asym_len sympt_len : Z)
    (g : Globals) :
  label (Agent.health_status self) = Dead ->
  Agent.expose_to_infection self lam g = Ret (false, self) g /\
  Agent.update_agent self asym_len sympt_len = (false, self).
Proof.
  intros Hd. unfold Agent.expose_to_infection, Agent.update_agent.
  rewrite Hd. split; case_decide; try done; by label_mem.
Qed.


(** The scan of a destination never looks at its last occupant. *)
Lemma scan_symptomatic_skips_last (l : list Agent.t) (a : Agent.t) :
  Network.scan_symptomatic (l ++ [a]) = existsb Agent.get_symptomatic l.
Proof.
  unfold Network.scan_symptomatic. rewrite length_app. cbn [length].
  replace (length l + 1 - 1)%nat with (length l) by lia.
  by rewrite take_app_length.
Qed.


(** *** The infection phase and the last occupant of a node *)

(** [same_last] is a preorder. *)
Lemma same_last_refl occ : same_last occ occ.
Proof. split; [done|]. intros i l Hl. by exists l. Qed.

Lemma same_last_trans occ1 occ2 occ3 :
  same_last occ1 occ2 -> same_last occ2 occ3 -> same_last occ1 occ3.
Proof.
  intros [Hn1 H1] [Hn2 H2]. split; [congruence|].
  intros i l Hl. destruct (H1 i l Hl) as (l' & Hl' & Hlen & Hlast).
  destruct (H2 i l' Hl') as (l'' & Hl'' & Hlen' & Hlast').
  exists l''. repeat split; congruence.
Qed.

(** Writing back an occupant that is not the last one of its node. *)
Lemma store_same_last (occ : list (list Agent.t)) (i k : nat) (a : Agent.t)
    (l : list Agent.t) :
  occ !! i = Some l -> (S k < length l)%nat ->
  same_last occ (alter (fun l => <[k := a]> l) i occ).
Proof.
  intros Hl Hk. split; [by rewrite length_alter|].
  intros j lj Hj. destruct (decide (i = j)) as [<- | Hne].
  - rewrite list_lookup_alter_eq, Hj. simplify_eq. cbn.
    eexists. split; [done|]. rewrite length_insert. split; [done|].
    rewrite !last_lookup, length_insert. apply list_lookup_insert_ne. lia.
  - rewrite list_lookup_alter_ne by done. by exists lj.
Qed.

(** The infection phase only exposes, and so only writes back, occupants
    that are not the last one of their node: in every network and for
    every generator it leaves the last occupant of each node as it was. *)
Lemma expose_occupant_same_last neighbor o_index self g self' g' l :
  occupants (Network.lattice self) !! neighbor = Some l ->
  (S o_index < length l)%nat ->
  Network.expose_occupant neighbor o_index self g = Ret self' g' ->
  same_last (occupants (Network.lattice self))
            (occupants (Network.lattice self')).
Proof.
  intros Hl Hk H. unfold Network.expose_occupant in H. monad_inv.
  - apply bump_stat_settings in H as (_ & -> & _).
    simplify_eq. eapply store_same_last; eauto.
  - simplify_eq. eapply store_same_last; eauto.
Qed.

Lemma expose_node_same_last neighbor self g self' g' :
  Network.expose_node neighbor self g = Ret self' g' ->
  same_last (occupants (Network.lattice self))
            (occupants (Network.lattice self')).
Proof.
  unfold Network.expose_node. intros H. monad_inv.
  revert H.
  apply (for_each_inv
           (fun s => same_last (occupants (Network.lattice self))
                               (occupants (Network.lattice s))));
    [|apply same_last_refl].
  intros k s g1 s' g1' Hin Hs Hbody.
  apply elem_of_seq in Hin.
  destruct Hs as [Hn Hs]. destruct (Hs _ _ Heqo) as (l' & Hl' & Hlen & _).
  eapply same_last_trans; [by split|].
  eapply expose_occupant_same_last; [exact Hl'| |exact Hbody]. lia.
Qed.

Lemma for_each_same_last {X} (xs : list X)
    (body : X -> Network.t -> M Network.t) :
  (forall x s g s' g', body x s g = Ret s' g' ->
     same_last (occupants (Network.lattice s)) (occupants (Network.lattice s'))) ->
  forall s g s' g', for_each xs body s g = Ret s' g' ->
     same_last (occupants (Network.lattice s)) (occupants (Network.lattice s')).
Proof.
  intros Hbody s g s' g'.
  apply (for_each_inv
           (fun s1 => same_last (occupants (Network.lattice s))
                                (occupants (Network.lattice s1))));
    [|apply same_last_refl].
  intros x s1 g1 s2 g2 _ H1 H2.
  eapply same_last_trans; [exact H1|]. by eapply Hbody.
Qed.

Lemma check_for_infection_same_last self g self' g' :
  Network.check_for_infection self g = Ret self' g' ->
  same_last (occupants (Network.lattice self))
            (occupants (Network.lattice self')).
Proof.
  unfold Network.check_for_infection.
  apply for_each_same_last. intros node s g1 s1 g2 H.
  unfold Network.infect_from_node in H. monad_inv. revert H.
  apply for_each_same_last. intros k s2 g3 s3 g4 H.
  unfold Network.spread_from in H. monad_inv; [|apply same_last_refl].
  revert H. apply for_each_same_last. intros; by eapply expose_node_same_last.
Qed.

(** With lambda 1 the draw 1 infects a healthy adult: 0.01 is below
    e^(-0.1). *)
Lemma adult_catches_certain_draw (ident : Z) (node : nat) (g : Globals) :
  stream g (pos g) = 0 ->
  Agent.expose_to_infection (adult ident node) 1 g
  = Ret (true, in_state Asymptomatic 0 (adult ident node)) (next g).
Proof.
  intros Hs. unfold Agent.expose_to_infection.
  case_decide as Hn; [|by label_mem].
  rewrite (bind_ret_eq _ _ _ _ _ (randint_hits 1 100 1 g ltac:(lia) Hs)).
  destruct (Rle_dec _ _) as [|Hp]; [done|]. exfalso. apply Hp.
  cbn [adult Agent.create Agent.susceptibility_factor].
  change (Agent.age_categorize 30) with 1.
  rewrite e_pow_exp, opp_IZR.
  pose proof (exp_ineq1_le (- IZR 1 / 10)). lra.
Qed.

(** C4, evaluated on the code.  Node 0 holds an asymptomatic agent followed
    by a healthy one and lambda is 1.  The infection phase returns the
    network as it was without drawing a single value, so the healthy agent,
    the last occupant of its node, was not exposed; exposed to the draw 1 it
    would have been infected. *)
Theorem last_occupant_not_exposed (g : Globals) :
  let carrier := in_state Asymptomatic 0 (adult 0 0) in
  occupants (Network.lattice carrier_and_healthy)
  = [[carrier; adult 1 0]; []; []; []] /\
  Agent.get_infectious carrier = true /\
  label (Agent.health_status (adult 1 0)) = Healthy /\
  lambda (Network.agent_params carrier_and_healthy) = 1%R /\
  Network.check_for_infection carrier_and_healthy g
  = Ret carrier_and_healthy g /\
  Agent.expose_to_infection (adult 1 0) 1 (playing [] 2)
  = Ret (true, in_state Asymptomatic 0 (adult 1 0)) (next (playing [] 2)).
Proof.
  intros carrier. repeat (split; [reflexivity|]).
  by apply adult_catches_certain_draw.
Qed.

(** *** The mobility table *)



(** ** Further properties *)

(** *** The age table and the course of an infection *)

(** X1.  [__age_categorize] stores 4 for a raw age up to 4, 3 for 5 to 14,
    1 for 15 to 64 and 2 from 65 on, and nothing else: each category is
    given by exactly one of these ranges (the codes are not ordered by
    age). *)
Theorem age_categorize_table (raw : Z) :
  (Agent.age_categorize raw = 4 <-> raw <= 4) /\
  (Agent.age_categorize raw = 3 <-> 5 <= raw <= 14) /\
  (Agent.age_categorize raw = 1 <-> 15 <= raw <= 64) /\
  (Agent.age_categorize raw = 2 <-> 65 <= raw).
Proof.
  unfold Agent.age_categorize.
  destruct (Z.leb_spec raw 4), (Z.leb_spec 5 raw), (Z.leb_spec raw 14),
    (Z.leb_spec 15 raw), (Z.leb_spec raw 64); cbn; lia.
Qed.

Lemma update_agent_status (self : Agent.t) (a s : Z) :
  Agent.health_status (Agent.update_agent self a s).2 =
  match label (Agent.health_status self) with
  | Healthy | Dead => Agent.health_status self
  | Asymptomatic =>
      let d := days_infected (Agent.health_status self) + 1 in
      mkHealth (if a <? d then Symptomatic else Asymptomatic) d
  | Symptomatic =>
      let d := days_infected (Agent.health_status self) + 1 in
      if a + s <? d then mkHealth Dead (-1) else mkHealth Symptomatic d
  end.
Proof.
  destruct self as [i [lbl days] c loc su]. unfold Agent.update_agent.
  cbn [Agent.health_status label days_infected].
  destruct lbl; repeat case_decide; try done; try (by label_mem);
    repeat case_match; done.
Qed.

Lemma updates_status_eq (n : nat) (x y : Agent.t) (a s : Z) :
  Agent.health_status x = Agent.health_status y ->
  Agent.health_status (updates n x a s) = Agent.health_status (updates n y a s).
Proof.
  revert x y. induction n as [|n IH]; intros x y H; [done|].
  cbn. apply IH. by rewrite !update_agent_status, H.
Qed.

(** X2.  The course of an infection under [update_agent], for phase lengths
    [a] and [s] that are not negative: an agent infected on day 0 is
    asymptomatic on the days up to [a], symptomatic from day [a + 1] on, and
    dead from day max(a + 2, a + s + 1) on, the day counter being that day
    until death and -1 afterwards.  So the symptomatic phase lasts at least
    one day, also for [s = 0]. *)
Theorem course_of_infection (n : nat) (self : Agent.t) (a s : Z) :
  0 <= a -> 0 <= s ->
  Agent.health_status self = mkHealth Asymptomatic 0 ->
  let death_day := Z.max (a + 2) (a + s + 1) in
  Agent.health_status (updates n self a s) =
    if decide (Z.of_nat n <= a) then mkHealth Asymptomatic (Z.of_nat n)
    else if decide (Z.of_nat n < death_day) then mkHealth Symptomatic (Z.of_nat n)
    else mkHealth Dead (-1).
Proof.
  intros Ha Hs H0 death_day.
  assert (Hgen : forall m (x : Agent.t),
    Agent.health_status x =
      (if decide (Z.of_nat m <= a) then mkHealth Asymptomatic (Z.of_nat m)
       else if decide (Z.of_nat m < death_day) then mkHealth Symptomatic (Z.of_nat m)
       else mkHealth Dead (-1)) ->
    Agent.health_status (Agent.update_agent x a s).2 =
      (if decide (Z.of_nat (S m) <= a) then mkHealth Asymptomatic (Z.of_nat (S m))
       else if decide (Z.of_nat (S m) < death_day)
            then mkHealth Symptomatic (Z.of_nat (S m))
       else mkHealth Dead (-1))).
  { intros m x Hx. rewrite update_agent_status, Hx. unfold death_day.
    repeat case_decide; cbn; repeat case_match; try (f_equal; lia); lia. }
  assert (Hall : forall m k (x : Agent.t),
    Agent.health_status x =
      (if decide (Z.of_nat m <= a) then mkHealth Asymptomatic (Z.of_nat m)
       else if decide (Z.of_nat m < death_day) then mkHealth Symptomatic (Z.of_nat m)
       else mkHealth Dead (-1)) ->
    Agent.health_status (updates k x a s) =
      (if decide (Z.of_nat (k + m) <= a) then mkHealth Asymptomatic (Z.of_nat (k + m))
       else if decide (Z.of_nat (k + m) < death_day)
            then mkHealth Symptomatic (Z.of_nat (k + m))
       else mkHealth Dead (-1))).
  { intros m k. revert m. induction k as [|k IH]; intros m x Hx; [done|].
    cbn [updates]. rewrite (IH (S m)); [|by apply Hgen].
    by replace (k + S m)%nat with (S k + m)%nat by lia. }
  rewrite (Hall 0%nat n self); [by rewrite Nat.add_0_r|].
  rewrite H0. case_decide; [done|lia].
Qed.

(** *** Loops over a range *)

(** A [for] loop over a range returns when each round does; a property
    that follows the index is carried along. *)
Lemma for_each_seq_ret {S} (P : nat -> S -> Globals -> Prop)
    (body : nat -> S -> M S) (a n : nat) :
  (forall k s g, (a <= k < a + n)%nat -> P k s g ->
     exists s' g', body k s g = Ret s' g' /\ P (Datatypes.S k) s' g') ->
  forall s g, P a s g ->
     exists s' g', for_each (seq a n) body s g = Ret s' g' /\ P (a + n)%nat s' g'.
Proof.
  revert a. induction n as [|n IH]; intros a Hbody s g Hs.
  - exists s, g. by rewrite Nat.add_0_r.
  - destruct (Hbody a s g) as (s1 & g1 & Hrun & H1); [lia|done|].
    destruct (IH (Datatypes.S a)) with (s := s1) (g := g1)
      as (s2 & g2 & Hrun2 & H2); [|done|].
    { intros k s' g' Hk. apply Hbody. lia. }
    exists s2, g2. cbn [seq for_each]. rewrite (bind_ret_eq _ _ _ _ _ Hrun).
    split; [done|]. by replace (a + Datatypes.S n)%nat with (Datatypes.S a + n)%nat by lia.
Qed.

Lemma list_alter_insert_eq {A} (f : A -> A) (l : list A) (i : nat) (x : A) :
  alter f i (<[i := x]> l) = <[i := f x]> l.
Proof.
  revert i. induction l as [|y l IH]; intros [|i]; cbn; f_equal; auto.
Qed.

Lemma insert_map_take_drop {A} (f : A -> A) (l : list A) (k : nat) (x : A) :
  l !! k = Some x ->
  <[k := f x]> (map f (take k l) ++ drop k l)
  = map f (take (S k) l) ++ drop (S k) l.
Proof.
  intros Hk. pose proof (lookup_lt_Some _ _ _ Hk) as Hlt.
  rewrite insert_app_r_alt by (rewrite length_map, length_take; lia).
  rewrite length_map, length_take, Nat.min_l, Nat.sub_diag by lia.
  rewrite (drop_S _ _ _ Hk), (take_S_r _ _ _ Hk). cbn.
  rewrite map_app. cbn. by rewrite <- app_assoc.
Qed.

Lemma lookup_map_take_drop {A} (f : A -> A) (l : list A) (k : nat) :
  (map f (take k l) ++ drop k l) !! k = l !! k.
Proof.
  destruct (decide (k < length l)%nat) as [Hlt|Hge].
  - rewrite lookup_app_r by (rewrite length_map, length_take; lia).
    rewrite length_map, length_take, Nat.min_l, Nat.sub_diag by lia.
    rewrite lookup_drop. f_equal. lia.
  - rewrite (lookup_ge_None_2 l) by lia. apply lookup_ge_None_2.
    rewrite length_app, length_map, length_take, length_drop. lia.
Qed.

Lemma advanced_settings self self' a :
  same_settings self self' -> advanced self' a = advanced self a.
Proof. intros (_ & H & _). unfold advanced. by rewrite H. Qed.

Lemma advanced_age self a : Agent.age (advanced self a) = Agent.age a.
Proof. apply update_agent_keeps_traits. Qed.

Lemma update_occupant_run node k self g l a :
  occupants (Network.lattice self) !! node = Some l -> l !! k = Some a ->
  is_Some (Network.stats self !! Agent.age a) ->
  exists self',
    Network.update_occupant node k self g = Ret self' g /\
    occupants (Network.lattice self')
    = alter (fun l => <[k := advanced self a]> l) node
            (occupants (Network.lattice self)) /\
    same_settings self self' /\
    (forall c, is_Some (Network.stats self !! c) ->
               is_Some (Network.stats self' !! c)).
Proof.
  intros Hl Ha [st Hst]. unfold Network.update_occupant.
  rewrite (bind_ret_eq _ _ _ _ _ (occupant_lookup _ _ _ _ _ _ Hl Ha)).
  fold (advanced self a).
  destruct (Agent.update_agent a _ _).1.
  - unfold Agent.get_age. rewrite advanced_age.
    erewrite bind_ret_eq; [|by apply bump_stat_lookup].
    erewrite bump_stat_lookup; [|cbn; apply lookup_insert_eq].
    eexists. split; [done|]. cbn. split; [done|]. split; [done|].
    intros c Hc. rewrite !lookup_insert. by repeat case_decide.
  - eexists. split; [done|]. done.
Qed.

Lemma update_node_run node self g l :
  occupants (Network.lattice self) !! node = Some l ->
  (forall a, a ∈ l -> is_Some (Network.stats self !! Agent.age a)) ->
  exists self',
    Network.update_node node self g = Ret self' g /\
    occupants (Network.lattice self')
    = <[node := map (advanced self) l]> (occupants (Network.lattice self)) /\
    same_settings self self' /\
    (forall c, is_Some (Network.stats self !! c) ->
               is_Some (Network.stats self' !! c)).
Proof.
  intros Hl Hkeys. unfold Network.update_node.
  rewrite (bind_ret_eq _ _ _ _ _ (node_occupants_lookup _ _ _ _ Hl)).
  pose (P := fun (k : nat) (s : Network.t) (g1 : Globals) =>
    occupants (Network.lattice s)
    = <[node := map (advanced self) (take k l) ++ drop k l]>
        (occupants (Network.lattice self)) /\
    same_settings self s /\ g1 = g /\
    (forall c, is_Some (Network.stats self !! c) ->
               is_Some (Network.stats s !! c))).
  destruct (for_each_seq_ret P (Network.update_occupant node) 0 (length l))
    with (s := self) (g := g) as (s' & g' & Hrun & Hocc & Hset & -> & Hst).
  - intros k s g1 Hk (Hocc & Hset & -> & Hst).
    destruct (lookup_lt_is_Some_2 l k) as [a Ha]; [lia|].
    destruct (update_occupant_run node k s g
                (map (advanced self) (take k l) ++ drop k l) a)
      as (s1 & Hrun & Hocc1 & Hset1 & Hst1).
    + rewrite Hocc. apply list_lookup_insert_eq. by eapply lookup_lt_Some.
    + by rewrite lookup_map_take_drop.
    + apply Hst, Hkeys. by eapply list_elem_of_lookup_2.
    + exists s1, g. split; [done|]. split; [|split; [by etrans|split; [done|auto]]].
      rewrite Hocc1, Hocc, list_alter_insert_eq.
      by rewrite (advanced_settings _ _ _ Hset), (insert_map_take_drop _ _ _ _ Ha).
  - split; [|done]. cbn. by rewrite list_insert_id.
  - exists s'. split; [done|]. split; [|done].
    by rewrite Hocc, Nat.add_0_l, firstn_all, drop_all, app_nil_r.
Qed.

(** X6.  When every occupant's category has its counters, the death phase
    returns, draws no random value, and has applied [update_agent] exactly
    once to every occupant of every node, the last one of each node
    included; the parameters and the graph are as before. *)
Theorem death_phase_advances_everyone (self : Network.t) (g : Globals) :
  counted self ->
  exists self',
    Network.check_for_death self g = Ret self' g /\
    occupants (Network.lattice self')
    = map (map (advanced self)) (occupants (Network.lattice self)) /\
    same_settings self self'.
Proof.
  intros Hkeys. unfold Network.check_for_death, Network.all_nodes.
  set (occ := occupants (Network.lattice self)) in *.
  pose (P := fun (i : nat) (s : Network.t) (g1 : Globals) =>
    occupants (Network.lattice s)
    = map (map (advanced self)) (take i occ) ++ drop i occ /\
    same_settings self s /\ g1 = g /\
    (forall c, is_Some (Network.stats self !! c) ->
               is_Some (Network.stats s !! c))).
  destruct (for_each_seq_ret P Network.update_node 0 (length occ))
    with (s := self) (g := g) as (s' & g' & Hrun & Hocc & Hset & -> & Hst).
  - intros i s g1 Hi (Hocc & Hset & -> & Hst).
    destruct (lookup_lt_is_Some_2 occ i) as [l Hl]; [lia|].
    destruct (update_node_run i s g l) as (s1 & Hrun & Hocc1 & Hset1 & Hst1).
    + by rewrite Hocc, lookup_map_take_drop.
    + intros a Ha. apply Hst. by eapply Hkeys.
    + exists s1, g. split; [done|]. split; [|split; [by etrans|split; [done|auto]]].
      rewrite Hocc1, Hocc.
      rewrite (map_ext _ _ (fun a => advanced_settings _ _ a Hset)).
      apply (insert_map_take_drop (map (advanced self)) occ i l Hl).
  - done.
  - exists s'. split; [done|]. split; [|done].
    by rewrite Hocc, Nat.add_0_l, firstn_all, drop_all, app_nil_r.
Qed.

(** *** The events a time step is made of *)

Lemma store_occupant_same self i k l a :
  occupants (Network.lattice self) !! i = Some l -> l !! k = Some a ->
  Network.store_occupant self i k a = self.
Proof.
  destruct self as [np ap t n st [nb occ]]. cbn. intros Hl Ha.
  unfold Network.store_occupant, Network.set_lattice. cbn.
  do 2 f_equal. apply list_eq. intros j.
  rewrite list_lookup_alter. case_decide; [subst|done].
  rewrite Hl. cbn. by rewrite list_insert_id.
Qed.

Lemma expose_cases a lam g r g' :
  Agent.expose_to_infection a lam g = Ret r g' ->
  r = (false, a) \/
  (label (Agent.health_status a) = Healthy /\
   r = (true, Agent.set_health a (mkHealth Asymptomatic 0))).
Proof.
  unfold Agent.expose_to_infection. intros H.
  case_decide as Hl; monad_inv; auto.
  right. split; [|done].
  destruct (label (Agent.health_status a)); try done; exfalso; apply Hl;
    repeat constructor.
Qed.

Lemma move_agent_cases a n1 n2 target table g r g' :
  Agent.move_agent a n1 n2 target table g = Ret r g' ->
  r = (false, a) \/
  (label (Agent.health_status a) <> Symptomatic /\
   r = (true, Agent.set_location a target)).
Proof.
  unfold Agent.move_agent. intros H. case_decide; monad_inv; auto.
Qed.

Lemma bump_stat_inv f key self g self' g' :
  Network.bump_stat f key self g = Ret self' g' ->
  exists st, Network.stats self !! key = Some st /\
    self' = with_counters self key (f st) /\ g' = g.
Proof. unfold Network.bump_stat. intros H. monad_inv. eauto. Qed.

Lemma expose_occupant_events neighbor k self g self' g' :
  Network.expose_occupant neighbor k self g = Ret self' g' ->
  rtc infection_event self self'.
Proof.
  unfold Network.expose_occupant. intros H. monad_inv.
  - apply bump_stat_inv in H as (st & Hst & -> & _).
    match goal with H : Agent.expose_to_infection _ _ _ = _ |- _ =>
      apply expose_cases in H as [-> | [Hh ->]] end; [done|].
    apply rtc_once. cbn [fst snd] in *.
    match goal with H : _ !! k = Some ?a |- _ =>
      by eapply (ev_infect _ _ _ _ a) end.
  - match goal with H : Agent.expose_to_infection _ _ _ = _ |- _ =>
      apply expose_cases in H as [-> | [Hh ->]] end; [|done].
    cbn. by erewrite store_occupant_same.
Qed.

Lemma for_each_events {X} (event : relation Network.t) (xs : list X)
    (body : X -> Network.t -> M Network.t) :
  (forall x s g s' g', body x s g = Ret s' g' -> rtc event s s') ->
  forall s g s' g', for_each xs body s g = Ret s' g' -> rtc event s s'.
Proof.
  intros Hbody s g s' g'.
  apply (for_each_inv (rtc event s)); [|done].
  intros x s1 g1 s2 g2 _ H1 H2. etrans; [exact H1|]. by eapply Hbody.
Qed.

Lemma check_for_infection_events self g self' g' :
  Network.check_for_infection self g = Ret self' g' ->
  rtc infection_event self self'.
Proof.
  unfold Network.check_for_infection.
  apply for_each_events. intros node s g1 s1 g2 H.
  unfold Network.infect_from_node in H. monad_inv. revert H.
  apply for_each_events. intros k s2 g3 s3 g4 H.
  unfold Network.spread_from in H. monad_inv; [|done].
  revert H. apply for_each_events. intros nb s4 g5 s5 g6 H.
  unfold Network.expose_node in H. monad_inv. revert H.
  apply for_each_events. intros; by eapply expose_occupant_events.
Qed.

Lemma with_counters_twice self c s1 s2 :
  with_counters (with_counters self c s1) c s2 = with_counters self c s2.
Proof.
  unfold with_counters, Network.set_stats. cbn. by rewrite insert_insert_eq.
Qed.

Lemma update_agent_age a x y : Agent.age (Agent.update_agent a x y).2 = Agent.age a.
Proof. apply update_agent_keeps_traits. Qed.

Lemma update_occupant_events node k self g self' g' :
  Network.update_occupant node k self g = Ret self' g' ->
  rtc progress_event self self'.
Proof.
  unfold Network.update_occupant. intros H. monad_inv.
  - unfold Agent.get_age in *. rewrite update_agent_age in *.
    apply bump_stat_inv in H as (st2 & Hst2 & -> & _).
    match goal with H : Network.bump_stat _ _ _ _ = _ |- _ =>
      apply bump_stat_inv in H as (st1 & Hst1 & -> & _) end.
    cbn in Hst2. rewrite lookup_insert_eq in Hst2. simplify_eq.
    rewrite with_counters_twice. apply rtc_once.
    change (Network.num_agents (Network.store_occupant self node k _))
      with (Network.num_agents self).
    match goal with H : _ !! k = Some ?a |- _ =>
      by eapply (ev_die _ _ _ _ a) end.
  - apply rtc_once.
    match goal with H : _ !! k = Some ?a |- _ =>
      by eapply (ev_advance _ _ _ _ a) end.
Qed.

Lemma check_for_death_events self g self' g' :
  Network.check_for_death self g = Ret self' g' ->
  rtc progress_event self self'.
Proof.
  unfold Network.check_for_death.
  apply for_each_events. intros node s g1 s1 g2 H.
  unfold Network.update_node in H. monad_inv. revert H.
  apply for_each_events. intros; by eapply update_occupant_events.
Qed.

Lemma attempt_move_events self s1 s2 g self' g' :
  Network.attempt_move self s1 s2 g = Ret self' g' ->
  self' = self \/ move_event self self'.
Proof.
  unfold Network.attempt_move. intros H. monad_inv.
  - match goal with H : Agent.move_agent _ _ _ _ _ _ = _ |- _ =>
      apply move_agent_cases in H as [-> | [Hl ->]] end; [done|].
    right. cbn [fst snd] in *. unfold Network.pop_append in H. monad_inv.
    cbn in *.
    repeat match goal with
    | H : alter _ _ _ !! _ = Some _ |- _ =>
        rewrite list_lookup_alter_eq in H
    | H : _ <$> ?o = Some _, H' : ?o = Some _ |- _ =>
        rewrite H' in H; cbn in H
    | H : Some _ = Some _ |- _ => injection H as <-
    end.
    match goal with H : <[_:=_]> _ !! _ = Some _ |- _ =>
      rewrite list_lookup_insert_eq in H by (by eapply lookup_lt_Some);
      injection H as <- end.
    match goal with Hm : _ !! ?k = Some ?m |- _ =>
      change (move_event self (moved_to self s1 k s2 m)) end.
    by eapply ev_move.
  - match goal with H : Agent.move_agent _ _ _ _ _ _ = _ |- _ =>
      apply move_agent_cases in H as [-> | [Hl ->]] end; [|done].
    left. cbn. by erewrite store_occupant_same.
Qed.

Lemma check_for_movement_events fuel self g self' g' :
  Network.check_for_movement fuel self g = Ret self' g' ->
  self' = self \/ move_event self self'.
Proof.
  unfold Network.check_for_movement. intros H. monad_inv; [|by left].
  by eapply attempt_move_events.
Qed.

Lemma check_for_influx_events self g self' g' :
  Network.check_for_influx self g = Ret self' g' ->
  self' = self \/ arrival_event self self'.
Proof.
  unfold Network.check_for_influx. intros H. monad_inv; [|by left].
  right.
  unfold Network.add_agent in H. monad_inv.
  match goal with H : Agent.init _ _ = _ |- _ =>
    rewrite agent_init_spec in H; injection H as <- <- end.
  apply bump_stat_inv in H as (st2 & Hst2 & -> & _).
  match goal with H : Network.bump_stat _ _ _ _ = _ |- _ =>
    apply bump_stat_inv in H as (st1 & Hst1 & -> & _) end.
  cbn in Hst2. rewrite lookup_insert_eq in Hst2. simplify_eq.
  rewrite with_counters_twice.
  match goal with H : Network.append_occupant _ _ _ = _ |- _ =>
    unfold Network.append_occupant in H; cbn in H; monad_inv end.
  change (Network.num_agents (Network.set_lattice self _))
    with (Network.num_agents self).
  unfold Agent.get_age in *. cbn [Agent.create Agent.age] in *.
  by eapply ev_arrive.
Qed.

Lemma timestep_shape fuel self g self' g' :
  Network.timestep fuel self g = Ret self' g' -> step_shape self self'.
Proof.
  unfold Network.timestep. intros H. monad_inv.
  repeat match goal with
  | H : Network.check_for_infection _ _ = _ |- _ =>
      apply check_for_infection_events in H
  | H : Network.check_for_death _ _ = _ |- _ =>
      apply check_for_death_events in H
  | H : Network.check_for_movement _ _ _ = _ |- _ =>
      apply check_for_movement_events in H
  | H : Network.check_for_influx _ _ = _ |- _ =>
      apply check_for_influx_events in H
  end.
  by eexists _, _, _, _.
Qed.

(** *** The bag of agents *)

Lemma concat_alter {A} (f : list A -> list A) (occ : list (list A)) i l :
  occ !! i = Some l ->
  concat (alter f i occ)
  = concat (take i occ) ++ f l ++ concat (drop (S i) occ) /\
  concat occ = concat (take i occ) ++ l ++ concat (drop (S i) occ).
Proof.
  intros Hl. pose proof (lookup_lt_Some _ _ _ Hl) as Hlt.
  rewrite <- (take_drop_middle occ i l Hl) at 1 4.
  rewrite alter_app_r_alt by (rewrite length_take; lia).
  rewrite length_take, Nat.min_l, Nat.sub_diag by lia. cbn.
  by rewrite !concat_app.
Qed.

Lemma perm_extract {A} (p t w z : list A) (a : A) :
  p ++ (t ++ a :: w) ++ z ≡ₚ a :: p ++ (t ++ w) ++ z.
Proof.
  rewrite <- !app_assoc. cbn. rewrite (app_assoc p t).
  rewrite <- Permutation_middle. by rewrite <- app_assoc.
Qed.

(** Replacing one occupant replaces it in the bag. *)
Lemma bag_replace (occ : list (list Agent.t)) i k l a :
  occ !! i = Some l -> l !! k = Some a ->
  exists rest, concat occ ≡ₚ a :: rest /\
    forall a', concat (alter (fun l => <[k := a']> l) i occ) ≡ₚ a' :: rest.
Proof.
  intros Hl Ha.
  exists (concat (take i occ) ++ (take k l ++ drop (S k) l)
          ++ concat (drop (S i) occ)).
  split.
  - rewrite (proj2 (concat_alter (fun l => l) occ i l Hl)).
    rewrite <- (take_drop_middle l k a Ha) at 1. apply perm_extract.
  - intros a'. rewrite (proj1 (concat_alter _ occ i l Hl)).
    rewrite <- (take_drop_middle l k a Ha) at 1.
    rewrite insert_app_r_alt by (rewrite length_take; lia).
    rewrite length_take, Nat.min_l, Nat.sub_diag
      by (apply lookup_lt_Some in Ha; lia).
    cbn. apply perm_extract.
Qed.

Lemma bag_append (occ : list (list Agent.t)) i l a :
  occ !! i = Some l ->
  concat (alter (fun l => l ++ [a]) i occ) ≡ₚ a :: concat occ.
Proof.
  intros Hl. destruct (concat_alter (fun l => l ++ [a]) occ i l Hl) as [-> ->].
  rewrite <- (app_nil_r [a]), <- (app_nil_l (l ++ [a] ++ [])).
  change ([a] ++ []) with (a :: []).
  rewrite (perm_extract (concat (take i occ)) l [] _ a).
  by rewrite app_nil_r.
Qed.

Lemma bag_delete (occ : list (list Agent.t)) i k l a :
  occ !! i = Some l -> l !! k = Some a ->
  a :: concat (alter (delete k) i occ) ≡ₚ concat occ.
Proof.
  intros Hl Ha. destruct (concat_alter (delete k) occ i l Hl) as [-> ->].
  rewrite <- (take_drop_middle l k a Ha) at 2.
  rewrite delete_take_drop. symmetry. apply perm_extract.
Qed.

Lemma tally_cons (P : Agent.t -> Prop) `{!forall a, Decision (P a)} a l :
  tally P (a :: l) = (if decide (P a) then 1 else 0) + tally P l.
Proof.
  unfold tally. rewrite filter_cons. case_decide; cbn [length]; lia.
Qed.

Lemma tally_perm (P : Agent.t -> Prop) `{!forall a, Decision (P a)} l l' :
  l ≡ₚ l' -> tally P l = tally P l'.
Proof. intros Hp. unfold tally. by rewrite Hp. Qed.

(** What an event does to the bag and to the counters. *)
Lemma infection_event_view self self' :
  infection_event self self' ->
  exists a rest st,
    bag self ≡ₚ a :: rest /\
    bag self' ≡ₚ Agent.set_health a (mkHealth Asymptomatic 0) :: rest /\
    is_healthy a /\ Network.stats self !! Agent.age a = Some st /\
    Network.stats self' = <[Agent.age a := Network.incr_infected st]>
                            (Network.stats self) /\
    Network.num_agents self' = Network.num_agents self /\
    Network.time_elapsed self' = Network.time_elapsed self /\
    same_settings self self'.
Proof.
  intros [s i k l a st Hl Ha Hh Hst].
  destruct (bag_replace _ i k l a Hl Ha) as (rest & H1 & H2).
  exists a, rest, st. repeat split; try done. apply H2.
Qed.

Lemma progress_event_view self self' :
  progress_event self self' ->
  exists a rest,
    bag self ≡ₚ a :: rest /\ bag self' ≡ₚ advanced self a :: rest /\
    ((dies self a = false /\ Network.stats self' = Network.stats self /\
      Network.num_agents self' = Network.num_agents self) \/
     (dies self a = true /\ exists st,
        Network.stats self !! Agent.age a = Some st /\
        Network.stats self' = <[Agent.age a := Network.incr_dead (Network.decr_alive st)]>
                                (Network.stats self) /\
        Network.num_agents self' = Network.num_agents self - 1)) /\
    Network.time_elapsed self' = Network.time_elapsed self /\
    same_settings self self'.
Proof.
  intros [s i k l a Hl Ha Hd | s i k l a st Hl Ha Hd Hst];
    destruct (bag_replace _ i k l a Hl Ha) as (rest & H1 & H2);
    exists a, rest; (split; [done|]); (split; [apply H2|]).
  - split; [left; done|done].
  - split; [right; split; [done|]; by exists st|done].
Qed.

Lemma move_event_view self self' :
  move_event self self' ->
  exists a rest target,
    bag self ≡ₚ a :: rest /\ bag self' ≡ₚ Agent.set_location a target :: rest /\
    ~ label (Agent.health_status a) = Symptomatic /\
    Network.stats self' = Network.stats self /\
    Network.num_agents self' = Network.num_agents self /\
    Network.time_elapsed self' = Network.time_elapsed self /\
    same_settings self self'.
Proof.
  intros [s s1 k s2 l1 l2 a Hl1 Ha Hl2 Hs].
  destruct (bag_replace _ s1 k l1 a Hl1 Ha) as (rest & H1 & H2).
  exists a, rest, (NodeData s2). split; [done|].
  split; [|done].
  set (a' := Agent.set_location a (NodeData s2)).
  set (occ1 := alter (fun l => <[k := a']> l) s1 (occupants (Network.lattice s))).
  assert (Hocc1 : occ1 !! s1 = Some (<[k := a']> l1))
    by (unfold occ1; by rewrite list_lookup_alter_eq, Hl1).
  assert (Ha' : <[k := a']> l1 !! k = Some a')
    by (apply list_lookup_insert_eq; by eapply lookup_lt_Some).
  pose proof (bag_delete occ1 s1 k _ a' Hocc1 Ha') as Hdel.
  destruct (lookup_lt_is_Some_2 (alter (delete k) s1 occ1) s2) as [l2' Hl2'].
  { unfold occ1. rewrite !length_alter. by eapply lookup_lt_Some. }
  unfold bag, moved_to. cbn. fold a' occ1.
  rewrite (bag_append _ s2 l2' a' Hl2'), Hdel. apply H2.
Qed.

Lemma arrival_event_view self self' :
  arrival_event self self' ->
  exists ident raw s st,
    bag self' ≡ₚ Agent.create ident raw (SiteId s) :: bag self /\
    Network.stats self !! Agent.age_categorize raw = Some st /\
    Network.stats self'
    = <[Agent.age_categorize raw := Network.incr_alive (Network.incr_total st)]>
        (Network.stats self) /\
    Network.num_agents self' = Network.num_agents self + 1 /\
    Network.time_elapsed self' = Network.time_elapsed self /\
    same_settings self self'.
Proof.
  intros [s i l ident raw st Hl Hst].
  exists ident, raw, i, st. split; [|done].
  unfold bag. cbn. by eapply bag_append.
Qed.

(** *** The counters and the lattice *)

Lemma advanced_facts self a :
  Agent.age (advanced self a) = Agent.age a /\
  Agent.id (advanced self a) = Agent.id a /\
  (dies self a = false ->
     (is_dead (advanced self a) <-> is_dead a) /\
     (is_healthy (advanced self a) <-> is_healthy a)) /\
  (dies self a = true ->
     ~ is_dead a /\ is_dead (advanced self a) /\
     ~ is_healthy a /\ ~ is_healthy (advanced self a)).
Proof.
  unfold advanced, dies, is_dead, is_healthy.
  destruct a as [i [lbl days] c loc su]. unfold Agent.update_agent.
  cbn [Agent.health_status label days_infected].
  destruct lbl; repeat case_decide; try done; try (by label_mem);
    repeat case_match; cbn; repeat split; intros; try done.
Qed.

(** Deciding the cases of the tallies of two bags that differ by one
    agent. *)
Ltac tally_cases :=
  repeat case_decide; try lia; exfalso;
  unfold in_category, is_dead, is_healthy in *;
  cbn [Agent.age Agent.health_status Agent.set_health Agent.set_location
       Agent.create label] in *;
  repeat match goal with
  | H : Agent.age (advanced _ _) = _ |- _ => rewrite H in *; clear H
  end;
  first [tauto | intuition congruence].

Lemma infection_keeps_census self self' :
  infection_event self self' -> census self -> census self'.
Proof.
  intros (a & rest & st & Hb & Hb' & Hh & Hst & Hst' & Hn & _)%infection_event_view
    [Hnum Hall].
  split.
  - rewrite Hn, Hnum, (tally_perm _ _ _ Hb), (tally_perm _ _ _ Hb'), !tally_cons.
    tally_cases.
  - intros c st1 Hc. rewrite Hst', lookup_insert in Hc.
    case_decide as Hk.
    + subst c. injection Hc as <-. specialize (Hall _ _ Hst). cbn.
      destruct Hall as (-> & -> & -> & ->).
      rewrite !(tally_perm _ _ _ Hb), !(tally_perm _ _ _ Hb'), !tally_cons.
      repeat split; tally_cases.
    + specialize (Hall _ _ Hc). destruct Hall as (-> & -> & -> & ->).
      rewrite !(tally_perm _ _ _ Hb), !(tally_perm _ _ _ Hb'), !tally_cons.
      repeat split; tally_cases.
Qed.

Lemma progress_keeps_census self self' :
  progress_event self self' -> census self -> census self'.
Proof.
  intros (a & rest & Hb & Hb' & Hcase & _)%progress_event_view [Hnum Hall].
  destruct (advanced_facts self a) as (Hage & _ & Hstay & Hdie).
  destruct Hcase as [(Hd & Hst' & Hn) | (Hd & st & Hst & Hst' & Hn)].
  - destruct (Hstay Hd) as [Hdead Hhealthy]. clear Hstay Hdie. split.
    + rewrite Hn, Hnum, (tally_perm _ _ _ Hb), (tally_perm _ _ _ Hb'), !tally_cons.
      tally_cases.
    + intros c st1 Hc. rewrite Hst' in Hc.
      specialize (Hall _ _ Hc). destruct Hall as (-> & -> & -> & ->).
      rewrite !(tally_perm _ _ _ Hb), !(tally_perm _ _ _ Hb'), !tally_cons.
      repeat split; tally_cases.
  - destruct (Hdie Hd) as (Hd1 & Hd2 & Hh1 & Hh2). clear Hstay Hdie. split.
    + rewrite Hn, Hnum, (tally_perm _ _ _ Hb), (tally_perm _ _ _ Hb'), !tally_cons.
      tally_cases.
    + intros c st1 Hc. rewrite Hst', lookup_insert in Hc.
      case_decide as Hk.
      * subst c. injection Hc as <-. specialize (Hall _ _ Hst). cbn.
        destruct Hall as (-> & -> & -> & ->).
        rewrite !(tally_perm _ _ _ Hb), !(tally_perm _ _ _ Hb'), !tally_cons.
        repeat split; tally_cases.
      * specialize (Hall _ _ Hc). destruct Hall as (-> & -> & -> & ->).
        rewrite !(tally_perm _ _ _ Hb), !(tally_perm _ _ _ Hb'), !tally_cons.
        repeat split; tally_cases.
Qed.

Lemma move_keeps_census self self' :
  move_event self self' -> census self -> census self'.
Proof.
  intros (a & rest & target & Hb & Hb' & _ & Hst' & Hn & _)%move_event_view
    [Hnum Hall].
  split.
  - rewrite Hn, Hnum, (tally_perm _ _ _ Hb), (tally_perm _ _ _ Hb'), !tally_cons.
    tally_cases.
  - intros c st1 Hc. rewrite Hst' in Hc.
    specialize (Hall _ _ Hc). destruct Hall as (-> & -> & -> & ->).
    rewrite !(tally_perm _ _ _ Hb), !(tally_perm _ _ _ Hb'), !tally_cons.
    repeat split; tally_cases.
Qed.

Lemma arrival_keeps_census self self' :
  arrival_event self self' -> census self -> census self'.
Proof.
  intros (ident & raw & s & st & Hb' & Hst & Hst' & Hn & _)%arrival_event_view
    [Hnum Hall].
  split.
  - rewrite Hn, Hnum, (tally_perm _ _ _ Hb'), !tally_cons. tally_cases.
  - intros c st1 Hc. rewrite Hst', lookup_insert in Hc.
    case_decide as Hk.
    + subst c. injection Hc as <-. specialize (Hall _ _ Hst). cbn.
      destruct Hall as (-> & -> & -> & ->).
      rewrite !(tally_perm _ _ _ Hb'), !tally_cons.
      repeat split; tally_cases.
    + specialize (Hall _ _ Hc). destruct Hall as (-> & -> & -> & ->).
      rewrite !(tally_perm _ _ _ Hb'), !tally_cons.
      repeat split; tally_cases.
Qed.

Lemma rtc_keeps {A} (R : relation A) (P : A -> Prop) :
  (forall x y, R x y -> P x -> P y) -> forall x y, rtc R x y -> P x -> P y.
Proof. intros HR x y H. induction H; eauto. Qed.

Lemma step_shape_keeps_census self self' :
  step_shape self self' -> census self -> census self'.
Proof.
  intros (s1 & s2 & s3 & s4 & H1 & H2 & H3 & H4 & ->) Hc.
  apply (rtc_keeps _ census infection_keeps_census _ _ H1) in Hc.
  apply (rtc_keeps _ census progress_keeps_census _ _ H2) in Hc.
  assert (census s3) as Hc3
    by (destruct H3 as [-> | H3]; [done|by eapply move_keeps_census]).
  assert (census s4) as Hc4
    by (destruct H4 as [-> | H4]; [done|by eapply arrival_keeps_census]).
  exact Hc4.
Qed.

(** X8.  A time step keeps the counters in agreement with the lattice: if
    before it, for each category, [total] counts the agents of the
    category, [dead] the dead ones, [alive] the others and [infected] those
    that are not healthy, and [num_agents] counts the living agents, then
    the same holds after it. *)
Theorem timestep_keeps_census fuel self g self' g' :
  census self ->
  Network.timestep fuel self g = Ret self' g' -> census self'.
Proof.
  intros Hc H. eapply step_shape_keeps_census; [|done].
  by eapply timestep_shape.
Qed.

(** *** What a time step leaves alone *)

Lemma counters_grow_refl st : counters_grow st st.
Proof. intros c s Hc. exists s. split; [done|lia]. Qed.

Lemma counters_grow_trans st1 st2 st3 :
  counters_grow st1 st2 -> counters_grow st2 st3 -> counters_grow st1 st3.
Proof.
  intros H1 H2 c s Hc. destruct (H1 c s Hc) as (s' & Hc' & ?).
  destruct (H2 c s' Hc') as (s'' & Hc'' & ?). exists s''. split; [done|lia].
Qed.

Lemma counters_grow_insert st c s s' :
  st !! c = Some s ->
  total s <= total s' -> dead s <= dead s' -> infected s <= infected s' ->
  counters_grow st (<[c := s']> st).
Proof.
  intros Hc ? ? ? c1 s1 Hc1. rewrite lookup_insert. case_decide.
  - subst. simplify_eq. exists s'. split; [done|lia].
  - exists s1. split; [done|lia].
Qed.

Lemma roll_swap self self' a a' rest :
  bag self ≡ₚ a :: rest -> bag self' ≡ₚ a' :: rest ->
  Agent.id a' = Agent.id a -> Agent.age a' = Agent.age a ->
  roll self' ≡ₚ roll self.
Proof.
  intros Hb Hb' Hid Hage. unfold roll. rewrite Hb, Hb'. cbn.
  by rewrite Hid, Hage.
Qed.

Lemma quiet_refl self : quiet self self.
Proof. repeat split; try done. apply counters_grow_refl. Qed.

Lemma quiet_trans s1 s2 s3 : quiet s1 s2 -> quiet s2 s3 -> quiet s1 s3.
Proof.
  intros (Ha & Hb & Hc & Hd & He) (Ha' & Hb' & Hc' & Hd' & He').
  split; [by etrans|]. split; [congruence|].
  split; [by eapply counters_grow_trans|]. split; [by etrans|congruence].
Qed.

Lemma rtc_quiet (R : relation Network.t) :
  (forall x y, R x y -> quiet x y) -> forall x y, rtc R x y -> quiet x y.
Proof.
  intros HR x y H. induction H as [|x y z Hxy _ IH]; [apply quiet_refl|].
  eapply quiet_trans; [by apply HR|done].
Qed.

Lemma infection_quiet self self' : infection_event self self' -> quiet self self'.
Proof.
  intros Hev.
  assert (Hlen : length (occupants (Network.lattice self'))
                 = length (occupants (Network.lattice self)))
    by (destruct Hev; cbn; apply length_alter).
  apply infection_event_view in Hev
    as (a & rest & st & Hb & Hb' & Hh & Hst & Hst' & Hn & Ht & Hset).
  split; [done|]. split; [done|]. split; [|split; [|done]].
  - rewrite Hst'. eapply counters_grow_insert; [done|cbn; lia..].
  - by eapply roll_swap.
Qed.

Lemma progress_quiet self self' : progress_event self self' -> quiet self self'.
Proof.
  intros Hev.
  assert (Hlen : length (occupants (Network.lattice self'))
                 = length (occupants (Network.lattice self)))
    by (destruct Hev; cbn; apply length_alter).
  apply progress_event_view in Hev
    as (a & rest & Hb & Hb' & Hcase & Ht & Hset).
  destruct (advanced_facts self a) as (Hage & Hid & _).
  split; [done|]. split; [done|]. split; [|split; [|done]].
  - destruct Hcase as [(_ & -> & _) | (_ & st & Hst & -> & _)];
      [apply counters_grow_refl|].
    eapply counters_grow_insert; [done|cbn; lia..].
  - by eapply roll_swap.
Qed.

Lemma move_quiet self self' : move_event self self' -> quiet self self'.
Proof.
  intros Hev.
  assert (Hlen : length (occupants (Network.lattice self'))
                 = length (occupants (Network.lattice self)))
    by (destruct Hev; cbn; by rewrite !length_alter).
  apply move_event_view in Hev
    as (a & rest & target & Hb & Hb' & _ & Hst' & Hn & Ht & Hset).
  split; [done|]. split; [done|]. split; [|split; [|done]].
  - rewrite Hst'. apply counters_grow_refl.
  - by eapply roll_swap.
Qed.

Lemma arrival_effect self self' :
  arrival_event self self' ->
  same_settings self self' /\
  length (occupants (Network.lattice self'))
  = length (occupants (Network.lattice self)) /\
  counters_grow (Network.stats self) (Network.stats self') /\
  (exists x, roll self' ≡ₚ x :: roll self) /\
  Network.time_elapsed self' = Network.time_elapsed self.
Proof.
  intros Hev.
  assert (Hlen : length (occupants (Network.lattice self'))
                 = length (occupants (Network.lattice self)))
    by (destruct Hev; cbn; apply length_alter).
  apply arrival_event_view in Hev
    as (ident & raw & s & st & Hb' & Hst & Hst' & Hn & Ht & Hset).
  split; [done|]. split; [done|]. split; [|split; [|done]].
  - rewrite Hst'. eapply counters_grow_insert; [done|cbn; lia..].
  - eexists. unfold roll. rewrite Hb'. rewrite fmap_cons. reflexivity.
Qed.

Lemma step_shape_frame self self' :
  step_shape self self' ->
  same_settings self self' /\
  length (occupants (Network.lattice self'))
  = length (occupants (Network.lattice self)) /\
  counters_grow (Network.stats self) (Network.stats self') /\
  (exists new, (length new <= 1)%nat /\ roll self' ≡ₚ new ++ roll self) /\
  Network.time_elapsed self' = Network.time_elapsed self + 1.
Proof.
  intros (s1 & s2 & s3 & s4 & H1 & H2 & H3 & H4 & ->).
  apply (rtc_quiet _ infection_quiet) in H1.
  apply (rtc_quiet _ progress_quiet) in H2.
  assert (quiet s2 s3) as H3'
    by (destruct H3 as [-> | H3]; [apply quiet_refl|by apply move_quiet]).
  pose proof (quiet_trans _ _ _ (quiet_trans _ _ _ H1 H2) H3')
    as (Ha & Hb & Hc & Hd & He).
  destruct H4 as [-> | H4].
  - repeat split; try done; try apply Ha.
    + exists []. split; [cbn; lia|done].
    + cbn. lia.
  - apply arrival_effect in H4 as (Ha' & Hb' & Hc' & [x Hd'] & He').
    split; [etrans; [done|]; destruct Ha' as (?&?&?); by repeat split|].
    split; [cbn; congruence|].
    split; [by eapply counters_grow_trans|].
    split; [exists [x]; split; [cbn; lia|]; unfold roll in *; cbn;
            by rewrite Hd', Hd|].
    cbn. lia.
Qed.

(** *** Health never goes back, and a move is never refused *)

(** X3.  [update_agent] and [expose_to_infection] never take an agent back
    to an earlier stage of healthy, asymptomatic, symptomatic, dead (a dead
    agent stays dead and no agent becomes healthy again), and [move_agent]
    leaves the health status as it is. *)
Theorem stage_never_decreases (self : Agent.t) (a s n1 n2 : Z) (lam : R)
    (target : Location) (table : gmap Z Z) (g g' : Globals)
    (r : bool * Agent.t) :
  let st x := stage (label (Agent.health_status x)) in
  st self <= st (Agent.update_agent self a s).2 /\
  (Agent.expose_to_infection self lam g = Ret r g' -> st self <= st r.2) /\
  (Agent.move_agent self n1 n2 target table g = Ret r g' ->
   Agent.health_status r.2 = Agent.health_status self).
Proof.
  intros st. split; [|split].
  - unfold st. rewrite update_agent_status.
    destruct (label (Agent.health_status self)) eqn:E; cbn;
      repeat case_match; cbn; rewrite ?E; cbn; lia.
  - intros [-> | [Hh ->]]%expose_cases; unfold st; cbn; [lia|].
    rewrite Hh. cbn. lia.
  - by intros [-> | [_ ->]]%move_agent_cases.
Qed.





(** *** No phase raises an exception on a well-formed network *)

Lemma for_each_ret {X S} (P : S -> Prop) (xs : list X)
    (body : X -> S -> M S) :
  (forall x s g, x ∈ xs -> P s ->
     exists s' g', body x s g = Ret s' g' /\ P s') ->
  forall s g, P s -> exists s' g', for_each xs body s g = Ret s' g' /\ P s'.
Proof.
  induction xs as [|x xs IH]; intros Hbody s g Hs; [by exists s, g|].
  destruct (Hbody x s g) as (s1 & g1 & Hrun & H1); [by left|done|].
  destruct (IH (fun y s0 g0 Hy => Hbody y s0 g0 (list_elem_of_further _ _ _ Hy))
               s1 g1 H1) as (s2 & g2 & Hrun2 & H2).
  exists s2, g2. cbn. by rewrite (bind_ret_eq _ _ _ _ _ Hrun).
Qed.

Lemma fmap_length_alter {A} (f : list A -> list A) (occ : list (list A)) i :
  (forall l, length (f l) = length l) ->
  length <$> alter f i occ = length <$> occ.
Proof.
  intros Hf. revert i. induction occ as [|l occ IH]; intros [|i]; cbn;
    f_equal; auto.
Qed.

Lemma elem_of_bag self a :
  a ∈ bag self <->
  exists i l, occupants (Network.lattice self) !! i = Some l /\ a ∈ l.
Proof.
  unfold bag. rewrite list_elem_of_In, in_concat. split.
  - intros (l & Hl & Ha). apply list_elem_of_In in Hl. apply list_elem_of_In in Ha.
    apply list_elem_of_lookup in Hl as [i Hi]. by exists i, l.
  - intros (i & l & Hi & Ha). exists l.
    split; apply list_elem_of_In; [by eapply list_elem_of_lookup_2|done].
Qed.

(** A quiet change keeps a network well formed. *)
Lemma quiet_keeps_well_formed self self' :
  quiet self self' -> well_formed self -> well_formed self'.
Proof.
  intros ((Hnp & Hap & Hnb) & Hlen & Hst & Hroll & _) [H1 H2 H3 H4 H5 H6].
  split.
  - by rewrite <- Hnp.
  - by rewrite Hlen, <- Hnp.
  - intros i j. rewrite Hlen, <- Hnb. apply H3.
  - intros c Hc. destruct (H4 c Hc) as [s Hs].
    destruct (Hst c s Hs) as (s' & Hs' & _). by exists s'.
  - intros c Hc. rewrite <- Hap. by apply H5.
  - intros a Ha.
    assert ((Agent.id a, Agent.age a) ∈ roll self') as Hin
      by (apply (list_elem_of_fmap_2 (fun a => (Agent.id a, Agent.age a))); done).
    rewrite Hroll in Hin. apply list_elem_of_fmap in Hin as (a0 & E & Ha0).
    injection E as _ ->. by apply H6.
Qed.

Lemma infection_event_shape self self' :
  infection_event self self' -> same_shape self self'.
Proof.
  intros []. unfold same_shape. cbn. symmetry.
  apply fmap_length_alter. intros l0. apply length_insert.
Qed.

Lemma progress_event_shape self self' :
  progress_event self self' -> same_shape self self'.
Proof.
  intros []; unfold same_shape; cbn; symmetry;
    apply fmap_length_alter; intros l0; apply length_insert.
Qed.

Lemma rtc_shape (R : relation Network.t) :
  (forall x y, R x y -> same_shape x y) ->
  forall x y, rtc R x y -> same_shape x y.
Proof.
  intros HR x y H. induction H as [|x y z Hxy _ IH]; [done|].
  unfold same_shape in *. rewrite <- IH. by apply HR.
Qed.

Lemma same_shape_lookup a b i l :
  same_shape a b -> occupants (Network.lattice a) !! i = Some l ->
  exists l', occupants (Network.lattice b) !! i = Some l' /\
             length l' = length l.
Proof.
  intros Hs Hl.
  assert ((length <$> occupants (Network.lattice b)) !! i = Some (length l))
    as Hb by (rewrite <- Hs, list_lookup_fmap, Hl; done).
  rewrite list_lookup_fmap in Hb.
  destruct (occupants (Network.lattice b) !! i) as [l'|]; [|done].
  exists l'. split; [done|]. by injection Hb.
Qed.

(** The loop invariant of the infection phase: well formed, with the
    shape the phase started from. *)
Lemma infection_keeps_invariant s0 s s' :
  rtc infection_event s s' ->
  well_formed s /\ same_shape s0 s -> well_formed s' /\ same_shape s0 s'.
Proof.
  intros Hev [Hwf Hsh]. split.
  - eapply quiet_keeps_well_formed; [|done].
    by apply (rtc_quiet _ infection_quiet).
  - unfold same_shape in *. rewrite Hsh.
    by apply (rtc_shape _ infection_event_shape).
Qed.

Lemma expose_returns a lam g :
  exists r g', Agent.expose_to_infection a lam g = Ret r g'.
Proof.
  unfold Agent.expose_to_infection. case_decide; [|by eexists _, _].
  destruct (randint_spec 1 100 g) as [Hr _]; [lia|].
  rewrite (bind_ret_eq _ _ _ _ _ Hr). destruct (Rle_dec _ _); by eexists _, _.
Qed.

Lemma well_formed_counter self i l a :
  well_formed self ->
  occupants (Network.lattice self) !! i = Some l -> a ∈ l ->
  is_Some (Network.stats self !! Agent.age a).
Proof.
  intros Hwf Hl Ha. apply (wf_counters _ Hwf), (wf_ages _ Hwf).
  apply elem_of_bag. eauto.
Qed.

Lemma expose_occupant_returns self nb k l a g :
  well_formed self ->
  occupants (Network.lattice self) !! nb = Some l -> l !! k = Some a ->
  exists s' g', Network.expose_occupant nb k self g = Ret s' g'.
Proof.
  intros Hwf Hl Ha. unfold Network.expose_occupant.
  rewrite (bind_ret_eq _ _ _ _ _ (occupant_lookup _ _ _ _ _ _ Hl Ha)).
  destruct (expose_returns a (lambda (Network.agent_params self)) g)
    as (r & g' & He).
  rewrite (bind_ret_eq _ _ _ _ _ He).
  destruct (well_formed_counter self nb l a Hwf Hl) as [st Hst];
    [by eapply list_elem_of_lookup_2|].
  apply expose_cases in He as [-> | [_ ->]]; cbn [fst snd];
    [by eexists _, _|].
  erewrite bump_stat_lookup; [by eexists _, _|exact Hst].
Qed.

(** A loop returns when each round does, a round being a sequence of
    events that keep the invariant of the loop. *)
Lemma for_each_runs {X} (event : relation Network.t) (Inv : Network.t -> Prop)
    (xs : list X) (body : X -> Network.t -> M Network.t) :
  (forall s s', rtc event s s' -> Inv s -> Inv s') ->
  (forall x s g, x ∈ xs -> Inv s ->
     exists s' g', body x s g = Ret s' g' /\ rtc event s s') ->
  forall s g, Inv s ->
    exists s' g', for_each xs body s g = Ret s' g' /\ rtc event s s'.
Proof.
  intros Hinv Hbody s g Hs.
  destruct (for_each_ret (fun s1 => Inv s1 /\ rtc event s s1) xs body)
    with (s := s) (g := g) as (s' & g' & Hrun & _ & Hev);
    [|done|by exists s', g'].
  intros x s1 g1 Hx [H1 Hev].
  destruct (Hbody x s1 g1 Hx H1) as (s2 & g2 & Hrun & Hev2).
  exists s2, g2. repeat split; [done|by eapply Hinv|by etrans].
Qed.

Lemma expose_node_returns self nb g :
  well_formed self ->
  (nb < length (occupants (Network.lattice self)))%nat ->
  exists s' g', Network.expose_node nb self g = Ret s' g' /\
                rtc infection_event self s'.
Proof.
  intros Hwf Hnb. unfold Network.expose_node.
  destruct (lookup_lt_is_Some_2 _ _ Hnb) as [l Hl].
  rewrite (bind_ret_eq _ _ _ _ _ (node_occupants_lookup _ _ _ _ Hl)).
  apply (for_each_runs _ (fun s => well_formed s /\ same_shape self s));
    [intros; by eapply infection_keeps_invariant| |done].
  intros k s g1 Hk [Hwf1 Hsh].
  apply elem_of_seq in Hk.
  destruct (same_shape_lookup _ _ _ _ Hsh Hl) as (l' & Hl' & Hlen).
  destruct (lookup_lt_is_Some_2 l' k) as [a Ha]; [lia|].
  destruct (expose_occupant_returns s nb k l' a g1 Hwf1 Hl' Ha)
    as (s1 & g2 & Hrun).
  exists s1, g2. split; [done|]. by eapply expose_occupant_events.
Qed.

Lemma same_shape_length a b :
  same_shape a b ->
  length (occupants (Network.lattice a)) = length (occupants (Network.lattice b)).
Proof.
  intros H. apply (f_equal length) in H. by rewrite !length_fmap in H.
Qed.

Lemma spread_from_returns self node nbrs k l a g :
  well_formed self ->
  (forall nb, nb ∈ nbrs ->
     (nb < length (occupants (Network.lattice self)))%nat) ->
  occupants (Network.lattice self) !! node = Some l -> l !! k = Some a ->
  exists s' g', Network.spread_from node nbrs k self g = Ret s' g' /\
                rtc infection_event self s'.
Proof.
  intros Hwf Hnbrs Hl Ha. unfold Network.spread_from.
  rewrite (bind_ret_eq _ _ _ _ _ (occupant_lookup _ _ _ _ _ _ Hl Ha)).
  destruct (Agent.get_infectious a); [|by exists self, g].
  apply (for_each_runs _ (fun s => well_formed s /\ same_shape self s));
    [intros; by eapply infection_keeps_invariant| |done].
  intros nb s g1 Hnb [Hwf1 Hsh].
  apply expose_node_returns; [done|].
  rewrite <- (same_shape_length _ _ Hsh). by apply Hnbrs.
Qed.

Lemma infect_from_node_returns self node g :
  well_formed self ->
  (node < length (occupants (Network.lattice self)))%nat ->
  exists s' g', Network.infect_from_node node self g = Ret s' g' /\
                rtc infection_event self s'.
Proof.
  intros Hwf Hnode. unfold Network.infect_from_node.
  destruct (lookup_lt_is_Some_2 _ _ Hnode) as [l Hl].
  rewrite (bind_ret_eq _ _ _ _ _ (node_occupants_lookup _ _ _ _ Hl)).
  apply (for_each_runs _ (fun s => well_formed s /\ same_shape self s));
    [intros; by eapply infection_keeps_invariant| |done].
  intros k s g1 Hk [Hwf1 Hsh].
  apply elem_of_seq in Hk.
  destruct (same_shape_lookup _ _ _ _ Hsh Hl) as (l' & Hl' & Hlen).
  destruct (lookup_lt_is_Some_2 l' k) as [a Ha]; [lia|].
  apply (spread_from_returns s node _ k l' a); try done.
  intros nb Hnb. rewrite <- (same_shape_length _ _ Hsh).
  apply elem_of_app in Hnb as [Hnb | Hnb%list_elem_of_singleton]; [|by subst].
  by eapply (wf_neighbors _ Hwf).
Qed.

Lemma check_for_infection_returns self g :
  well_formed self ->
  exists s' g', Network.check_for_infection self g = Ret s' g' /\
                rtc infection_event self s'.
Proof.
  intros Hwf. unfold Network.check_for_infection, Network.all_nodes.
  apply (for_each_runs _ (fun s => well_formed s /\ same_shape self s));
    [intros; by eapply infection_keeps_invariant| |done].
  intros node s g1 Hnode [Hwf1 Hsh].
  apply elem_of_seq in Hnode.
  apply infect_from_node_returns; [done|].
  rewrite <- (same_shape_length _ _ Hsh). lia.
Qed.

Lemma progress_keeps_invariant s0 s s' :
  rtc progress_event s s' ->
  well_formed s /\ same_shape s0 s -> well_formed s' /\ same_shape s0 s'.
Proof.
  intros Hev [Hwf Hsh]. split.
  - eapply quiet_keeps_well_formed; [|done].
    by apply (rtc_quiet _ progress_quiet).
  - unfold same_shape in *. rewrite Hsh.
    by apply (rtc_shape _ progress_event_shape).
Qed.

Lemma update_node_returns self node g :
  well_formed self ->
  (node < length (occupants (Network.lattice self)))%nat ->
  exists s' g', Network.update_node node self g = Ret s' g' /\
                rtc progress_event self s'.
Proof.
  intros Hwf Hnode. unfold Network.update_node.
  destruct (lookup_lt_is_Some_2 _ _ Hnode) as [l Hl].
  rewrite (bind_ret_eq _ _ _ _ _ (node_occupants_lookup _ _ _ _ Hl)).
  apply (for_each_runs _ (fun s => well_formed s /\ same_shape self s));
    [intros; by eapply progress_keeps_invariant| |done].
  intros k s g1 Hk [Hwf1 Hsh].
  apply elem_of_seq in Hk.
  destruct (same_shape_lookup _ _ _ _ Hsh Hl) as (l' & Hl' & Hlen).
  destruct (lookup_lt_is_Some_2 l' k) as [a Ha]; [lia|].
  destruct (update_occupant_run node k s g1 l' a Hl' Ha) as (s1 & Hrun & _).
  { eapply well_formed_counter; [done..|]. by eapply list_elem_of_lookup_2. }
  exists s1, g1. split; [done|]. by eapply update_occupant_events.
Qed.

Lemma check_for_death_returns self g :
  well_formed self ->
  exists s' g', Network.check_for_death self g = Ret s' g' /\
                rtc progress_event self s'.
Proof.
  intros Hwf. unfold Network.check_for_death, Network.all_nodes.
  apply (for_each_runs _ (fun s => well_formed s /\ same_shape self s));
    [intros; by eapply progress_keeps_invariant| |done].
  intros node s g1 Hnode [Hwf1 Hsh].
  apply elem_of_seq in Hnode.
  apply update_node_returns; [done|].
  rewrite <- (same_shape_length _ _ Hsh). lia.
Qed.

(** *** The movement phase on a well-formed network *)



Lemma random_neighbor_returns nbrs g :
  nbrs <> [] ->
  exists s, Network.random_neighbor nbrs g = Ret s (next g) /\ s ∈ nbrs.
Proof.
  intros Hne. unfold Network.random_neighbor.
  assert (0 < length nbrs)%nat by (destruct nbrs; [done|cbn; lia]).
  destruct (randint_spec 0 (Z.of_nat (length nbrs) - 1) g) as [Hr Hb]; [lia|].
  rewrite (bind_ret_eq _ _ _ _ _ Hr). unfold list_get.
  destruct (lookup_lt_is_Some_2 nbrs
              (Z.to_nat (0 + stream g (pos g) mod (Z.of_nat (length nbrs) - 1 - 0 + 1))))
    as [s Hs]; [lia|].
  rewrite Hs. exists s. split; [done|]. by eapply list_elem_of_lookup_2.
Qed.

(** The second loop of the movement phase ends: it runs out of fuel only
    when given less than the 31 retries and the final test need. *)
Lemma find_destination_outcome self nbrs fuel s2 c g :
  nbrs <> [] ->
  (forall nb, nb ∈ nbrs ->
     (nb < length (occupants (Network.lattice self)))%nat) ->
  (s2 < length (occupants (Network.lattice self)))%nat ->
  0 <= c <= 31 ->
  (Network.find_destination fuel self nbrs s2 c g = Timeout /\
   Z.of_nat fuel <= 31 - c) \/
  exists d g',
    Network.find_destination fuel self nbrs s2 c g = Ret d g' /\
    forall s, d = Some s ->
      (s < length (occupants (Network.lattice self)))%nat.
Proof.
  intros Hne Hnbrs. revert s2 c g.
  induction fuel as [|fuel IH]; intros s2 c g Hs2 Hc; [left; split; [done|lia]|].
  cbn [Network.find_destination].
  destruct (Z.ltb_spec 30 c).
  { right. exists None, g. by split. }
  destruct (lookup_lt_is_Some_2 _ _ Hs2) as [l Hl].
  rewrite (bind_ret_eq _ _ _ _ _ (node_occupants_lookup _ _ _ _ Hl)).
  destruct (Network.scan_symptomatic l).
  - destruct (random_neighbor_returns nbrs g Hne) as (s & Hr & Hs).
    rewrite (bind_ret_eq _ _ _ _ _ Hr).
    destruct (IH s (c + 1) (next g)) as [[Ht Hf] | Hret];
      [by apply Hnbrs|lia| |by right].
    left. split; [done|lia].
  - right. exists (Some s2), g. split; [done|]. by intros s [= <-].
Qed.



(** *** The influx phase on a well-formed network *)


Lemma arrival_keeps_well_formed self self' :
  arrival_event self self' -> well_formed self -> well_formed self'.
Proof.
  intros Hev [H1 H2 H3 H4 H5 H6].
  pose proof (arrival_effect _ _ Hev)
    as ((Hnp & Hap & Hnb) & Hlen & Hst & _ & _).
  apply arrival_event_view in Hev
    as (ident & raw & s & st & Hb' & _ & _ & _ & _ & _).
  split.
  - by rewrite <- Hnp.
  - by rewrite Hlen, <- Hnp.
  - intros i j. rewrite Hlen, <- Hnb. apply H3.
  - intros c Hc. destruct (H4 c Hc) as [s0 Hs].
    destruct (Hst c s0 Hs) as (s' & Hs' & _). by exists s'.
  - intros c Hc. rewrite <- Hap. by apply H5.
  - intros a Ha. rewrite Hb' in Ha.
    apply elem_of_cons in Ha as [-> | Ha]; [|by apply H6].
    apply age_categorize_range.
Qed.




Lemma random_neighbor_draws nbrs g s g' :
  Network.random_neighbor nbrs g = Ret s g' -> g' = next g.
Proof.
  unfold Network.random_neighbor, randint, bind, list_get.
  repeat case_match; try done; unfold ret in *.
  intros [= _ <-]. by simplify_eq.
Qed.

Lemma find_destination_draws self nbrs fuel s2 c g d g' :
  0 <= c <= 31 ->
  Network.find_destination fuel self nbrs s2 c g = Ret d g' ->
  Z.of_nat (pos g') + c <= Z.of_nat (pos g) + 31.
Proof.
  revert s2 c g. induction fuel as [|fuel IH]; intros s2 c g Hc H; [done|].
  cbn [Network.find_destination] in H.
  destruct (Z.ltb_spec 30 c); [injection H as _ <-; lia|].
  monad_inv; [|lia].
  match goal with H : Network.random_neighbor _ _ = _ |- _ =>
    apply random_neighbor_draws in H; subst end.
  match goal with H : Network.find_destination _ _ _ _ _ _ = _ |- _ =>
    apply IH in H; [|lia] end.
  cbn in *. lia.
Qed.

(** *** The graph built by [__generate_lattice] *)

Lemma grid_cell (L i : nat) (dx dy : Z) :
  (i < L * L)%nat ->
  0 <= Z.of_nat (i / L) + dx < Z.of_nat L ->
  0 <= Z.of_nat (i mod L) + dy < Z.of_nat L ->
  let j := Z.to_nat ((Z.of_nat (i / L) + dx) * Z.of_nat L
                     + (Z.of_nat (i mod L) + dy)) in
  (j < L * L)%nat /\
  Z.of_nat (j / L) = Z.of_nat (i / L) + dx /\
  Z.of_nat (j mod L) = Z.of_nat (i mod L) + dy.
Proof.
  intros Hi Hx Hy j.
  assert (0 < Z.of_nat L) as HL by lia.
  assert (Z.of_nat j = (Z.of_nat (i / L) + dx) * Z.of_nat L
                       + (Z.of_nat (i mod L) + dy)) as Hj
    by (unfold j; rewrite Z2Nat.id; [done|nia]).
  rewrite Nat2Z.inj_div, Nat2Z.inj_mod, Hj.
  rewrite Z.div_add_l, Z.div_small, Z.add_0_r by lia.
  rewrite (Z.add_comm (_ * _)), Z.mod_add, Z.mod_small by lia.
  split; [|done]. apply Nat2Z.inj_lt. rewrite Hj, Nat2Z.inj_mul. nia.
Qed.

Lemma grid_neighbors_elem (L i j : nat) :
  (i < L * L)%nat ->
  j ∈ Network.grid_neighbors L i <->
  (j < L * L)%nat /\ j <> i /\
  Z.abs (Z.of_nat (j / L) - Z.of_nat (i / L)) <= 1 /\
  Z.abs (Z.of_nat (j mod L) - Z.of_nat (i mod L)) <= 1.
Proof.
  intros Hi. unfold Network.grid_neighbors. rewrite list_elem_of_omap. split.
  - intros ([dx dy] & Hd & Hf). cbn [fst snd] in Hf.
    case_match eqn:Hc; [|done]. injection Hf as <-.
    rewrite !andb_true_iff, !Z.leb_le, !Z.ltb_lt in Hc.
    destruct (grid_cell L i dx dy) as (Hlt & Hx & Hy); [done|lia..|].
    split; [done|]. rewrite Hx, Hy.
    assert (dx <> 0 \/ dy <> 0) as Hnz.
    { repeat (apply elem_of_cons in Hd as [[= -> ->] | Hd]); try lia.
      by apply elem_of_nil in Hd. }
    assert (Z.abs dx <= 1 /\ Z.abs dy <= 1) as [? ?].
    { repeat (apply elem_of_cons in Hd as [[= -> ->] | Hd]); try lia.
      by apply elem_of_nil in Hd. }
    split; [|split; lia]. intros E. rewrite E in Hx, Hy. lia.
  - intros (Hj & Hne & Hx & Hy).
    assert (0 < L)%nat as HL by lia.
    pose proof (Nat.mod_upper_bound i L ltac:(lia)).
    pose proof (Nat.mod_upper_bound j L ltac:(lia)).
    pose proof (Nat.Div0.div_lt_upper_bound i L L Hi).
    pose proof (Nat.Div0.div_lt_upper_bound j L L Hj).
    pose proof (Nat.div_mod_eq i L) as Ei.
    pose proof (Nat.div_mod_eq j L) as Ej.
    exists (Z.of_nat (j / L) - Z.of_nat (i / L),
            Z.of_nat (j mod L) - Z.of_nat (i mod L)).
    split.
    + assert (Z.of_nat (j / L) - Z.of_nat (i / L) = 0 ->
              Z.of_nat (j mod L) - Z.of_nat (i mod L) = 0 -> False) as Hnz.
      { intros E1 E2. apply Hne.
        assert (j / L = i / L)%nat as E1' by lia.
        assert (j mod L = i mod L)%nat as E2' by lia.
        rewrite Ei, Ej, E1', E2'. done. }
      revert Hx Hy Hnz.
      generalize (Z.of_nat (j / L) - Z.of_nat (i / L)).
      generalize (Z.of_nat (j mod L) - Z.of_nat (i mod L)).
      intros dy dx Hx Hy Hnz.
      assert (dx = -1 \/ dx = 0 \/ dx = 1) as [-> | [-> | ->]] by lia;
      assert (dy = -1 \/ dy = 0 \/ dy = 1) as [-> | [-> | ->]] by lia;
        solve [by destruct Hnz | repeat constructor].
    + cbn [fst snd]. case_match eqn:Hc.
      * f_equal. apply Nat2Z.inj. rewrite Z2Nat.id by nia.
        rewrite Ej at 3. rewrite Nat2Z.inj_add, Nat2Z.inj_mul. lia.
      * rewrite !andb_false_iff, !Z.leb_gt, !Z.ltb_ge in Hc. lia.
Qed.

Lemma init_lattice_well_formed (args : Args) :
  1 <= arg_L args -> well_formed (Network.init_lattice args).
Proof.
  intros HL.
  assert (Z.to_nat (arg_L args * arg_L args)
          = (Z.to_nat (arg_L args) * Z.to_nat (arg_L args))%nat) as Hsq
    by (rewrite Z2Nat.inj_mul; lia).
  split.
  - cbn. nia.
  - cbn. apply length_replicate.
  - intros i j. cbn -[Network.grid_neighbors].
    rewrite length_replicate, Hsq. intros Hi Hj.
    by apply (grid_neighbors_elem _ _ _ Hi) in Hj as [? _].
  - intros c Hc. cbn.
    repeat (apply elem_of_cons in Hc as [-> | Hc]); [by eexists..|].
    by apply elem_of_nil in Hc.
  - intros c Hc. cbn.
    repeat (apply elem_of_cons in Hc as [-> | Hc]); [by eexists..|].
    by apply elem_of_nil in Hc.
  - intros a (i & l & Hl & Ha)%elem_of_bag. cbn in Hl.
    apply lookup_replicate in Hl as [-> _]. by apply elem_of_nil in Ha.
Qed.

Lemma init_lattice_linked (args : Args) :
  2 <= arg_L args -> linked (Network.init_lattice args).
Proof.
  intros HL i. cbn -[Network.grid_neighbors].
  rewrite length_replicate, Z2Nat.inj_mul by lia.
  set (L := Z.to_nat (arg_L args)). intros Hi Hnil.
  assert (2 <= L)%nat as HL' by lia.
  pose proof (Nat.Div0.div_lt_upper_bound i L L Hi) as Hx.
  pose proof (Nat.div_mod_eq i L) as Ei.
  pose proof (Nat.mod_upper_bound i L ltac:(lia)) as Hy.
  assert (forall j, j ∈ Network.grid_neighbors L i -> False) as Hnone
    by (intros j Hj; rewrite Hnil in Hj; by apply elem_of_nil in Hj).
  destruct (decide (i / L = 0)%nat) as [E|E].
  - apply (Hnone (i + 1 * L)%nat), grid_neighbors_elem; [done|].
    rewrite Nat.div_add, Nat.Div0.mod_add by lia.
    rewrite E in Ei. split; [nia|]. split; lia.
  - assert (i = (i - L) + 1 * L)%nat as Ei' by nia.
    apply (Hnone (i - L)%nat), grid_neighbors_elem; [done|].
    pose proof (Nat.div_add (i - L) 1 L ltac:(lia)) as Hd.
    pose proof (Nat.Div0.mod_add (i - L) 1 L) as Hm.
    rewrite <- Ei' in Hd, Hm. rewrite Hd, Hm.
    split; [lia|]. split; lia.
Qed.

(** *** The initial population *)





Lemma length_py_range n : length (py_range n) = Z.to_nat n.
Proof. unfold py_range. by rewrite length_fmap, length_seq. Qed.

Lemma elem_of_py_range n i : i ∈ py_range n <-> 0 <= i < n.
Proof.
  unfold py_range. rewrite list_elem_of_fmap. split.
  - intros (k & -> & Hk%elem_of_seq). lia.
  - intros Hi. exists (Z.to_nat i). rewrite elem_of_seq. lia.
Qed.







Lemma place_agent_inv l i self g self' g' :
  Network.place_agent l i self g = Ret self' g' ->
  exists s l0 st ident raw,
    occupants (Network.lattice self) !! s = Some l0 /\
    Z.of_nat s < num_nodes (Network.network_params self) /\
    Network.stats self !! Agent.age_categorize raw = Some st /\
    self' =
      if bool_decide (i ∈ l)
      then placed self s (Agent.set_infected (Agent.create ident raw (SiteId s)))
             (Network.incr_infected (Network.incr_alive (Network.incr_total st)))
      else placed self s (Agent.create ident raw (SiteId s))
             (Network.incr_alive (Network.incr_total st)).
Proof.
  unfold Network.place_agent. intros H.
  apply bind_ret_inv in H as (s & g1 & Hs & H).
  apply bind_ret_inv in H as (a & g2 & Ha & H).
  rewrite agent_init_spec in Ha. injection Ha as <- <-.
  unfold randint in Hs.
  destruct (Z.ltb_spec (num_nodes (Network.network_params self) - 1) 0)
    as [Hb|Hb]; [done|].
  injection Hs as <- <-.
  pose proof (Z.mod_pos_bound (stream g (pos g))
                (num_nodes (Network.network_params self) - 1 - 0 + 1)
                ltac:(lia)) as Hmod.
  set (s := Z.to_nat _) in *.
  assert (Z.of_nat s < num_nodes (Network.network_params self)) as Hlt
    by (unfold s; lia).
  case_bool_decide.
  - monad_inv.
    match goal with H : Network.append_occupant _ _ _ = _ |- _ =>
      unfold Network.append_occupant in H; cbn in H; monad_inv end.
    apply bump_stat_inv in H as (st3 & Hst3 & -> & _).
    repeat match goal with H : Network.bump_stat _ _ _ _ = _ |- _ =>
      apply bump_stat_inv in H as (? & ? & -> & _) end.
    unfold Agent.get_age in *.
    cbn [Agent.create Agent.age Agent.set_infected Agent.set_health fst snd] in *.
    cbn in *. rewrite ?lookup_insert_eq in *. simplify_eq.
    eexists s, _, _, _, _. split; [done|]. split; [done|]. split; [done|].
    unfold placed, with_counters, Network.set_stats. cbn.
    by rewrite !insert_insert_eq.
  - monad_inv.
    match goal with H : Network.append_occupant _ _ _ = _ |- _ =>
      unfold Network.append_occupant in H; cbn in H; monad_inv end.
    apply bump_stat_inv in H as (st3 & Hst3 & -> & _).
    repeat match goal with H : Network.bump_stat _ _ _ _ = _ |- _ =>
      apply bump_stat_inv in H as (? & ? & -> & _) end.
    unfold Agent.get_age in *.
    cbn [Agent.create Agent.age fst snd] in *.
    cbn in *. rewrite ?lookup_insert_eq in *. simplify_eq.
    eexists s, _, _, _, _. split; [done|]. split; [done|]. split; [done|].
    unfold placed, with_counters, Network.set_stats. cbn.
    by rewrite !insert_insert_eq.
Qed.

Lemma placed_healthy_event self s l0 st ident raw :
  occupants (Network.lattice self) !! s = Some l0 ->
  Network.stats self !! Agent.age_categorize raw = Some st ->
  arrival_event self
    (placed self s (Agent.create ident raw (SiteId s))
            (Network.incr_alive (Network.incr_total st))).
Proof. intros Hl Hst. by eapply ev_arrive. Qed.

Lemma placed_infected_event self s l0 st ident raw :
  occupants (Network.lattice self) !! s = Some l0 ->
  Network.stats self !! Agent.age_categorize raw = Some st ->
  infection_event
    (placed self s (Agent.create ident raw (SiteId s))
            (Network.incr_alive (Network.incr_total st)))
    (placed self s (Agent.set_infected (Agent.create ident raw (SiteId s)))
            (Network.incr_infected (Network.incr_alive (Network.incr_total st)))).
Proof.
  intros Hl Hst.
  set (a := Agent.create ident raw (SiteId s)).
  set (s1 := placed self s a _).
  assert (placed self s (Agent.set_infected a)
            (Network.incr_infected (Network.incr_alive (Network.incr_total st)))
          = with_counters
              (Network.store_occupant s1 s (length l0)
                 (Agent.set_health a (mkHealth Asymptomatic 0)))
              (Agent.age a)
              (Network.incr_infected
                 (Network.incr_alive (Network.incr_total st)))) as ->.
  { unfold placed, with_counters, Network.set_stats, Network.store_occupant,
      Network.set_lattice, Network.set_num_agents. cbn.
    rewrite insert_insert_eq. f_equal. f_equal.
    rewrite list_alter_alter_eq. apply list_alter_ext; [|done].
    intros l1 Hl1. rewrite Hl in Hl1. injection Hl1 as <-. cbn.
    rewrite <- (Nat.add_0_r (length l0)). by rewrite insert_app_r. }
  eapply (ev_infect s1 s (length l0) (l0 ++ [a]) a).
  - cbn. rewrite list_lookup_alter_eq, Hl. done.
  - rewrite lookup_app_r by lia. by rewrite Nat.sub_diag.
  - done.
  - cbn. apply lookup_insert_eq.
Qed.

Lemma placed_bag self s l0 a st :
  occupants (Network.lattice self) !! s = Some l0 ->
  bag (placed self s a st) ≡ₚ a :: bag self.
Proof. intros Hl. unfold bag. cbn. by eapply bag_append. Qed.

Lemma placed_locations self s l0 a st :
  occupants (Network.lattice self) !! s = Some l0 ->
  Z.of_nat s < num_nodes (Network.network_params self) ->
  Agent.location a = SiteId s ->
  locations_consistent self -> locations_consistent (placed self s a st).
Proof.
  intros Hl Hs Ha Hloc i l b Hi Hb. cbn in Hi.
  destruct (decide (i = s)) as [->|Hne].
  - rewrite list_lookup_alter_eq, Hl in Hi. injection Hi as <-.
    apply elem_of_app in Hb as [Hb | ->%list_elem_of_singleton]; [|done].
    by eapply Hloc.
  - rewrite list_lookup_alter_ne in Hi by done. by eapply Hloc.
Qed.

(** What one round of the population loop does. *)
Lemma place_agent_effect l i self g self' g' :
  Network.place_agent l i self g = Ret self' g' ->
  (census self -> census self') /\
  (well_formed self -> well_formed self') /\
  (locations_consistent self -> locations_consistent self') /\
  same_settings self self' /\
  Network.time_elapsed self' = Network.time_elapsed self /\
  Network.num_agents self' = Network.num_agents self + 1 /\
  exists a, bag self' ≡ₚ a :: bag self /\
            Agent.health_status a = initial_status l i.
Proof.
  intros (s & l0 & st & ident & raw & Hl & Hs & Hst & ->)%place_agent_inv.
  pose proof (placed_healthy_event self s l0 st ident raw Hl Hst) as Harr.
  pose proof (placed_infected_event self s l0 st ident raw Hl Hst) as Hinf.
  unfold initial_status. case_bool_decide.
  - split; [|split; [|split; [|split; [done|split; [done|split; [done|]]]]]].
    + intros Hc. by eapply infection_keeps_census, arrival_keeps_census.
    + intros Hwf. eapply quiet_keeps_well_formed; [by apply infection_quiet|].
      by eapply arrival_keeps_well_formed.
    + by apply (placed_locations _ _ l0).
    + eexists. split; [by eapply placed_bag|done].
  - split; [|split; [|split; [|split; [done|split; [done|split; [done|]]]]]].
    + intros Hc. by eapply arrival_keeps_census.
    + intros Hwf. by eapply arrival_keeps_well_formed.
    + by apply (placed_locations _ _ l0).
    + eexists. split; [by eapply placed_bag|done].
Qed.

(** What the population loop does: it adds one agent for each index, with
    the status the index calls for. *)
Lemma place_agents_effect l xs self g self' g' :
  for_each xs (Network.place_agent l) self g = Ret self' g' ->
  (census self -> census self') /\
  (well_formed self -> well_formed self') /\
  (locations_consistent self -> locations_consistent self') /\
  same_settings self self' /\
  Network.time_elapsed self' = Network.time_elapsed self /\
  Network.num_agents self' = Network.num_agents self + Z.of_nat (length xs) /\
  exists new, bag self' ≡ₚ new ++ bag self /\
              Agent.health_status <$> new ≡ₚ initial_status l <$> xs.
Proof.
  revert self g. induction xs as [|i xs IH]; intros self g H; cbn in H.
  - injection H as <- <-. do 5 (split; [done|]).
    split; [cbn; lia|]. by exists [].
  - apply bind_ret_inv in H as (s1 & g1 & H1 & H).
    apply place_agent_effect in H1
      as (Hc1 & Hw1 & Hl1 & Hs1 & Ht1 & Hn1 & a & Hb1 & Ha).
    apply IH in H as (Hc & Hw & Hl & Hs & Ht & Hn & new & Hb & Hnew).
    split; [auto|]. split; [auto|]. split; [auto|].
    split; [by etrans|]. split; [congruence|].
    split; [rewrite Hn, Hn1; cbn [length]; lia|].
    exists (a :: new). split.
    + rewrite Hb, Hb1. cbn. by rewrite Permutation_middle.
    + cbn. by rewrite Ha, Hnew.
Qed.




(** *** [Network(args)] *)

Lemma py_int_IZR (z : Z) : py_int (IZR z) = z.
Proof.
  assert (forall n, Int_part (IZR n) = n) as Hint.
  { intros n. unfold Int_part.
    rewrite <- (tech_up (IZR n) (n + 1)); [lia| |]; rewrite plus_IZR; lra. }
  unfold py_int. destruct (Rle_dec 0 (IZR z)); [apply Hint|].
  rewrite <- opp_IZR, Hint. lia.
Qed.


Lemma init_lattice_bag (args : Args) : bag (Network.init_lattice args) = [].
Proof.
  unfold bag. cbn.
  induction (Z.to_nat (arg_L args * arg_L args)) as [|n IH]; [done|].
  exact IH.
Qed.

Lemma init_lattice_census (args : Args) : census (Network.init_lattice args).
Proof.
  split; rewrite init_lattice_bag; [done|].
  intros c st Hc. cbn in Hc.
  assert (st = mkStat 0 0 0 0) as ->; [|done].
  rewrite !lookup_insert in Hc. repeat case_decide; by simplify_eq.
Qed.

Lemma init_lattice_locations (args : Args) :
  locations_consistent (Network.init_lattice args).
Proof.
  intros i l a Hl Ha. cbn in Hl.
  apply lookup_replicate in Hl as [-> _]. by apply elem_of_nil in Ha.
Qed.

Lemma init_inv fuel args g self g' :
  Network.init fuel args g = Ret self g' ->
  exists l g1,
    Network.choose_indices fuel (Network.init_lattice args) g = Ret l g1 /\
    for_each (py_range (Network.population (Network.init_lattice args)))
             (Network.place_agent l) (Network.init_lattice args) g1
    = Ret self g'.
Proof.
  unfold Network.init, Network.populate_lattice. intros H.
  apply bind_ret_inv in H as (l & g1 & Hl & H). by exists l, g1.
Qed.


(** A first draw that is not yet chosen is taken as it is. *)
Lemma choose_index_fresh fuel self l g :
  0 <= Network.population self ->
  let ind := stream g (pos g) mod (Network.population self + 1) in
  ind ∉ l ->
  Network.choose_index (S fuel) self l g = Ret (l ++ [ind]) (next g).
Proof.
  intros Hp ind Hnew. unfold Network.choose_index.
  destruct (randint_spec 0 (Network.population self) g) as [Hr _]; [done|].
  rewrite (bind_ret_eq _ _ _ _ _ Hr). cbn [Network.redraw].
  rewrite Z.add_0_l, Z.sub_0_r. fold ind.
  by rewrite bool_decide_eq_false_2.
Qed.

Lemma population_quarter_2x2 (rate : R) (cases : Z) :
  Network.population (Network.init_lattice (args_2x2 (1 / 4) rate cases)) = 1.
Proof.
  unfold Network.population. cbn.
  replace (IZR (2 * 2) * (1 / 4))%R with (IZR 1); [apply py_int_IZR|].
  change (2 * 2) with 4. lra.
Qed.

(** The network of the run of [seeded_first_step] is the one the
    constructor builds for a 2 x 2 lattice of density 1/4 and one initial
    case when the draws are 0 (the index of the case), 0 (the node) and 30
    (the raw age). *)
Lemma init_builds_one_seeded (fuel : nat) :
  Network.init (S fuel) (args_2x2 (1 / 4) 0 1) (playing [0; 0; 30] 0)
  = Ret one_seeded (after 3 (playing [0; 0; 30] 1)).
Proof.
  pose proof (population_quarter_2x2 0 1) as Hpop.
  assert (Network.choose_index (S fuel)
            (Network.init_lattice (args_2x2 (1 / 4) 0 1)) []
            (playing [0; 0; 30] 0)
          = Ret [0] (next (playing [0; 0; 30] 0))) as Hchoose.
  { rewrite choose_index_fresh; rewrite Hpop; [done..|apply not_elem_of_nil]. }
  unfold Network.init, Network.populate_lattice, Network.choose_indices.
  rewrite Hpop.
  change (py_range (n_0 _)) with [0]. change (py_range 1) with [0].
  cbn [for_each].
  by rewrite (bind_ret_eq _ _ _ _ _ (bind_ret_eq _ _ _ _ _ Hchoose)).
Qed.




(** *** The display *)

Lemma flag_step (P : Agent.t -> Prop) `{!forall a, Decision (P a)}
    (a : Agent.t) (l : list Agent.t) (flag : bool) :
  (if decide (P a) then true else flag) || bool_decide (Exists P l)
  = flag || bool_decide (Exists P (a :: l)).
Proof.
  destruct (decide (P a)) as [Ha|Ha]; destruct flag; cbn;
    repeat case_bool_decide; try done; exfalso;
    match goal with
    | H : ~ Exists _ (_ :: _) |- _ => rewrite Exists_cons in H; tauto
    | H : Exists _ (_ :: _) |- _ => apply Exists_cons in H; tauto
    end.
Qed.

Lemma node_flags_fold (l : list Agent.t) (flags : bool * bool * bool) :
  fold_left
    (fun (flags : bool * bool * bool) agent =>
       let lbl := (Agent.get_status agent).1 in
       (if decide (lbl = Asymptomatic) then true else flags.1.1,
        if decide (lbl = Symptomatic) then true else flags.1.2,
        if decide (lbl = Healthy) then true else flags.2))
    l flags
  = (flags.1.1
     || bool_decide (Exists (fun a => label (Agent.health_status a) = Asymptomatic) l),
     flags.1.2
     || bool_decide (Exists (fun a => label (Agent.health_status a) = Symptomatic) l),
     flags.2 || bool_decide (Exists is_healthy l)).
Proof.
  revert flags. induction l as [|a l IH]; intros [[fa fs] fh].
  - cbn. by rewrite !orb_false_r.
  - cbn [fold_left]. rewrite IH. cbn [fst snd Agent.get_status].
    by rewrite <- !flag_step.
Qed.

Lemma node_color_dominant {C} (color_map : Label -> C) (l : list Agent.t) :
  Network.node_color color_map l = color_map (dominant_label l).
Proof.
  unfold Network.node_color, Network.node_flags, dominant_label.
  rewrite node_flags_fold. cbn [fst snd orb].
  destruct l as [|a l]; cbn [length Nat.eqb].
  - repeat case_decide; try done;
      match goal with H : Exists _ [] |- _ => by apply Exists_nil in H end.
  - repeat case_decide; repeat case_bool_decide; done.
Qed.

Lemma node_counts_fold (l : list Agent.t) (counts : Z * Z) :
  fold_left
    (fun (counts : Z * Z) agent =>
       let lbl := (Agent.get_status agent).1 in
       if decide (lbl ∈ [Asymptomatic; Symptomatic])
       then (counts.1 + 1, counts.2)
       else if decide (lbl ∈ [Dead]) then (counts.1, counts.2 + 1)
       else counts)
    l counts
  = (counts.1 + tally is_infectious l, counts.2 + tally is_dead l).
Proof.
  revert counts. induction l as [|a l IH]; intros [ni nd].
  - unfold tally. cbn. f_equal; lia.
  - cbn [fold_left]. rewrite IH, !tally_cons.
    cbn [fst snd Agent.get_status].
    repeat case_decide; cbn [fst snd]; try (f_equal; lia); exfalso;
      unfold is_infectious, is_dead in *;
      repeat match goal with
      | H : context [_ ∈ _] |- _ =>
          progress rewrite ?elem_of_cons, ?elem_of_nil in H
      end;
      destruct (label (Agent.health_status a)); intuition congruence.
Qed.

Lemma tally_partition (l : list Agent.t) :
  Z.of_nat (length l)
  = tally is_infectious l + tally is_dead l + tally is_healthy l.
Proof.
  induction l as [|a l IH]; [done|].
  rewrite !tally_cons. cbn [length]. rewrite Nat2Z.inj_succ, IH.
  repeat case_decide; try lia; exfalso;
    unfold is_infectious, is_dead, is_healthy in *;
    destruct (label (Agent.health_status a)); intuition congruence.
Qed.

Lemma node_label_counts (l : list Agent.t) :
  Network.node_label l
  = if decide (l = []) then None
    else Some (tally is_infectious l, tally is_healthy l).
Proof.
  unfold Network.node_label, Network.node_counts.
  rewrite node_counts_fold. cbn [fst snd].
  destruct l as [|a l]; [done|].
  rewrite decide_False by done.
  change (0 <? length (a :: l))%nat with true. cbn match.
  rewrite (tally_partition (a :: l)). f_equal. f_equal; lia.
Qed.

(** *** The simulation loop *)

(** No phase adds a category to the counters. *)
Lemma step_shape_no_new_key self self' c :
  step_shape self self' ->
  Network.stats self !! c = None -> Network.stats self' !! c = None.
Proof.
  intros (s1 & s2 & s3 & s4 & H1 & H2 & H3 & H4 & ->).
  intros Hc. cbn.
  assert (Network.stats s1 !! c = None) as Hc1.
  { revert Hc. apply (rtc_keeps infection_event
                        (fun s => Network.stats s !! c = None)); [|done].
    intros x y (a & rest & st & _ & _ & _ & Hst & Hst' & _)%infection_event_view.
    intros Hx. rewrite Hst'. rewrite lookup_insert_ne; [done|].
    intros E. congruence. }
  assert (Network.stats s2 !! c = None) as Hc2.
  { revert Hc1. apply (rtc_keeps progress_event
                         (fun s => Network.stats s !! c = None)); [|done].
    intros x y (a & rest & _ & _ & Hcase & _)%progress_event_view Hx.
    destruct Hcase as [(_ & -> & _) | (_ & st & Hst & -> & _)]; [done|].
    rewrite lookup_insert_ne; [done|]. intros E. congruence. }
  assert (Network.stats s3 !! c = None) as Hc3.
  { destruct H3 as [-> | H3]; [done|].
    apply move_event_view in H3 as (_ & _ & _ & _ & _ & _ & -> & _). done. }
  destruct H4 as [-> | H4]; [done|].
  apply arrival_event_view in H4 as (_ & raw & _ & st & _ & Hst & -> & _).
  rewrite lookup_insert_ne; [done|]. intros E. congruence.
Qed.

Lemma record_point_inv key value points g points' g' :
  Network.record_point key value points g = Ret points' g' ->
  exists series, points !! key = Some series /\
    points' = <[key := series ++ [value]]> points /\ g' = g.
Proof.
  unfold Network.record_point, dict_get, bind, ret, raise.
  destruct (points !! key) as [series|]; [|done].
  intros [= <- <-]. by exists series.
Qed.

(** The loop over the entries of the counters appends to the series of each
    key the value of its entry. *)
Lemma record_series (xs : list (Z * Stat)) points g points' g' :
  NoDup xs.*1 ->
  for_each xs (fun kv => Network.record_point kv.1 (Network.plotted kv.2))
           points g = Ret points' g' ->
  g' = g /\
  forall k,
    points' !! k
    = (fun series =>
         series ++ option_list (Network.plotted <$>
                                  (list_to_map xs : gmap Z Stat) !! k))
      <$> points !! k.
Proof.
  revert points g. induction xs as [|[k0 st] xs IH]; intros points g Hnd H.
  - injection H as <- <-. split; [done|]. intros k. cbn.
    rewrite lookup_empty. cbn.
    destruct (points !! k); cbn; [by rewrite app_nil_r|done].
  - rewrite fmap_cons in Hnd. apply NoDup_cons in Hnd as [Hk0 Hnd].
    cbn [for_each] in H. apply bind_ret_inv in H as (p1 & g1 & H1 & H).
    cbn [fst snd] in H1.
    apply record_point_inv in H1 as (series & Hs & -> & ->).
    apply IH in H as [-> Hk]; [|done]. split; [done|]. intros k. rewrite Hk.
    cbn [list_to_map foldr fst snd uncurry].
    destruct (decide (k = k0)) as [->|E].
    + rewrite !lookup_insert_eq, Hs. cbn.
      rewrite (not_elem_of_list_to_map_1 _ _ Hk0). cbn.
      by rewrite app_nil_r.
    + by rewrite !lookup_insert_ne.
Qed.

Lemma record_points_inv self points g points' g' :
  Network.record_points self points g = Ret points' g' ->
  Network.stats self !! 0 = None ->
  g' = g /\
  exists sum, forall k,
    points' !! k
    = (fun series =>
         series ++ (if decide (k = 0) then [sum]
                    else option_list (Network.plotted <$>
                                        Network.stats self !! k)))
      <$> points !! k.
Proof.
  unfold Network.record_points. intros H H0.
  apply bind_ret_inv in H as (p1 & g1 & H1 & H).
  apply record_series in H1 as [-> Hk]; [|apply NoDup_fst_map_to_list].
  apply record_point_inv in H as (series & Hs & -> & ->).
  split; [done|]. eexists. intros k.
  rewrite list_to_map_to_list in Hk.
  case_decide as E.
  - subst k. rewrite lookup_insert_eq. rewrite Hk, H0 in Hs. cbn in Hs.
    destruct (points !! 0) as [s0|]; [|done]. cbn in *.
    rewrite app_nil_r in Hs. by injection Hs as <-.
  - by rewrite lookup_insert_ne, Hk.
Qed.

Lemma run_simulation_effect fuel rounds sim g sim' g' :
  Network.run_simulation fuel rounds sim g = Ret sim' g' ->
  Network.stats (Network.network sim) !! 0 = None ->
  let n := Z.max 0 (time_steps (Network.network_params (Network.network sim))
                    - Network.time_elapsed (Network.network sim)) in
  rtc step_shape (Network.network sim) (Network.network sim') /\
  Network.time_elapsed (Network.network sim')
  = Network.time_elapsed (Network.network sim) + n /\
  (n = 0 -> sim' = sim) /\
  forall k series, Network.plot_points sim !! k = Some series ->
    exists new,
      Network.plot_points sim' !! k = Some (series ++ new) /\
      (k = 0 \/ is_Some (Network.stats (Network.network sim) !! k) ->
       Z.of_nat (length new) = n) /\
      (k <> 0 -> 0 < n ->
       forall st, Network.stats (Network.network sim') !! k = Some st ->
         last new = Some (Network.plotted st)).
Proof.
  revert sim g. induction rounds as [|rounds IH]; intros sim g H H0; [done|].
  cbn [Network.run_simulation] in H.
  destruct (Z.ltb_spec (Network.time_elapsed (Network.network sim))
              (time_steps (Network.network_params (Network.network sim))))
    as [Hlt|Hge].
  - apply bind_ret_inv in H as (self1 & g1 & Hstep & H).
    apply bind_ret_inv in H as (points1 & g2 & Hrec & H).
    apply timestep_shape in Hstep.
    pose proof (step_shape_no_new_key _ _ 0 Hstep H0) as H01.
    destruct (step_shape_frame _ _ Hstep)
      as ((Hnp & _ & _) & _ & Hgrow & _ & Htime).
    apply record_points_inv in Hrec as [-> (sum & Hpoints)]; [|done].
    apply IH in H; [|done]. cbn [Network.network Network.plot_points] in H.
    destruct H as (Hsteps & Ht' & Hsame & Hseries).
    rewrite <- Hnp, Htime in *.
    split; [by eapply rtc_l|]. split; [lia|]. split; [lia|].
    intros k series Hk. specialize (Hpoints k). rewrite Hk in Hpoints.
    cbn in Hpoints.
    destruct (Hseries k _ Hpoints) as (new & Hnew & Hlen & Hlast).
    eexists. split; [by rewrite Hnew, <- app_assoc|]. split.
    + intros Hkey. rewrite length_app, Nat2Z.inj_add, Hlen.
      * case_decide; [cbn; lia|]. destruct Hkey as [?|[st Hst]]; [done|].
        destruct (Hgrow _ _ Hst) as (st' & -> & _). cbn. lia.
      * destruct Hkey as [?|[st Hst]]; [by left|right].
        destruct (Hgrow _ _ Hst) as (st' & -> & _). by eexists.
    + intros Hne _ st Hst. rewrite decide_False in * by done.
      destruct (decide (time_steps (Network.network_params (Network.network sim))
                        - (Network.time_elapsed (Network.network sim) + 1) <= 0))
        as [Hend|Hmore].
      * rewrite Hsame in * by lia. cbn in Hst, Hnew. rewrite Hst. cbn.
        rewrite Hpoints in Hnew. injection Hnew as Hnew.
        rewrite <- (app_nil_r (series ++ _)) in Hnew at 1.
        apply app_inv_head in Hnew. by rewrite <- Hnew.
      * specialize (Hlast Hne ltac:(lia) st Hst).
        destruct new as [|x new]; [done|].
        rewrite last_app. by rewrite Hlast.
  - injection H as <- <-. rewrite Z.max_l by lia.
    split; [done|]. split; [lia|]. split; [done|].
    intros k series Hk. exists []. rewrite app_nil_r. split; [done|].
    split; [done|lia].
Qed.

Lemma infectious_tally (c : Z) (l : list Agent.t) :
  tally (fun a => in_category c a /\ ~ is_healthy a) l
  - tally (fun a => in_category c a /\ is_dead a) l
  = tally (fun a => in_category c a /\ is_infectious a) l.
Proof.
  induction l as [|a l IH]; [done|].
  rewrite !tally_cons, <- IH.
  repeat case_decide; try lia; exfalso;
    unfold in_category, is_healthy, is_dead, is_infectious in *;
    destruct (label (Agent.health_status a)); intuition congruence.
Qed.

(** With counters that agree with the lattice, the value recorded for a
    category is the number of its agents that are infected and alive. *)
Lemma census_plotted self c st :
  census self -> Network.stats self !! c = Some st ->
  Network.plotted st
  = tally (fun a => in_category c a /\ is_infectious a) (bag self).
Proof.
  intros [_ Hall] Hst. destruct (Hall c st Hst) as (_ & _ & Hd & Hi).
  unfold Network.plotted. by rewrite Hd, Hi, infectious_tally.
Qed.

Lemma place_agents_keys l xs self g self' g' c :
  for_each xs (Network.place_agent l) self g = Ret self' g' ->
  (Network.stats self !! c = None -> Network.stats self' !! c = None) /\
  (is_Some (Network.stats self !! c) -> is_Some (Network.stats self' !! c)).
Proof.
  revert self g. induction xs as [|i xs IH]; intros self g H; cbn in H.
  - by injection H as <- <-.
  - apply bind_ret_inv in H as (s1 & g1 & H1 & H).
    apply IH in H as [Hnone Hsome].
    apply place_agent_inv in H1
      as (s & l0 & st & ident & raw & _ & _ & Hst & ->).
    split; intros Hc.
    + apply Hnone. case_bool_decide; cbn;
        (rewrite lookup_insert_ne; [done|intros E; congruence]).
    + apply Hsome. case_bool_decide; cbn; rewrite lookup_insert;
        by case_decide.
Qed.

(** *** A lattice of a single node *)

Lemma check_for_movement_alone fuel self l g :
  num_nodes (Network.network_params self) = 1 ->
  occupants (Network.lattice self) !! 0%nat = Some l -> l <> [] ->
  neighbors (Network.lattice self) 0%nat = [] ->
  Network.check_for_movement (S fuel) self g = Raise ValueError.
Proof.
  intros Hn Hl Hne Hnb. unfold Network.check_for_movement.
  assert (randint 0 (num_nodes (Network.network_params self) - 1) g
          = Ret 0 (next g)) as Hr.
  { rewrite Hn. destruct (randint_spec 0 (1 - 1) g) as [-> _]; [done|].
    change (1 - 1 - 0 + 1) with 1. by rewrite Z.mod_1_r. }
  rewrite (bind_ret_eq _ _ _ _ _ Hr).
  change (Z.to_nat 0) with 0%nat.
  assert (Network.find_occupied (S fuel) self 0 (next g) = Ret 0%nat (next g))
    as Hfind.
  { cbn [Network.find_occupied].
    rewrite (bind_ret_eq _ _ _ _ _ (node_occupants_lookup _ _ _ _ Hl)).
    by destruct l. }
  by rewrite (bind_ret_eq _ _ _ _ _ Hfind), Hnb.
Qed.

Lemma timestep_alone fuel self l g :
  well_formed self ->
  num_nodes (Network.network_params self) = 1 ->
  occupants (Network.lattice self) !! 0%nat = Some l -> l <> [] ->
  neighbors (Network.lattice self) 0%nat = [] ->
  Network.timestep (S fuel) self g = Raise ValueError.
Proof.
  intros Hwf Hn Hl Hne Hnb. unfold Network.timestep.
  destruct (check_for_infection_returns self g Hwf) as (s1 & g1 & H1 & Hev1).
  rewrite (bind_ret_eq _ _ _ _ _ H1).
  assert (quiet self s1) as Hq1 by by apply (rtc_quiet _ infection_quiet).
  pose proof (quiet_keeps_well_formed _ _ Hq1 Hwf) as Hwf1.
  destruct (check_for_death_returns s1 g1 Hwf1) as (s2 & g2 & H2 & Hev2).
  rewrite (bind_ret_eq _ _ _ _ _ H2).
  assert (quiet s1 s2) as Hq2 by by apply (rtc_quiet _ progress_quiet).
  destruct (quiet_trans _ _ _ Hq1 Hq2) as ((Hnp & _ & Hnbrs) & _).
  assert (same_shape self s2) as Hsh.
  { unfold same_shape.
    rewrite (rtc_shape _ infection_event_shape _ _ Hev1).
    apply (rtc_shape _ progress_event_shape _ _ Hev2). }
  destruct (same_shape_lookup _ _ _ _ Hsh Hl) as (l2 & Hl2 & Hlen).
  unfold bind at 1.
  rewrite (check_for_movement_alone fuel s2 l2 g2); [done| | | |].
  - by rewrite <- Hnp.
  - done.
  - destruct l2; [destruct l; done|done].
  - by rewrite <- Hnbrs.
Qed.

(** *** Two runs from the constructor on *)

Lemma population_unit_density (args : Args) :
  arg_N args = 1%R ->
  Network.population (Network.init_lattice args) = arg_L args * arg_L args.
Proof.
  intros HN. unfold Network.population. cbn. rewrite HN, Rmult_1_r.
  apply py_int_IZR.
Qed.

Lemma population_quarter (args : Args) :
  arg_L args = 2 -> arg_N args = (1 / 4)%R ->
  Network.population (Network.init_lattice args) = 1.
Proof.
  intros HL HN. unfold Network.population. cbn. rewrite HL, HN.
  replace (IZR (2 * 2) * (1 / 4))%R with (IZR 1); [apply py_int_IZR|].
  change (2 * 2) with 4. lra.
Qed.

Lemma init_builds_alone (fuel : nat) :
  Network.init fuel args_1x1 (playing [0; 30] 0)
  = Ret alone (after 2 (playing [0; 30] 1)).
Proof.
  unfold Network.init, Network.populate_lattice, Network.choose_indices.
  rewrite (population_unit_density args_1x1) by done.
  reflexivity.
Qed.

Lemma short_init (fuel : nat) :
  Network.init (S fuel) args_one_step short_stream
  = Ret (short_run Asymptomatic 0 0) (after 3 (playing [0; 0; 30; 0; 1; 0; 0] 1)).
Proof.
  pose proof (population_quarter args_one_step eq_refl eq_refl) as Hpop.
  assert (Network.choose_index (S fuel) (Network.init_lattice args_one_step) []
            short_stream
          = Ret [0] (next short_stream)) as Hchoose.
  { rewrite choose_index_fresh; rewrite Hpop; [done..|apply not_elem_of_nil]. }
  unfold Network.init, Network.populate_lattice, Network.choose_indices.
  rewrite Hpop.
  change (py_range (n_0 _)) with [0]. change (py_range 1) with [0].
  cbn [for_each].
  by rewrite (bind_ret_eq _ _ _ _ _ (bind_ret_eq _ _ _ _ _ Hchoose)).
Qed.

Lemma short_step (fuel : nat) :
  Network.timestep (S fuel) (short_run Asymptomatic 0 0)
                   (after 3 (playing [0; 0; 30; 0; 1; 0; 0] 1))
  = Ret (short_run Symptomatic 1 1) (after 7 (playing [0; 0; 30; 0; 1; 0; 0] 1)).
Proof.
  set (g := playing [0; 0; 30; 0; 1; 0; 0] 1).
  rewrite (timestep_steps (S fuel) (short_run Asymptomatic 0 0) (after 3 g)
             (short_run Asymptomatic 0 0) (after 3 g)
             (short_run Symptomatic 1 0) (after 3 g)
             (short_run Symptomatic 1 0) (after 6 g)
             (short_run Symptomatic 1 0) (after 7 g));
    try reflexivity.
  by apply check_for_influx_rate_0.
Qed.

Lemma short_simulation (fuel rounds : nat) :
  Network.run_simulation (S fuel) (S (S rounds))
    (Network.mkSimulation (short_run Asymptomatic 0 0)
       (list_to_map ((fun i => (i, [])) <$> [0; 1; 2; 3; 4])))
    (after 3 (playing [0; 0; 30; 0; 1; 0; 0] 1))
  = Ret (Network.mkSimulation (short_run Symptomatic 1 1) short_points)
        (after 7 (playing [0; 0; 30; 0; 1; 0; 0] 1)).
Proof.
  cbn [Network.run_simulation Network.network Network.plot_points].
  change (Network.time_elapsed (short_run Asymptomatic 0 0) <? _) with true.
  cbn match.
  rewrite (bind_ret_eq _ _ _ _ _ (short_step fuel)).
  reflexivity.
Qed.

Lemma short_main (fuel rounds : nat) :
  main (S fuel) (S (S rounds)) args_one_step short_stream
  = Ret (Network.mkSimulation (short_run Symptomatic 1 1) short_points)
        (after 7 (playing [0; 0; 30; 0; 1; 0; 0] 1)).
Proof.
  unfold main. rewrite (bind_ret_eq _ _ _ _ _ (short_init fuel)).
  apply short_simulation.
Qed.

Lemma init_state fuel args g self g' :
  Network.init fuel args g = Ret self g' ->
  census self /\ locations_consistent self /\
  same_settings (Network.init_lattice args) self /\
  Network.time_elapsed self = 0 /\
  (1 <= arg_L args -> well_formed self) /\
  (2 <= arg_L args -> linked self) /\
  Network.stats self !! 0 = None.
Proof.
  intros (l & g1 & _ & Hrun)%init_inv.
  pose proof (place_agents_keys _ _ _ _ _ _ 0 Hrun) as [Hnone _].
  apply place_agents_effect in Hrun
    as (Hc & Hw & Hl & Hs & Ht & _ & _).
  split; [apply Hc, init_lattice_census|].
  split; [apply Hl, init_lattice_locations|].
  split; [done|]. split; [done|].
  split; [intros HL; by apply Hw, init_lattice_well_formed|].
  split; [|by apply Hnone].
  intros HL i Hi.
  assert (well_formed self) as Hwf
    by (apply Hw, init_lattice_well_formed; lia).
  destruct Hs as (Hnp & _ & Hnb). rewrite <- Hnb.
  apply (init_lattice_linked args HL).
  rewrite (wf_length _ Hwf), <- Hnp in Hi.
  by rewrite (wf_length _ (init_lattice_well_formed args ltac:(lia))).
Qed.

Lemma well_formed_counted self : well_formed self -> counted self.
Proof. intros Hwf i l a Hl Ha. by eapply well_formed_counter. Qed.

Lemma find_destination_some self nbrs fuel s2 c g s g' :
  Network.find_destination fuel self nbrs s2 c g = Ret (Some s) g' ->
  exists l, occupants (Network.lattice self) !! s = Some l /\
            Network.scan_symptomatic l = false.
Proof.
  revert s2 c g. induction fuel as [|fuel IH]; intros s2 c g H; [done|].
  cbn [Network.find_destination] in H.
  destruct (30 <? c); [done|].
  apply bind_ret_inv in H as (l & g1 & Hl & H).
  unfold Network.node_occupants in Hl.
  destruct (occupants (Network.lattice self) !! s2) as [l'|] eqn:E; [|done].
  injection Hl as -> ->.
  destruct (Network.scan_symptomatic l) eqn:Hscan.
  - apply bind_ret_inv in H as (s3 & g2 & _ & H). by eapply IH.
  - injection H as <- <-. by exists l.
Qed.


Lemma rtc_step_shape_keeps self self' :
  rtc step_shape self self' ->
  (census self -> census self') /\
  (forall c, is_Some (Network.stats self !! c) ->
             is_Some (Network.stats self' !! c)).
Proof.
  intros H. induction H as [|x y z Hxy _ [IHc IHk]]; [done|]. split.
  - intros Hc. by eapply IHc, step_shape_keeps_census.
  - intros c [st Hst]. apply IHk.
    destruct (step_shape_frame _ _ Hxy) as (_ & _ & Hgrow & _).
    destruct (Hgrow c st Hst) as (st' & -> & _). by eexists.
Qed.

(** *** The class counter of the identifiers *)

Lemma keeps_counter_ret {A} (a : A) : keeps_counter (ret a).
Proof. by intros g b g' [= _ <-]. Qed.

Lemma keeps_counter_bind {A B} (m : M A) (k : A -> M B) :
  keeps_counter m -> (forall a, keeps_counter (k a)) ->
  keeps_counter (bind m k).
Proof.
  intros Hm Hk g b g' (a & g1 & H1 & H2)%bind_ret_inv.
  rewrite (Hk _ _ _ _ H2). by eapply Hm.
Qed.

Lemma keeps_counter_randint (a b : Z) : keeps_counter (randint a b).
Proof.
  intros g x g'. unfold randint. case_match; [done|]. by intros [= _ <-].
Qed.

Lemma keeps_counter_dict_get {V} (d : gmap Z V) k : keeps_counter (dict_get d k).
Proof. intros g x g'. unfold dict_get. case_match; [|done]. by intros [= _ <-]. Qed.

Lemma keeps_counter_list_get {V} (l : list V) k : keeps_counter (list_get l k).
Proof. intros g x g'. unfold list_get. case_match; [|done]. by intros [= _ <-]. Qed.

Lemma keeps_counter_for_each {X S} (xs : list X) (body : X -> S -> M S) s :
  (forall x s, keeps_counter (body x s)) -> keeps_counter (for_each xs body s).
Proof.
  intros Hbody. revert s. induction xs as [|x xs IH]; intros s; cbn.
  - apply keeps_counter_ret.
  - apply keeps_counter_bind; [apply Hbody|apply IH].
Qed.

Lemma keeps_counter_node_occupants self i :
  keeps_counter (Network.node_occupants self i).
Proof.
  intros g x g'. unfold Network.node_occupants. case_match; [|done].
  by intros [= _ <-].
Qed.

Lemma keeps_counter_bump_stat f key self :
  keeps_counter (Network.bump_stat f key self).
Proof.
  apply keeps_counter_bind; [apply keeps_counter_dict_get|].
  intros; apply keeps_counter_ret.
Qed.

Ltac keeps_counter :=
  repeat first
    [ apply keeps_counter_ret
    | apply keeps_counter_randint
    | apply keeps_counter_dict_get
    | apply keeps_counter_list_get
    | apply keeps_counter_node_occupants
    | apply keeps_counter_bump_stat
    | apply keeps_counter_for_each; intros
    | apply keeps_counter_bind; [|intros]
    | match goal with
      | |- keeps_counter (if ?c then _ else _) => destruct c
      | |- keeps_counter (match ?c with _ => _ end) => destruct c
      end ].

Lemma keeps_counter_check_for_infection self :
  keeps_counter (Network.check_for_infection self).
Proof.
  unfold Network.check_for_infection, Network.infect_from_node,
    Network.spread_from, Network.expose_node, Network.expose_occupant,
    Network.occupant, Agent.expose_to_infection.
  keeps_counter.
Qed.

Lemma keeps_counter_check_for_death self :
  keeps_counter (Network.check_for_death self).
Proof.
  unfold Network.check_for_death, Network.update_node,
    Network.update_occupant, Network.occupant.
  keeps_counter.
Qed.

Lemma keeps_counter_find_occupied fuel self s :
  keeps_counter (Network.find_occupied fuel self s).
Proof.
  revert s. induction fuel as [|fuel IH]; intros s; [by intros g a g'|].
  cbn [Network.find_occupied]. keeps_counter. apply IH.
Qed.

Lemma keeps_counter_find_destination fuel self nbrs s c :
  keeps_counter (Network.find_destination fuel self nbrs s c).
Proof.
  revert s c. induction fuel as [|fuel IH]; intros s c; [by intros g a g'|].
  cbn [Network.find_destination]. unfold Network.random_neighbor.
  keeps_counter. apply IH.
Qed.

Lemma keeps_counter_check_for_movement fuel self :
  keeps_counter (Network.check_for_movement fuel self).
Proof.
  unfold Network.check_for_movement.
  apply keeps_counter_bind; [apply keeps_counter_randint|intros s].
  apply keeps_counter_bind; [apply keeps_counter_find_occupied|intros s1].
  apply keeps_counter_bind;
    [unfold Network.random_neighbor; keeps_counter|intros s2].
  apply keeps_counter_bind; [apply keeps_counter_find_destination|intros d].
  destruct d; [|apply keeps_counter_ret].
  unfold Network.attempt_move, Network.pop_append, Network.occupant,
    Agent.move_agent.
  keeps_counter.
Qed.

Lemma add_agent_ids self g self' g' :
  Network.add_agent self g = Ret self' g' ->
  exists a, bag self' ≡ₚ a :: bag self /\ Agent.id a = agent_id g /\
            agent_id g' = agent_id g + 1.
Proof.
  unfold Network.add_agent. intros H.
  apply bind_ret_inv in H as (s & g1 & Hs & H).
  apply keeps_counter_randint in Hs as Hg1.
  apply bind_ret_inv in H as (a & g2 & Ha & H).
  rewrite agent_init_spec in Ha. injection Ha as <- <-.
  apply bind_ret_inv in H as (s1 & g3 & Happ & H).
  unfold Network.append_occupant in Happ. cbn in Happ.
  apply bind_ret_inv in Happ as (l0 & g4 & Hl0 & Happ).
  unfold Network.node_occupants in Hl0.
  destruct (occupants (Network.lattice self) !! Z.to_nat s) as [l1|] eqn:El;
    [|done].
  injection Hl0 as <- <-. injection Happ as <- <-.
  apply bind_ret_inv in H as (s2 & g5 & Hb1 & Hb2).
  apply bump_stat_inv in Hb1 as (st1 & _ & -> & ->).
  apply bump_stat_inv in Hb2 as (st2 & _ & -> & ->).
  eexists. split; [|split].
  - unfold bag. cbn. by eapply bag_append.
  - cbn. done.
  - cbn. lia.
Qed.

Lemma check_for_influx_ids self g self' g' :
  Network.check_for_influx self g = Ret self' g' ->
  (bag self' = bag self /\ agent_id g' = agent_id g) \/
  (exists a, bag self' ≡ₚ a :: bag self /\ Agent.id a = agent_id g /\
             agent_id g' = agent_id g + 1).
Proof.
  unfold Network.check_for_influx. intros H.
  apply bind_ret_inv in H as (d & g1 & Hd & H).
  apply keeps_counter_randint in Hd as Hg1.
  destruct (Rlt_dec _ _).
  - right. apply add_agent_ids in H as (a & Hb & Ha & Hg).
    exists a. rewrite <- Hg1. done.
  - left. injection H as <- <-. done.
Qed.

Lemma place_agent_ids l i self g self' g' :
  Network.place_agent l i self g = Ret self' g' ->
  exists a, bag self' ≡ₚ a :: bag self /\ Agent.id a = agent_id g /\
            agent_id g' = agent_id g + 1.
Proof.
  unfold Network.place_agent. intros H.
  apply bind_ret_inv in H as (s & g1 & Hs & H).
  apply keeps_counter_randint in Hs as Hg1.
  apply bind_ret_inv in H as (a & g2 & Ha & H).
  rewrite agent_init_spec in Ha. injection Ha as <- <-.
  apply bind_ret_inv in H as (r & g3 & Hr & H).
  assert (Agent.id r.1 = agent_id g /\ g3 = mkGlobals (stream g1) (S (pos g1)) (agent_id g1 + 1) /\
          occupants (Network.lattice r.2) = occupants (Network.lattice self))
    as (Hid & -> & Hocc).
  { case_bool_decide.
    - apply bind_ret_inv in Hr as (s1 & g4 & Hb & Hr).
      apply bump_stat_inv in Hb as (st & _ & -> & ->).
      injection Hr as <- <-. cbn. by rewrite Hg1.
    - injection Hr as <- <-. cbn. by rewrite Hg1. }
  apply bind_ret_inv in H as (s1 & g4 & Happ & H).
  unfold Network.append_occupant in Happ.
  apply bind_ret_inv in Happ as (n & g5 & Hn & Happ).
  apply bind_ret_inv in Happ as (l0 & g6 & Hl0 & Happ).
  injection Happ as <- <-.
  unfold Network.node_occupants in Hl0. rewrite Hocc in Hl0.
  destruct (occupants (Network.lattice self) !! n) as [l1|] eqn:El; [|done].
  injection Hl0 as <- <-.
  assert (g5 = mkGlobals (stream g1) (S (pos g1)) (agent_id g1 + 1)) as ->.
  { unfold Network.node_index in Hn. destruct (Agent.get_location r.1);
      [by injection Hn|done]. }
  apply bind_ret_inv in H as (s2 & g7 & Hb1 & Hb2).
  apply bump_stat_inv in Hb1 as (st1 & _ & -> & ->).
  apply bump_stat_inv in Hb2 as (st2 & _ & -> & ->).
  exists r.1. split; [|split; [done|cbn; lia]].
  unfold bag. cbn. rewrite Hocc. by eapply bag_append.
Qed.

Lemma ids_fresh_perm g g' self self' (new : list Agent.t) :
  bag self' ≡ₚ new ++ bag self ->
  agent_id g <= agent_id g' ->
  NoDup (Agent.id <$> new) ->
  (forall a, a ∈ new -> agent_id g <= Agent.id a < agent_id g') ->
  ids_fresh g self -> ids_fresh g' self'.
Proof.
  intros Hb Hg Hnd Hnew [Hnd0 Hlt]. split.
  - rewrite Hb, fmap_app. apply NoDup_app. split; [done|]. split; [|done].
    intros x (a & -> & Ha)%list_elem_of_fmap (b & E & Hb')%list_elem_of_fmap.
    specialize (Hnew a Ha). specialize (Hlt b Hb'). lia.
  - intros a Ha. rewrite Hb in Ha. apply elem_of_app in Ha as [Ha|Ha].
    + specialize (Hnew a Ha). lia.
    + specialize (Hlt a Ha). lia.
Qed.

Lemma quiet_bag_ids self self' :
  quiet self self' -> Agent.id <$> bag self' ≡ₚ Agent.id <$> bag self.
Proof.
  intros (_ & _ & _ & Hroll & _). unfold roll in Hroll.
  apply (fmap_Permutation fst) in Hroll.
  by rewrite <- !list_fmap_compose in Hroll.
Qed.

Lemma ids_fresh_quiet g self self' :
  quiet self self' -> ids_fresh g self -> ids_fresh g self'.
Proof.
  intros Hids%quiet_bag_ids [Hnd Hlt]. split; [by rewrite Hids|].
  intros a Ha.
  assert (Agent.id a ∈ Agent.id <$> bag self') as Hin
    by by apply list_elem_of_fmap_2.
  rewrite Hids in Hin. apply list_elem_of_fmap in Hin as (b & -> & Hb).
  by apply Hlt.
Qed.

Lemma timestep_ids fuel self g self' g' :
  Network.timestep fuel self g = Ret self' g' ->
  ids_fresh g self ->
  ids_fresh g' self' /\ agent_id g <= agent_id g' <= agent_id g + 1.
Proof.
  unfold Network.timestep. intros H Hids.
  apply bind_ret_inv in H as (s1 & g1 & H1 & H).
  apply bind_ret_inv in H as (s2 & g2 & H2 & H).
  apply bind_ret_inv in H as (s3 & g3 & H3 & H).
  apply bind_ret_inv in H as (s4 & g4 & H4 & H).
  injection H as <- <-.
  pose proof (keeps_counter_check_for_infection _ _ _ _ H1) as Hg1.
  pose proof (keeps_counter_check_for_death _ _ _ _ H2) as Hg2.
  pose proof (keeps_counter_check_for_movement _ _ _ _ _ H3) as Hg3.
  apply check_for_infection_events, (rtc_quiet _ infection_quiet) in H1.
  apply check_for_death_events, (rtc_quiet _ progress_quiet) in H2.
  assert (quiet s2 s3) as Hq3.
  { destruct (check_for_movement_events _ _ _ _ _ H3) as [-> | Hm];
      [apply quiet_refl|by apply move_quiet]. }
  assert (ids_fresh g3 s3) as [Hnd3 Hlt3].
  { apply (ids_fresh_quiet _ s2); [done|].
    apply (ids_fresh_quiet _ s1); [done|].
    apply (ids_fresh_quiet _ self); [done|].
    destruct Hids as [Hnd Hlt]. split; [done|].
    intros a Ha. rewrite Hg3, Hg2, Hg1. by apply Hlt. }
  change (bag (Network.set_time_elapsed s4 _)) with (bag s4).
  unfold ids_fresh.
  change (bag (Network.set_time_elapsed s4 (Network.time_elapsed s4 + 1)))
    with (bag s4).
  destruct (check_for_influx_ids _ _ _ _ H4)
    as [[-> Hg4] | (a & Hb & Ha & Hg4)].
  - split; [split; [done|]|lia].
    intros a Ha. rewrite Hg4. by apply Hlt3.
  - split; [|lia]. split.
    + rewrite Hb, fmap_cons. apply NoDup_cons. split; [|done].
      intros (b & E & Hb')%list_elem_of_fmap. specialize (Hlt3 b Hb'). lia.
    + intros b Hb'. rewrite Hb in Hb'.
      apply elem_of_cons in Hb' as [-> | Hb']; [lia|].
      specialize (Hlt3 b Hb'). lia.
Qed.

Lemma keeps_counter_redraw fuel self l ind :
  keeps_counter (Network.redraw fuel self l ind).
Proof.
  revert ind. induction fuel as [|fuel IH]; intros ind; [by intros g a g'|].
  cbn [Network.redraw]. keeps_counter. apply IH.
Qed.

Lemma keeps_counter_choose_indices fuel self :
  keeps_counter (Network.choose_indices fuel self).
Proof.
  unfold Network.choose_indices, Network.choose_index.
  keeps_counter. apply keeps_counter_redraw.
Qed.

Lemma place_agents_ids l xs self g self' g' :
  for_each xs (Network.place_agent l) self g = Ret self' g' ->
  agent_id g' = agent_id g + Z.of_nat (length xs) /\
  exists new, bag self' ≡ₚ new ++ bag self /\
    Agent.id <$> new
    ≡ₚ (fun k => agent_id g + Z.of_nat k) <$> seq 0 (length xs).
Proof.
  revert self g. induction xs as [|i xs IH]; intros self g H; cbn in H.
  - injection H as <- <-. split; [cbn; lia|]. by exists [].
  - apply bind_ret_inv in H as (s1 & g1 & H1 & H).
    apply place_agent_ids in H1 as (a & Hb1 & Ha & Hg1).
    apply IH in H as (Hg & new & Hb & Hnew).
    split; [cbn [length]; lia|].
    exists (a :: new). split.
    + rewrite Hb, Hb1. cbn. by rewrite Permutation_middle.
    + cbn [length seq]. rewrite !fmap_cons, Ha, Hnew, Z.add_0_r.
      apply Permutation_skip. rewrite <- fmap_S_seq, <- list_fmap_compose.
      apply Permutation_refl'. apply list_fmap_ext. intros _ k _. cbn.
      rewrite Hg1. lia.
Qed.

Lemma init_ids fuel args g self g' :
  Network.init fuel args g = Ret self g' ->
  let size := Z.max 0 (Network.population (Network.init_lattice args)) in
  ids_fresh g' self /\
  agent_id g' = agent_id g + size /\
  Agent.id <$> bag self ≡ₚ (fun i => agent_id g + i) <$> py_range size.
Proof.
  intros (l & g1 & Hl & Hrun)%init_inv size.
  apply keeps_counter_choose_indices in Hl.
  apply place_agents_ids in Hrun as (Hg & new & Hb & Hnew).
  rewrite init_lattice_bag, app_nil_r in Hb.
  rewrite length_py_range, Hl in Hg, Hnew.
  assert (Agent.id <$> bag self
          ≡ₚ (fun i => agent_id g + i) <$> py_range size) as Hids.
  { rewrite Hb, Hnew. unfold py_range. rewrite <- list_fmap_compose.
    replace (Z.to_nat size)
      with (Z.to_nat (Network.population (Network.init_lattice args)))
      by (unfold size; lia).
    done. }
  split; [|split; [unfold size; lia|done]].
  split.
  - rewrite Hids.
    assert (Inj (=) (=) (fun i : Z => agent_id g + i)) by (intros x y ?; lia).
    apply (NoDup_fmap_2 _). unfold py_range.
    apply (NoDup_fmap_2 _), NoDup_seq.
  - intros a Ha.
    assert (Agent.id a ∈ Agent.id <$> bag self) as Hin
      by by apply list_elem_of_fmap_2.
    rewrite Hids in Hin.
    apply list_elem_of_fmap in Hin as (i & -> & Hi%elem_of_py_range).
    unfold size in *. lia.
Qed.


(** *** The simulation raises no exception *)





(** *** No transmission at rate 0 *)

Lemma expose_rate_0 a g r g' :
  Agent.expose_to_infection a 0 g = Ret r g' -> r = (false, a).
Proof.
  unfold Agent.expose_to_infection. case_decide as Hh; [|by intros [= <- _]].
  intros (d & g1 & Hd & H)%bind_ret_inv.
  destruct (Rle_dec _ _) as [Hle|_]; [|by injection H as <- _].
  exfalso. unfold randint in Hd. cbn in Hd. injection Hd as <- _.
  pose proof (Z.mod_pos_bound (stream g (pos g)) (100 - 1 + 1) ltac:(lia)).
  assert (1 <= IZR (1 + stream g (pos g) mod (100 - 1 + 1)))%R
    by (apply IZR_le; lia).
  lra.
Qed.

Lemma for_each_fixed {X} (xs : list X) (body : X -> Network.t -> M Network.t)
    (self : Network.t) :
  (forall x g s' g', body x self g = Ret s' g' -> s' = self) ->
  forall g s' g', for_each xs body self g = Ret s' g' -> s' = self.
Proof.
  intros Hbody g s' g'.
  apply (for_each_inv (fun s => s = self)); [|done].
  intros x s1 g1 s2 g2 _ -> H. by eapply Hbody.
Qed.

Lemma check_for_infection_rate_0 self g self' g' :
  lambda (Network.agent_params self) = 0%R ->
  Network.check_for_infection self g = Ret self' g' -> self' = self.
Proof.
  intros Hlam. unfold Network.check_for_infection.
  apply for_each_fixed. intros node g1 s1 g2 H.
  unfold Network.infect_from_node in H. monad_inv. revert H.
  apply for_each_fixed. intros k g3 s3 g4 H.
  unfold Network.spread_from in H. monad_inv; [|done]. revert H.
  apply for_each_fixed. intros nb g5 s5 g6 H.
  unfold Network.expose_node in H. monad_inv. revert H.
  apply for_each_fixed. intros o g7 s7 g8 H.
  unfold Network.expose_occupant in H. rewrite Hlam in H.
  apply bind_ret_inv in H as (a & g9 & Ha & H).
  apply bind_ret_inv in H as (r & g10 & Hr & H).
  apply expose_rate_0 in Hr as ->. cbn [fst snd] in H.
  injection H as <- _.
  unfold Network.occupant in Ha. monad_inv.
  by eapply store_occupant_same.
Qed.

(** ** The further properties of the engine *)

(** *** One time step *)


(** X9.  A time step that returns keeps the parameters, the graph and the
    number of nodes; every category keeps its counters and none of [total],
    [dead] and [infected] goes down; every agent stays on the lattice with
    its identifier and its category, and at most one agent is added; the
    clock advances by exactly one. *)
Theorem timestep_frame fuel self g self' g' :
  Network.timestep fuel self g = Ret self' g' ->
  same_settings self self' /\
  length (occupants (Network.lattice self'))
  = length (occupants (Network.lattice self)) /\
  counters_grow (Network.stats self) (Network.stats self') /\
  (exists new, (length new <= 1)%nat /\ roll self' ≡ₚ new ++ roll self) /\
  Network.time_elapsed self' = Network.time_elapsed self + 1.
Proof. intros H. by eapply step_shape_frame, timestep_shape. Qed.


(** X11.  The search for a destination always ends: whatever the lattice
    holds, the loop of [__check_for_movement] that resamples the neighbour
    returns within 32 rounds, having drawn at most 31 neighbours; and a
    destination it settles on passed the scan for symptomatic occupants. *)
Theorem destination_search_ends (self : Network.t) (nbrs : list nat)
    (fuel s2 : nat) (g : Globals) :
  nbrs <> [] ->
  (forall nb, nb ∈ nbrs ->
     (nb < length (occupants (Network.lattice self)))%nat) ->
  (s2 < length (occupants (Network.lattice self)))%nat ->
  (32 <= fuel)%nat ->
  exists d g',
    Network.find_destination fuel self nbrs s2 0 g = Ret d g' /\
    (pos g' <= pos g + 31)%nat /\
    forall s, d = Some s ->
      exists l, occupants (Network.lattice self) !! s = Some l /\
                Network.scan_symptomatic l = false.
Proof.
  intros Hne Hnbrs Hs2 Hfuel.
  destruct (find_destination_outcome self nbrs fuel s2 0 g Hne Hnbrs Hs2)
    as [[_ Hlow] | (d & g' & Hrun & _)]; [lia|lia|].
  exists d, g'. split; [done|]. split.
  - apply find_destination_draws in Hrun; lia.
  - intros s ->. by eapply find_destination_some.
Qed.

(** X12.  On a lattice of a single node that holds an agent, the first time
    step raises [ValueError]: the node has no neighbour, and the movement
    phase asks [random.randint(0, -1)] for the index of one. *)
Theorem single_node_step_raises fuel self l g :
  well_formed self ->
  num_nodes (Network.network_params self) = 1 ->
  occupants (Network.lattice self) !! 0%nat = Some l -> l <> [] ->
  neighbors (Network.lattice self) 0%nat = [] ->
  Network.timestep (S fuel) self g = Raise ValueError.
Proof. apply timestep_alone. Qed.

(** *** The lattice and its first population *)




(** X16.  When the constructor returns, the counters agree with the
    lattice (for each category [total] counts its agents, [dead] the dead,
    [alive] the others and [infected] those that are not healthy, and
    [num_agents] counts the living), every agent has the label of its node
    as its location, the clock is at 0 and the parameters and the graph are
    those of the arguments. *)
Theorem init_establishes_census fuel args g self g' :
  Network.init fuel args g = Ret self g' ->
  census self /\ locations_consistent self /\
  Network.time_elapsed self = 0 /\
  same_settings (Network.init_lattice args) self.
Proof.
  intros (Hc & Hl & Hs & Ht & _)%init_state. done.
Qed.




(** *** The display *)

(** X20.  [__generate_colorations] gives a node the colour of the worst
    state among its living occupants, symptomatic before asymptomatic
    before healthy, and the colour of the dead to a node without a living
    occupant, be it empty or not. *)
Theorem node_color_is_dominant {C} (color_map : Label -> C) (self : Network.t) :
  Network.generate_colorations color_map self
  = (fun l => color_map (dominant_label l)) <$> occupants (Network.lattice self).
Proof.
  unfold Network.generate_colorations. apply list_fmap_ext.
  intros _ l _. apply node_color_dominant.
Qed.

(** X21.  [__generate_labels] gives an empty node the empty text and any
    other node two numbers: how many of its occupants are asymptomatic or
    symptomatic, and how many are healthy; the dead are in neither. *)
Theorem node_label_counts_living (self : Network.t) :
  Network.generate_labels self
  = (fun l => if decide (l = []) then None
              else Some (tally is_infectious l, tally is_healthy l))
    <$> occupants (Network.lattice self).
Proof.
  unfold Network.generate_labels. apply list_fmap_ext.
  intros _ l _. apply node_label_counts.
Qed.

(** *** The simulation *)

(** X22.  When the loop of [run_simulation] ends, having started at time
    [t0] with counters that have no category 0, it has made
    n = max(0, t - t0) time steps and the clock is at [t0 + n]; the series
    of key 0 and of every category have n more points each, and for n > 0
    the last point of a category is [infected - dead] of its counters at
    the end.  With n = 0 nothing has changed. *)
Theorem run_simulation_series fuel rounds sim g sim' g' :
  Network.run_simulation fuel rounds sim g = Ret sim' g' ->
  Network.stats (Network.network sim) !! 0 = None ->
  let n := Z.max 0 (time_steps (Network.network_params (Network.network sim))
                    - Network.time_elapsed (Network.network sim)) in
  rtc step_shape (Network.network sim) (Network.network sim') /\
  Network.time_elapsed (Network.network sim')
  = Network.time_elapsed (Network.network sim) + n /\
  (n = 0 -> sim' = sim) /\
  forall k series, Network.plot_points sim !! k = Some series ->
    exists new,
      Network.plot_points sim' !! k = Some (series ++ new) /\
      (k = 0 \/ is_Some (Network.stats (Network.network sim) !! k) ->
       Z.of_nat (length new) = n) /\
      (k <> 0 -> 0 < n ->
       forall st, Network.stats (Network.network sim') !! k = Some st ->
         last new = Some (Network.plotted st)).
Proof. apply run_simulation_effect. Qed.

(** X23.  When [main] gets to the end of the simulation, the counters
    agree with the lattice, the clock is at max(0, t), and each of the five
    series has max(0, t) points, as many as the x axis [range(0, t)] of the
    final graph; for t > 0 the last point of the series of a category is the
    number of its agents that are asymptomatic or symptomatic at the end. *)
Theorem main_series fuel rounds args g sim g' :
  main fuel rounds args g = Ret sim g' ->
  census (Network.network sim) /\
  Network.time_elapsed (Network.network sim) = Z.max 0 (arg_t args) /\
  forall k, k ∈ [0; 1; 2; 3; 4] ->
    exists series,
      Network.plot_points sim !! k = Some series /\
      Z.of_nat (length series) = Z.max 0 (arg_t args) /\
      (k <> 0 -> 0 < arg_t args ->
       last series
       = Some (tally (fun a => in_category k a /\ is_infectious a)
                     (bag (Network.network sim)))).
Proof.
  unfold main. intros H.
  apply bind_ret_inv in H as (self & g1 & Hinit & Hrun).
  pose proof Hinit as (l & g2 & _ & Hplace)%init_inv.
  apply init_state in Hinit as (Hc & _ & (Hnp & _) & Ht & _ & _ & H0).
  apply run_simulation_effect in Hrun; [|done].
  cbn [Network.network Network.plot_points] in Hrun.
  rewrite <- Hnp, Ht, Z.sub_0_r, Z.add_0_l in Hrun.
  change (time_steps (Network.network_params (Network.init_lattice args)))
    with (arg_t args) in Hrun.
  destruct Hrun as (Hsteps & Hclock & _ & Hseries).
  apply rtc_step_shape_keeps in Hsteps as [Hcensus Hkeys].
  specialize (Hcensus Hc).
  split; [done|]. split; [done|].
  intros k Hk.
  assert (k = 0 \/ is_Some (Network.stats self !! k)) as Hkey.
  { repeat (apply elem_of_cons in Hk as [-> | Hk]); [by left|right..|];
      [| | | |by apply elem_of_nil in Hk];
      by apply (place_agents_keys _ _ _ _ _ _ _ Hplace). }
  destruct (Hseries k []) as (new & Hnew & Hlen & Hlast).
  { repeat (apply elem_of_cons in Hk as [-> | Hk]); [done..|].
    by apply elem_of_nil in Hk. }
  exists new. split; [done|]. split; [by apply Hlen|].
  intros Hne Hpos. destruct Hkey as [?|Hsome]; [done|].
  destruct (Hkeys k Hsome) as [st Hst].
  rewrite (Hlast Hne ltac:(lia) st Hst). f_equal.
  by apply census_plotted.
Qed.

(** *** The properties on the runs above *)

Lemma one_seeded_state :
  census one_seeded /\ well_formed one_seeded /\ linked one_seeded.
Proof.
  destruct (init_state _ _ _ _ _ (init_builds_one_seeded 0))
    as (Hc & _ & _ & _ & Hwf & Hl & _).
  split; [done|]. split; [by apply Hwf|by apply Hl].
Qed.

Lemma course_of_infection_witness :
  0 <= 1 /\ 0 <= 1 /\
  Agent.health_status (in_state Asymptomatic 0 (adult 0 0))
  = mkHealth Asymptomatic 0 /\
  Agent.health_status (updates 2 (in_state Asymptomatic 0 (adult 0 0)) 1 1)
  = mkHealth Symptomatic 2.
Proof.
  split; [lia|]. split; [lia|]. split; [reflexivity|].
  exact (course_of_infection 2 (in_state Asymptomatic 0 (adult 0 0)) 1 1
           ltac:(lia) ltac:(lia) eq_refl).
Defined.

Lemma death_phase_advances_everyone_witness :
  counted one_seeded /\
  exists self',
    Network.check_for_death one_seeded run_stream = Ret self' run_stream /\
    occupants (Network.lattice self')
    = map (map (advanced one_seeded)) (occupants (Network.lattice one_seeded)) /\
    same_settings one_seeded self'.
Proof.
  assert (counted one_seeded) as Hcounted
    by (apply well_formed_counted, one_seeded_state).
  split; [exact Hcounted|].
  exact (death_phase_advances_everyone one_seeded run_stream Hcounted).
Defined.


Lemma timestep_keeps_census_witness :
  census one_seeded /\
  Network.timestep 1 one_seeded run_stream
  = Ret one_symptomatic (after 4 run_stream) /\
  census one_symptomatic.
Proof.
  assert (census one_seeded) as Hc by apply one_seeded_state.
  split; [exact Hc|]. split; [exact (seeded_first_step 0)|].
  exact (timestep_keeps_census 1 one_seeded run_stream one_symptomatic
           (after 4 run_stream) Hc (seeded_first_step 0)).
Defined.

Lemma timestep_frame_witness :
  Network.timestep 1 one_seeded run_stream
  = Ret one_symptomatic (after 4 run_stream) /\
  same_settings one_seeded one_symptomatic /\
  length (occupants (Network.lattice one_symptomatic))
  = length (occupants (Network.lattice one_seeded)) /\
  counters_grow (Network.stats one_seeded) (Network.stats one_symptomatic) /\
  (exists new, (length new <= 1)%nat /\
               roll one_symptomatic ≡ₚ new ++ roll one_seeded) /\
  Network.time_elapsed one_symptomatic = Network.time_elapsed one_seeded + 1.
Proof.
  split; [exact (seeded_first_step 0)|].
  exact (timestep_frame 1 one_seeded run_stream one_symptomatic
           (after 4 run_stream) (seeded_first_step 0)).
Defined.


Lemma destination_search_ends_witness :
  neighbors (Network.lattice one_seeded) 0%nat <> [] /\
  (1 < length (occupants (Network.lattice one_seeded)))%nat /\
  (32 <= 32)%nat /\
  exists d g',
    Network.find_destination 32 one_seeded
      (neighbors (Network.lattice one_seeded) 0%nat) 1 0 run_stream
    = Ret d g' /\
    (pos g' <= pos run_stream + 31)%nat /\
    forall s, d = Some s ->
      exists l, occupants (Network.lattice one_seeded) !! s = Some l /\
                Network.scan_symptomatic l = false.
Proof.
  destruct one_seeded_state as (_ & Hwf & Hl).
  assert (0 < length (occupants (Network.lattice one_seeded)))%nat as H0
    by (cbn; lia).
  assert (1 < length (occupants (Network.lattice one_seeded)))%nat as H1
    by (cbn; lia).
  split; [exact (Hl 0%nat H0)|]. split; [exact H1|]. split; [lia|].
  exact (destination_search_ends one_seeded
           (neighbors (Network.lattice one_seeded) 0%nat) 32 1 run_stream
           (Hl 0%nat H0) (fun nb => wf_neighbors _ Hwf 0%nat nb H0) H1
           (le_n 32)).
Defined.

Lemma single_node_step_raises_witness :
  well_formed alone /\
  num_nodes (Network.network_params alone) = 1 /\
  occupants (Network.lattice alone) !! 0%nat = Some [adult 0 0] /\
  [adult 0 0] <> [] /\
  neighbors (Network.lattice alone) 0%nat = [] /\
  Network.timestep 1 alone (playing [] 1) = Raise ValueError.
Proof.
  assert (well_formed alone) as Hwf.
  { destruct (init_state _ _ _ _ _ (init_builds_alone 0))
      as (_ & _ & _ & _ & Hwf & _). by apply Hwf. }
  assert ([adult 0 0] <> []) as Hne by done.
  split; [exact Hwf|]. split; [reflexivity|]. split; [reflexivity|].
  split; [exact Hne|]. split; [reflexivity|].
  exact (single_node_step_raises 0 alone [adult 0 0] (playing [] 1) Hwf
           eq_refl eq_refl Hne eq_refl).
Defined.




Lemma init_establishes_census_witness :
  Network.init 1 (args_2x2 (1 / 4) 0 1) (playing [0; 0; 30] 0)
  = Ret one_seeded (after 3 (playing [0; 0; 30] 1)) /\
  census one_seeded /\ locations_consistent one_seeded /\
  Network.time_elapsed one_seeded = 0 /\
  same_settings (Network.init_lattice (args_2x2 (1 / 4) 0 1)) one_seeded.
Proof.
  split; [exact (init_builds_one_seeded 0)|].
  exact (init_establishes_census _ _ _ _ _ (init_builds_one_seeded 0)).
Defined.




Lemma run_simulation_series_witness :
  let sim := Network.mkSimulation (short_run Asymptomatic 0 0)
               (list_to_map ((fun i => (i, [])) <$> [0; 1; 2; 3; 4])) in
  let sim' := Network.mkSimulation (short_run Symptomatic 1 1) short_points in
  Network.run_simulation 1 2 sim (after 3 (playing [0; 0; 30; 0; 1; 0; 0] 1))
  = Ret sim' (after 7 (playing [0; 0; 30; 0; 1; 0; 0] 1)) /\
  Network.stats (Network.network sim) !! 0 = None /\
  let n := Z.max 0 (time_steps (Network.network_params (Network.network sim))
                    - Network.time_elapsed (Network.network sim)) in
  rtc step_shape (Network.network sim) (Network.network sim') /\
  Network.time_elapsed (Network.network sim')
  = Network.time_elapsed (Network.network sim) + n /\
  (n = 0 -> sim' = sim) /\
  forall k series, Network.plot_points sim !! k = Some series ->
    exists new,
      Network.plot_points sim' !! k = Some (series ++ new) /\
      (k = 0 \/ is_Some (Network.stats (Network.network sim) !! k) ->
       Z.of_nat (length new) = n) /\
      (k <> 0 -> 0 < n ->
       forall st, Network.stats (Network.network sim') !! k = Some st ->
         last new = Some (Network.plotted st)).
Proof.
  intros sim sim'.
  assert (Network.stats (Network.network sim) !! 0 = None) as H0
    by reflexivity.
  split; [exact (short_simulation 0 0)|]. split; [exact H0|].
  exact (run_simulation_series 1 2 sim _ sim' _ (short_simulation 0 0) H0).
Defined.

Lemma main_series_witness :
  let sim := Network.mkSimulation (short_run Symptomatic 1 1) short_points in
  main 1 2 args_one_step short_stream
  = Ret sim (after 7 (playing [0; 0; 30; 0; 1; 0; 0] 1)) /\
  census (Network.network sim) /\
  Network.time_elapsed (Network.network sim)
  = Z.max 0 (arg_t args_one_step) /\
  forall k, k ∈ [0; 1; 2; 3; 4] ->
    exists series,
      Network.plot_points sim !! k = Some series /\
      Z.of_nat (length series) = Z.max 0 (arg_t args_one_step) /\
      (k <> 0 -> 0 < arg_t args_one_step ->
       last series
       = Some (tally (fun a => in_category k a /\ is_infectious a)
                     (bag (Network.network sim)))).
Proof.
  intros sim. split; [exact (short_main 0 0)|].
  exact (main_series 1 2 args_one_step short_stream sim _ (short_main 0 0)).
Defined.

(** *** Identifiers, and the run as a whole *)

(** X24.  A time step keeps the identifiers apart: if the identifiers of
    the agents on the lattice are pairwise distinct and below the class
    counter [Agent.agent_id] before the step, they are so after it, and the
    step raises the counter by at most one. *)
Theorem identifiers_stay_unique fuel self g self' g' :
  Network.timestep fuel self g = Ret self' g' ->
  ids_fresh g self ->
  ids_fresh g' self' /\ agent_id g <= agent_id g' <= agent_id g + 1.
Proof. apply timestep_ids. Qed.



(** X27.  With a transmission probability of 0 the infection phase infects
    nobody: on a network where every lookup of the engine is defined it
    returns the network as it was. *)
Theorem no_transmission_at_rate_0 self g :
  lambda (Network.agent_params self) = 0%R ->
  well_formed self ->
  exists g', Network.check_for_infection self g = Ret self g'.
Proof.
  intros Hlam Hwf.
  destruct (check_for_infection_returns self g Hwf) as (s' & g' & Hrun & _).
  exists g'. by rewrite <- (check_for_infection_rate_0 _ _ _ _ Hlam Hrun) at 2.
Qed.

Lemma identifiers_stay_unique_witness :
  Network.timestep 1 one_seeded run_stream
  = Ret one_symptomatic (after 4 run_stream) /\
  ids_fresh run_stream one_seeded /\
  ids_fresh (after 4 run_stream) one_symptomatic /\
  agent_id run_stream <= agent_id (after 4 run_stream)
  <= agent_id run_stream + 1.
Proof.
  assert (ids_fresh run_stream one_seeded) as Hids.
  { destruct (init_ids _ _ _ _ _ (init_builds_one_seeded 0))
      as ([Hnd Hlt] & _). split; [exact Hnd|exact Hlt]. }
  split; [exact (seeded_first_step 0)|]. split; [exact Hids|].
  exact (identifiers_stay_unique 1 one_seeded run_stream one_symptomatic
           (after 4 run_stream) (seeded_first_step 0) Hids).
Defined.



Lemma init_builds_rate_0_network :
  Network.init 1 args_rate_0 (playing [1; 0; 30; 0; 30] 0)
  = Ret rate_0_network (after 5 (playing [1; 0; 30; 0; 30] 2)).
Proof.
  assert (Network.population (Network.init_lattice args_rate_0) = 2) as Hpop.
  { unfold Network.population. cbn.
    replace (IZR (2 * 2) * (1 / 2))%R with (IZR 2); [apply py_int_IZR|].
    change (2 * 2) with 4. lra. }
  assert (Network.choose_index 1 (Network.init_lattice args_rate_0) []
            (playing [1; 0; 30; 0; 30] 0)
          = Ret [1] (next (playing [1; 0; 30; 0; 30] 0))) as Hchoose.
  { rewrite choose_index_fresh; rewrite Hpop; [done..|apply not_elem_of_nil]. }
  unfold Network.init, Network.populate_lattice, Network.choose_indices.
  rewrite Hpop.
  change (py_range (n_0 _)) with [0]. change (py_range 2) with [0; 1].
  cbn [for_each].
  by rewrite (bind_ret_eq _ _ _ _ _ (bind_ret_eq _ _ _ _ _ Hchoose)).
Qed.

Lemma no_transmission_at_rate_0_witness :
  lambda (Network.agent_params rate_0_network) = 0%R /\
  well_formed rate_0_network /\
  exists g',
    Network.check_for_infection rate_0_network (playing [50] 2)
    = Ret rate_0_network g'.
Proof.
  assert (well_formed rate_0_network) as Hwf.
  { destruct (init_state _ _ _ _ _ init_builds_rate_0_network)
      as (_ & _ & _ & _ & Hwf & _). apply Hwf. cbn. lia. }
  split; [reflexivity|]. split; [exact Hwf|].
  exact (no_transmission_at_rate_0 rate_0_network (playing [50] 2)
           eq_refl Hwf).
Defined.
